(** * genomepy: interval extraction and random window sampling

    A shallow embedding of [genomepy/functions.py]: [get_track_type],
    [_weighted_selection], [_is_genome_dir], [list_installed_genomes] and
    the methods [__init__], [get_spliced_seq], [_bed_to_seqs],
    [_region_to_seqs], [track2fasta] and [get_random_sequences] of class
    [Genome].

    Conventions of the embedding:
    - Python [int] is [Z]; a Python [float] is the rational [Q] that it
      denotes, and the sums and products of floats are the operations of the
      class [FloatArith], of which [binary64] is the arithmetic of the
      machine and [exact_arith] the arithmetic without rounding;
    - Python [str] is [string]; only ASCII text is considered;
    - a raised exception is the [Raise] outcome of type [result], and code
      that threads the module-level random generator lives in the state and
      error monad [Rand];
    - the pyfaidx index ([self.faidx.fetch], [Fasta.get_seq]) is outside the
      repository: the functions that call it take it as a parameter
      [fetch]; [faidx_fetch] is the index as the specification describes it
      (0-based, half-open) and [pyfaidx_fetch] the index as the library has
      it (1-based, end inclusive);
    - whether a file can be opened for writing is decided outside the
      module: [track2fasta] takes it from the class [FileAccess];
    - the configuration, the directory listing, [glob] and [Fasta.__init__]
      are outside the repository too: they are the variables of section
      [Installed]. *)

From Stdlib Require Import ZArith QArith Lqa Lia.
From Stdlib Require Import String Ascii DecimalString DecimalPos.
From stdpp Require Import base list strings gmap.
From Equations Require Import Equations.

Local Open Scope string_scope.
Local Open Scope list_scope.
Local Open Scope Z_scope.

(** ** Exceptions and the error monad *)

Inductive exn : Type :=
| IndexError
| KeyError (key : string)
| ValueError (msg : string)
| TypeError
| NameError
| FileNotFoundError (path : string)
| FetchError (chrom : string).

Inductive result (A : Type) : Type :=
| Ok (a : A)
| Raise (e : exn).
Arguments Ok {A} a.
Arguments Raise {A} e.

#[global] Instance result_ret : MRet result := fun _ a => Ok a.
#[global] Instance result_bind : MBind result := fun _ _ f m =>
  match m with
  | Ok a => f a
  | Raise e => Raise e
  end.
#[global] Instance result_fmap : FMap result := fun _ _ f m =>
  match m with
  | Ok a => Ok (f a)
  | Raise e => Raise e
  end.

Definition exn_message (e : exn) : string :=
  match e with
  | ValueError msg => msg
  | KeyError k => k
  | FetchError c => c
  | FileNotFoundError p => p
  | _ => ""
  end.

(** ** Python built-ins used by the module *)

Module Py.

(** [l[i]] on a list: a negative index counts from the end, an index out
    of range raises [IndexError]. *)
Definition getitem {A} (l : list A) (i : Z) : result A :=
  let j := if i <? 0 then i + Z.of_nat (length l) else i in
  if j <? 0 then Raise IndexError
  else match l !! Z.to_nat j with
       | Some x => Ok x
       | None => Raise IndexError
       end.

(** [l[i] = x] on a list. *)
Definition setitem {A} (l : list A) (i : Z) (x : A) : result (list A) :=
  let j := if i <? 0 then i + Z.of_nat (length l) else i in
  if (j <? 0) || (Z.of_nat (length l) <=? j) then Raise IndexError
  else Ok (<[Z.to_nat j := x]> l).

(** [l[:-1]]: all but the last element (the empty list stays empty). *)
Definition but_last {A} (l : list A) : list A := removelast l.

(** [s[start:stop]] with the clamping of Python slices. *)
Definition clamp (len i : Z) : Z :=
  let j := if i <? 0 then i + len else i in
  Z.max 0 (Z.min len j).

Definition chars (s : string) : list ascii := list_ascii_of_string s.
Definition str (l : list ascii) : string := string_of_list_ascii l.

Definition slice (s : string) (start stop : Z) : string :=
  let len := Z.of_nat (String.length s) in
  let a := clamp len start in
  let b := clamp len stop in
  str (take (Z.to_nat (b - a)) (drop (Z.to_nat a) (chars s))).

(** ["".join(l)]. *)
Definition join (l : list string) : string := foldr String.append "" l.

(** [str.isspace] on one ASCII character. *)
Definition is_space (c : ascii) : bool :=
  let n := nat_of_ascii c in
  ((9 <=? n) && (n <=? 13) || (28 <=? n) && (n <=? 32))%nat.

Fixpoint lstrip (s : string) : string :=
  match s with
  | String c s' => if is_space c then lstrip s' else s
  | EmptyString => EmptyString
  end.

Fixpoint rstrip (s : string) : string :=
  match s with
  | String c s' =>
      match rstrip s' with
      | EmptyString => if is_space c then EmptyString else String c EmptyString
      | r => String c r
      end
  | EmptyString => EmptyString
  end.

(** [s.strip()]. *)
Definition strip (s : string) : string := rstrip (lstrip s).

(** [s.split(sep)] for a one-character separator: never empty. *)
Fixpoint split (sep : ascii) (s : string) : list string :=
  match s with
  | EmptyString => [EmptyString]
  | String c s' =>
      if Ascii.eqb c sep then EmptyString :: split sep s'
      else match split sep s' with
           | tok :: toks => String c tok :: toks
           | [] => [String c EmptyString]
           end
  end.

(** [s.startswith(p)]. *)
Definition startswith (p s : string) : bool := String.prefix p s.

Definition is_digit (c : ascii) : bool :=
  let n := nat_of_ascii c in ((48 <=? n) && (n <=? 57))%nat.

Definition digit_val (c : ascii) : Z := Z.of_nat (nat_of_ascii c) - 48.

Fixpoint digits_val (acc : Z) (s : string) : option Z :=
  match s with
  | EmptyString => Some acc
  | String c s' =>
      if is_digit c then digits_val (10 * acc + digit_val c) s' else None
  end.

Definition int_error : exn := ValueError "invalid literal for int() with base 10".

(** [int(s)] on a string: surrounding white space, an optional sign, and
    at least one decimal digit (digit grouping with underscores is not
    modelled). *)
Definition int (s : string) : result Z :=
  let unsigned (t : string) : result Z :=
    match t with
    | EmptyString => Raise int_error
    | _ => match digits_val 0 t with
           | Some z => Ok z
           | None => Raise int_error
           end
    end in
  match strip s with
  | String "-" t => Z.opp <$> unsigned t
  | String "+" t => unsigned t
  | t => unsigned t
  end.

(** ["{}".format(z)] for an integer. *)
Definition format_int (z : Z) : string := NilZero.string_of_int (Z.to_int z).

(** [s.upper()] and [s.count(c)] for a one-character pattern. *)
Definition upper_char (c : ascii) : ascii :=
  let n := nat_of_ascii c in
  if ((97 <=? n) && (n <=? 122))%nat then ascii_of_nat (n - 32) else c.

Definition upper (s : string) : string := str (upper_char <$> chars s).

Definition count (c : ascii) (s : string) : Z :=
  Z.of_nat (length (filter (λ x, x = c) (chars s))).

(** [fin.readlines()] and [fin.readline()] on the text of a file: every
    line keeps its newline. *)
Fixpoint readlines (s : string) : list string :=
  match s with
  | EmptyString => []
  | String c s' =>
      if Ascii.eqb c "010" then String c EmptyString :: readlines s'
      else match readlines s' with
           | ln :: lns => String c ln :: lns
           | [] => [String c EmptyString]
           end
  end.

Definition readline (s : string) : string := hd "" (readlines s).

(** The newline and the tab character as strings. *)
Definition nl : string := String "010" EmptyString.
Definition tab : string := String "009" EmptyString.

(** [sep.join(l)]. *)
Fixpoint join_with (sep : string) (l : list string) : string :=
  match l with
  | [] => EmptyString
  | [x] => x
  | x :: l' => x +:+ sep +:+ join_with sep l'
  end.

(** [needle in hay] for strings. *)
Definition contains (needle hay : string) : bool :=
  match String.index 0 needle hay with
  | Some _ => true
  | None => false
  end.

(** [int(q)] on a float: truncation towards zero. *)
Definition trunc (q : Q) : Z := Z.quot (Qnum q) (Z.pos (Qden q)).

End Py.


(** ** Sequences and the sequence index *)

(** pyfaidx's [Sequence(name, seq, start, end)]. *)
Record Sequence : Type := mkSequence {
  name : string;
  seq : string;
  start : option Z;
  end_ : option Z
}.

(** Modelled from the spec: the pairing complement of one base (glossary,
    Reverse complement), case preserving, with the IUPAC ambiguity codes;
    any other character is left as it is. *)
Definition complement_base (c : ascii) : ascii :=
  match c with
  | "A" => "T" | "T" => "A" | "C" => "G" | "G" => "C"
  | "a" => "t" | "t" => "a" | "c" => "g" | "g" => "c"
  | "Y" => "R" | "R" => "Y" | "K" => "M" | "M" => "K"
  | "y" => "r" | "r" => "y" | "k" => "m" | "m" => "k"
  | "D" => "H" | "H" => "D" | "V" => "B" | "B" => "V"
  | "d" => "h" | "h" => "d" | "v" => "b" | "b" => "v"
  | _ => c
  end%char.

Definition revcomp (s : string) : string :=
  Py.str (complement_base <$> reverse (Py.chars s)).

(** [-chunk]: the reverse complement of a sequence object. *)
Definition neg (c : Sequence) : Sequence :=
  mkSequence (name c) (revcomp (seq c)) (start c) (end_ c).

(** The records of the FASTA file in file order: name and bases. *)
Definition Genome : Type := list (string * string).

Fixpoint genome_get (g : Genome) (chrom : string) : option string :=
  match g with
  | [] => None
  | (k, v) :: g' => if String.eqb k chrom then Some v else genome_get g' chrom
  end.

(** [self.keys()]. *)
Definition genome_keys (g : Genome) : list string := fst <$> g.

(** Modelled from the spec: the sequence index's
    [fetch(chromosome, start, end)], 0-based and half-open (sections 3 and
    4.4); the positions of the range that lie outside the chromosome give
    no base, and an absent chromosome is an error (MissingIndexError).
    The returned chunk records the coordinates it was asked for. *)
Definition faidx_fetch (g : Genome) (chrom : string) (s e : Z) : result Sequence :=
  match genome_get g chrom with
  | None => Raise (FetchError chrom)
  | Some bases =>
      Ok (mkSequence chrom
            (Py.str (drop (Z.to_nat s) (take (Z.to_nat e) (Py.chars bases))))
            (Some s) (Some e))
  end.

(** pyfaidx's [Faidx.fetch(name, start, end)] as the library has it, which
    is not what the specification says of the index: the coordinates are
    1-based and the end is inclusive, so that the bases [start - 1] to
    [end - 1] of the record are returned, and a start below 1 is refused.
    The library is not part of the repository. *)
Definition pyfaidx_fetch (g : Genome) (chrom : string) (s e : Z) : result Sequence :=
  match genome_get g chrom with
  | None => Raise (FetchError chrom)
  | Some bases =>
      if s <? 1 then Raise (FetchError chrom)
      else
        Ok (mkSequence chrom
              (Py.str (drop (Z.to_nat (s - 1)) (take (Z.to_nat e) (Py.chars bases))))
              (Some s) (Some e))
  end.

(** ** [get_track_type] *)

(** The text files the process can open, by path. *)
Abbreviation filesystem := (gmap string string).

(** The [track] argument: an in-memory list of strings or a path. *)
Inductive track : Type :=
| TrackList (l : list string)
| TrackPath (path : string).

Definition open (fs : filesystem) (path : string) : result string :=
  match fs !! path with
  | Some text => Ok text
  | None => Raise (FileNotFoundError path)
  end.

(** The longest prefix of digits of a list of characters, and the rest. *)
Fixpoint span_digits (l : list ascii) : list ascii * list ascii :=
  match l with
  | c :: l' =>
      if Py.is_digit c then let '(d, r) := span_digits l' in (c :: d, r)
      else ([], l)
  | [] => ([], [])
  end.

(** [region_p.search(s)] for [region_p = re.compile(r'^(.+):(\d+)-(\d+)$')],
    read from the end of the string: [$] also matches before a final
    newline, then come the digits of the end, a dash, the digits of the
    start, a colon, and at least one character, none of them a newline. *)
Definition region_p_search (s : string) : bool :=
  let r := reverse (Py.chars s) in
  let r := match r with "010"%char :: r' => r' | _ => r end in
  match span_digits r with
  | (_ :: _, "-"%char :: r1) =>
      match span_digits r1 with
      | (_ :: _, ":"%char :: r2) =>
          match r2 with
          | [] => false
          | _ => forallb (λ c, negb (Ascii.eqb c "010")) r2
          end
      | _ => false
      end
  | _ => false
  end.

Inductive track_type : Type := Interval | Bed.

(** [open(track)] on a list is a [TypeError]. *)
Definition get_track_type (fs : filesystem) (t : track) : result track_type :=
  let from_file : result track_type :=
    match t with
    | TrackList _ => Raise TypeError
    | TrackPath p =>
        text ← open fs p;
        let line := Py.strip (Py.readline text) in
        if region_p_search line then Ok Interval else Ok Bed
    end in
  match t with
  | TrackList l =>
      x ← Py.getitem l 0;
      if region_p_search x then Ok Interval else from_file
  | TrackPath _ => from_file
  end.

(** [open(path, "w")]: whether the file can be created or emptied is
    decided outside the module, by the directories and the permissions of
    the machine. [open_w path] is the exception that the call raises for the
    path, if it raises. *)
Class FileAccess : Type := open_w : string → option exn.

(** A machine on which every file can be opened for writing. *)
Definition all_writable : FileAccess := λ _, None.

(** A machine on which no file can be opened for writing: the directory of
    the path is missing. *)
Definition none_writable : FileAccess := λ path, Some (FileNotFoundError path).

#[global] Existing Instance all_writable.

(** ** [Genome.get_spliced_seq] *)

Section Extraction.

(** [self.faidx.fetch], which [Fasta.get_seq] calls too. *)
Variable fetch : string → Z → Z → result Sequence.
Context {W : FileAccess}.

Definition get_spliced_seq (name : string) (intervals : list (Z * Z)) (rc : bool)
  : result Sequence :=
  chunks ← mapM (λ '(s, e), fetch name s e) intervals;
  first ← Py.getitem chunks 0;
  last ← Py.getitem chunks (-1);
  let start := start first in
  let end_ := end_ last in
  let seq :=
    if rc then Py.join ((λ chunk, seq (neg chunk)) <$> reverse chunks)
    else Py.join (seq <$> chunks) in
  Ok (mkSequence name seq start end_).

Definition get_seq (name : string) (start end_ : Z) : result Sequence :=
  fetch name start end_.

(** ** [Genome._bed_to_seqs] *)

(** The block structure of a line: [starts] and [ends] before the
    coordinate fix. With 12 fields they come from the block starts of field
    11 and the block sizes of field 10, each without its last token. *)
Definition bed_blocks (vals : list string) (start end_ : Z)
  : result (list Z * list Z) :=
  if (length vals =? 12)%nat then
    v11 ← Py.getitem vals 11;
    starts ← mapM Py.int (Py.but_last (Py.split "," v11));
    v10 ← Py.getitem vals 10;
    sizes ← mapM Py.int (Py.but_last (Py.split "," v10));
    let starts := (λ x, start + x) <$> starts in
    let ends := (λ '(start, size), start + size) <$> zip starts sizes in
    Ok (starts, ends)
  else Ok ([start], [end_]).

(** "bed half open": the adjustment of the coordinates by strand. *)
Definition half_open_fix (rc : bool) (starts ends : list Z) : list Z * list Z :=
  if rc then ((λ start, start + 1) <$> starts, ends)
  else (starts, (λ end_, end_ - 1) <$> ends).

(** [l[i] += d]. *)
Definition add_at (l : list Z) (i d : Z) : result (list Z) :=
  x ← Py.getitem l i; Py.setitem l i (x + d).

(** "extend": [extend_up] and [extend_down], tested for truth. *)
Definition extend (rc : bool) (extend_up extend_down : Z) (starts ends : list Z)
  : result (list Z * list Z) :=
  '(starts, ends) ←
    (if extend_up =? 0 then Ok (starts, ends)
     else if rc then ends ← add_at ends (-1) extend_up; Ok (starts, ends)
     else starts ← add_at starts 0 (- extend_up); Ok (starts, ends));
  if extend_down =? 0 then Ok (starts, ends)
  else if rc then starts ← add_at starts 0 (- extend_down); Ok (starts, ends)
  else ends ← add_at ends (-1) extend_down; Ok (starts, ends).

(** What one line of BED text resolves to, before any base is fetched. *)
Record bed_record : Type := mkBed {
  bed_name : string;
  bed_chrom : string;
  bed_intervals : list (Z * Z);
  bed_rc : bool
}.

(** [vals = line.strip().split("\t")]. *)
Definition fields (line : string) : list string := Py.split "009" (Py.strip line).

(** [start, end = int(vals[1]), int(vals[2])]. *)
Definition bed_coords (vals : list string) : result (Z * Z) :=
  v1 ← Py.getitem vals 1;
  start ← Py.int v1;
  v2 ← Py.getitem vals 2;
  end_ ← Py.int v2;
  Ok (start, end_).

(** [rc]: only when [stranded], and false when there is no field 5. *)
Definition bed_strand (vals : list string) (stranded : bool) : bool :=
  if stranded then
    match Py.getitem vals 5 with
    | Ok strand => String.eqb strand "-"
    | Raise _ => false
    end
  else false.

(** [name]: field 3, or ["{}:{}-{}".format(chrom, start, end)]. *)
Definition bed_name_of (vals : list string) (chrom : string) (start end_ : Z) : string :=
  match Py.getitem vals 3 with
  | Ok n => n
  | Raise _ => chrom +:+ ":" +:+ Py.format_int start +:+ "-" +:+ Py.format_int end_
  end.

(** The body of the loop of [_bed_to_seqs] for one line down to
    "bed half open": name, chromosome, strand, [starts] and [ends]. *)
Definition bed_fixed (line : string) (stranded : bool)
  : result (string * string * bool * list Z * list Z) :=
  let vals := fields line in
  '(start, end_) ← bed_coords vals;
  let rc := bed_strand vals stranded in
  chrom ← Py.getitem vals 0;
  '(starts, ends) ← bed_blocks vals start end_;
  let name := bed_name_of vals chrom start end_ in
  let '(starts, ends) := half_open_fix rc starts ends in
  Ok (name, chrom, rc, starts, ends).

(** The same body down to [intervals = zip(starts, ends)]. *)
Definition bed_line (line : string) (stranded : bool) (extend_up extend_down : Z)
  : result bed_record :=
  '(name, chrom, rc, starts, ends) ← bed_fixed line stranded;
  '(starts, ends) ← extend rc extend_up extend_down starts ends;
  Ok (mkBed name chrom (zip starts ends) rc).

(** Lines that are passed over: comments and track headers. *)
Definition skipped (line : string) : bool :=
  Py.startswith "#" line || Py.startswith "track" line.

Definition bed_line_seq (stranded : bool) (extend_up extend_down : Z) (line : string)
  : result Sequence :=
  r ← bed_line line stranded extend_up extend_down;
  chunk ← get_spliced_seq (bed_chrom r) (bed_intervals r) (bed_rc r);
  Ok (mkSequence (bed_name r) (seq chunk) None None).

(** A generator is the list of the outcomes of its steps; whoever consumes
    it stops at the first exception. The file is read in buffers of lines,
    which yields the lines in order. *)
Definition _bed_to_seqs (fs : filesystem) (track : string) (stranded : bool)
    (extend_up extend_down : Z) : list (result Sequence) :=
  match open fs track with
  | Raise e => [Raise e]
  | Ok text =>
      bed_line_seq stranded extend_up extend_down
        <$> filter (λ line, skipped line = false) (Py.readlines text)
  end.

(** ** [Genome._region_to_seqs] *)

Definition unpack_error : exn := ValueError "wrong number of values to unpack".

(** The coordinates that a region string asks [get_seq] for. *)
Definition region_coords (name : string) (extend_up extend_down : Z)
  : result (string * Z * Z) :=
  match Py.split ":" name with
  | [chrom; coords] =>
      cs ← mapM Py.int (Py.split "-" coords);
      match cs with
      | [start; end_] => Ok (chrom, start - extend_up, end_ + extend_down)
      | _ => Raise unpack_error
      end
  | _ => Raise unpack_error
  end.

Definition region_seq (extend_up extend_down : Z) (name : string) : result Sequence :=
  '(chrom, start, end_) ← region_coords name extend_up extend_down;
  chunk ← get_seq chrom start end_;
  Ok (mkSequence name (seq chunk) None None).

Definition _region_to_seqs (fs : filesystem) (t : track) (extend_up extend_down : Z)
  : list (result Sequence) :=
  match t with
  | TrackList l => region_seq extend_up extend_down <$> l
  | TrackPath p =>
      match open fs p with
      | Raise e => [Raise e]
      | Ok text =>
          (λ line, region_seq extend_up extend_down (Py.strip line))
            <$> Py.readlines text
      end
  end.

(** ** [Genome.track2fasta] *)

(** [[seq for seq in seqqer]]. *)
Definition collect {A} (gen : list (result A)) : result (list A) := mapM id gen.

(** Modelled from the spec: the FASTA text of one record (section 6), a
    header line and one sequence line. *)
Definition fasta_repr (s : Sequence) : string := ">" +:+ name s +:+ Py.nl +:+ seq s.

(** The loop that writes the records: the text written so far, and the
    exception that ended the loop if there is one. *)
Fixpoint write_all (gen : list (result Sequence)) (written : string)
  : string * result () :=
  match gen with
  | [] => (written, Ok ())
  | Raise e :: _ => (written, Raise e)
  | Ok s :: gen' => write_all gen' (written +:+ fasta_repr s +:+ Py.nl)
  end.

(** The generator that [track2fasta] picks for a track. A list track is not
    a path: [_bed_to_seqs] cannot open it. *)
Definition seqqer (fs : filesystem) (t : track) (ty : track_type) (stranded : bool)
    (extend_up extend_down : Z) : list (result Sequence) :=
  match ty with
  | Interval => _region_to_seqs fs t extend_up extend_down
  | Bed =>
      match t with
      | TrackPath p => _bed_to_seqs fs p stranded extend_up extend_down
      | TrackList _ => [Raise TypeError]
      end
  end.

(** The returned value ([None] after writing a file) and the file system
    afterwards. [fastafile] is tested for truth: no name and the empty name
    both give the list. The output file is opened, and so emptied, after the
    type of the track is found and before the generator reads its first
    line; when it cannot be opened, the exception of [open] ends the call and
    no file is touched. *)
Definition track2fasta (fs : filesystem) (t : track) (fastafile : option string)
    (stranded : bool) (extend_up extend_down : Z)
  : result (option (list Sequence)) * filesystem :=
  match get_track_type fs t with
  | Raise e => (Raise e, fs)
  | Ok ty =>
      let to_list :=
        (Some <$> collect (seqqer fs t ty stranded extend_up extend_down), fs) in
      match fastafile with
      | None | Some EmptyString => to_list
      | Some out =>
          match open_w out with
          | Some e => (Raise e, fs)
          | None =>
              let fs := <[out := ""]> fs in
              let gen := seqqer fs t ty stranded extend_up extend_down in
              let '(written, r) := write_all gen "" in
              ((λ _, None) <$> r, <[out := written]> fs)
          end
      end
  end.

End Extraction.

(** ** The random generator *)

(** The state of the module-level generator of [random]: the numbers it
    is going to return, and how many were taken. *)
Record rng : Type := mkRng {
  draws : nat → Q;
  pos : nat
}.

Definition advance (r : rng) (k : nat) : rng := mkRng (draws r) (pos r + k).

(** A computation that may draw random numbers and may raise; the state of
    the generator survives an exception. *)
Definition Rand (A : Type) : Type := rng → result A * rng.

#[global] Instance rand_ret : MRet Rand := fun _ a r => (Ok a, r).
#[global] Instance rand_bind : MBind Rand := fun _ _ f m r =>
  match m r with
  | (Ok a, r') => f a r'
  | (Raise e, r') => (Raise e, r')
  end.

Definition lift {A} (m : result A) : Rand A := fun r => (m, r).

(** [random.random()]. *)
Definition random : Rand Q := fun r => (Ok (draws r (pos r)), advance r 1).

(** Every number of the generator lies in [0, 1). *)
Definition unit_draws (r : rng) : Prop :=
  ∀ i, (0 <= draws r i)%Q ∧ (draws r i < 1)%Q.

(** [[f() for _ in range(n)]]. *)
Fixpoint repeatM {A} (n : nat) (m : Rand A) : Rand (list A) :=
  match n with
  | O => mret []
  | S n' => x ← m; xs ← repeatM n' m; mret (x :: xs)
  end.

(** ** Floating-point arithmetic *)

(** A Python [float] is the rational that it denotes. [x + y] and [x * y]
    on a float and a number give the exact sum and product as the machine
    rounds them; comparisons, [int(x)] and [bisect] are exact. The rounding
    is the machine's, not the module's: the functions below take the two
    operations from the class [FloatArith]. *)
Class FloatArith : Type := {
  fadd : Q → Q → Q;
  fmul : Q → Q → Q
}.

(** Sums and products that are not rounded. *)
Definition exact_arith : FloatArith := {| fadd := Qplus; fmul := Qmult |}.

(** IEEE 754 binary64, rounding to nearest, ties to even, of a rational:
    a significand of 53 bits, and the exponent of the subnormal numbers
    below [2^-1022]. Numbers beyond the largest float are not considered:
    the numbers of the module are lengths of chromosomes and fractions. *)
Definition round_double (q : Q) : Q :=
  let n := Z.abs (Qnum q) in
  let d := Z.pos (Qden q) in
  if n =? 0 then 0%Q
  else
    let k := Z.log2 n - Z.log2 d in
    let lg := if (if 0 <=? k then d * 2 ^ k <=? n else d <=? n * 2 ^ (- k))
              then k else k - 1 in
    let e := Z.max (lg - 52) (-1074) in
    let num := if 0 <=? e then n else n * 2 ^ (- e) in
    let den := if 0 <=? e then d * 2 ^ e else d in
    let m := num / den in
    let rem := num mod den in
    let m := if 2 * rem <? den then m
             else if den <? 2 * rem then m + 1
             else if Z.even m then m else m + 1 in
    let m := if Qnum q <? 0 then - m else m in
    if 0 <=? e then inject_Z (m * 2 ^ e) else Qmake m (Z.to_pos (2 ^ (- e))).

(** The arithmetic of CPython's [float]. *)
Definition binary64 : FloatArith :=
  {| fadd := λ x y, round_double (x + y)%Q;
     fmul := λ x y, round_double (x * y)%Q |}.

(** Where a statement does not name the arithmetic, it is the exact one. *)
#[global] Existing Instance exact_arith.

(** ** [_weighted_selection] *)

Definition Qltb (x y : Q) : bool := negb (Qle_bool y x).

(** [bisect.bisect(a, x)], that is [bisect_right] with [lo = 0] and
    [hi = len(a)]: the loop
    [while lo < hi: mid = (lo + hi) // 2;
       if x < a[mid]: hi = mid else: lo = mid + 1]. *)
Equations? bisect_loop (a : list Q) (x : Q) (lo hi : nat) : result nat
  by wf (hi - lo)%nat lt :=
  bisect_loop a x lo hi with decide (lo < hi)%nat => {
    | right _ => Ok lo
    | left _ with a !! ((lo + hi) / 2)%nat => {
      | None => Raise IndexError
      | Some am =>
          if Qltb x am then bisect_loop a x lo ((lo + hi) / 2)%nat
          else bisect_loop a x ((lo + hi) / 2 + 1)%nat hi } }.
Proof.
  all: change (Nat.divmod (lo + hi) 1 0 1).1 with ((lo + hi) / 2)%nat;
    pose proof (Nat.div_mod_eq (lo + hi) 2);
    pose proof (Nat.mod_upper_bound (lo + hi) 2); lia.
Qed.

Definition bisect (a : list Q) (x : Q) : result nat :=
  bisect_loop a x 0 (length a).

Section Sampler.
Context {F : FloatArith}.

(** The first loop of [_weighted_selection]: the running totals, the
    items, and the total weight, which starts as the float [0.0].
    [accumulate_step] is its body. *)
Definition accumulate_step {A} (acc : list Q * list A * Q) (wi : Q * A)
  : list Q * list A * Q :=
  let '(cuml, items, total_weight) := acc in
  let '(weight, item) := wi in
  let total_weight := fadd total_weight weight in
  (cuml ++ [total_weight], items ++ [item], total_weight).

Definition accumulate {A} (l : list (Q * A)) : list Q * list A * Q :=
  foldl accumulate_step ([], [], 0%Q) l.

Definition total_weight {A} (l : list (Q * A)) : Q := (accumulate l).2.

(** One element of the comprehension:
    [items[bisect.bisect(cuml, random.random()*total_weight)]]. *)
Definition pick {A} (cuml : list Q) (items : list A) (total_weight : Q) : Rand A :=
  u ← random;
  i ← lift (bisect cuml (fmul u total_weight));
  lift (Py.getitem items (Z.of_nat i)).

Definition _weighted_selection {A} (l : list (Q * A)) (n : Z) : Rand (list A) :=
  let '(cuml, items, total_weight) := accumulate l in
  repeatM (Z.to_nat n) (pick cuml items total_weight).

(** ** [Genome.get_random_sequences] *)

Definition len (s : string) : Z := Z.of_nat (String.length s).

(** [self[chrom]]. *)
Definition genome_item (g : Genome) (chrom : string) : result string :=
  match genome_get g chrom with
  | Some bases => Ok bases
  | None => Raise (KeyError chrom)
  end.

(** [dict(pairs)]: a later pair replaces an earlier one with its key. *)
Definition dict (pairs : list (string * Z)) : gmap string Z :=
  foldl (λ m kv, <[kv.1 := kv.2]> m) ∅ pairs.

(** [d[k]]. *)
Definition dict_item (d : gmap string Z) (k : string) : result Z :=
  match d !! k with
  | Some v => Ok v
  | None => Raise (KeyError k)
  end.

(** One attempt of the retry loop on a chromosome for the draw [u]: the
    window and the number of its N, in either case. The slice of the record
    is read as a slice of a Python string; the properties below concern
    windows that lie inside the chromosome. *)
Definition attempt (bases : string) (size length : Z) (u : Q) : Z * Z * Z :=
  let start := Py.trunc (fmul u (inject_Z (size - length))) in
  let end_ := start + length in
  (start, end_, Py.count "N" (Py.upper (Py.slice bases start end_))).

Definition within (count_n : Z) (cutoff : Q) : bool :=
  Qle_bool (inject_Z count_n) cutoff.

(** [for i in range(retries): ...; if count_n <= cutoff: break]: the values
    of [start], [end] and [count_n] when the loop is left. *)
Fixpoint retry (g : Genome) (sizes : gmap string Z) (length : Z) (cutoff : Q)
    (chrom : string) (retries : nat) (last : option (Z * Z * Z))
  : Rand (option (Z * Z * Z)) :=
  match retries with
  | O => mret last
  | S retries' =>
      u ← random;
      size ← lift (dict_item sizes chrom);
      bases ← lift (genome_item g chrom);
      let '(start, end_, count_n) := attempt bases size length u in
      if within count_n cutoff then mret (Some (start, end_, count_n))
      else retry g sizes length cutoff chrom retries' (Some (start, end_, count_n))
  end.

Definition exhausted_error : exn := ValueError "Failed to find suitable non-N sequence".

(** The loop over the selected chromosomes, which appends to [coords].
    [start], [end] and [count_n] are variables of the function: [last] is
    what an earlier chromosome left in them, nothing before the first. *)
Fixpoint sample (g : Genome) (sizes : gmap string Z) (length : Z) (cutoff : Q)
    (retries : nat) (chroms : list string) (last : option (Z * Z * Z))
    (coords : list (string * Z * Z)) : Rand (list (string * Z * Z)) :=
  match chroms with
  | [] => mret coords
  | chrom :: chroms' =>
      last ← retry g sizes length cutoff chrom retries last;
      match last with
      | None => lift (Raise NameError)
      | Some (start, end_, count_n) =>
          if within count_n cutoff then
            sample g sizes length cutoff retries chroms' last
              (coords ++ [(chrom, start, end_)])%list
          else lift (Raise exhausted_error)
      end
  end.

(** [chroms] after [if not chroms: chroms = self.keys()]. *)
Definition requested (g : Genome) (chroms : option (list string)) : list string :=
  match chroms with
  | None | Some [] => genome_keys g
  | Some cs => cs
  end.

(** [sizes], the dictionary of the lengths of the requested chromosomes. *)
Definition chrom_sizes (g : Genome) (chroms : list string) : result (gmap string Z) :=
  pairs ← mapM (λ chrom, bases ← genome_item g chrom; Ok (chrom, len bases)) chroms;
  Ok (dict pairs).

(** [l], the weighted list of the chromosomes longer than the window. *)
Definition eligible (sizes : gmap string Z) (chroms : list string) (length : Z)
  : result (list (Q * string)) :=
  omap id <$>
    mapM (λ x, size ← dict_item sizes x;
               if length <? size then
                 size ← dict_item sizes x; Ok (Some (inject_Z size, x))
               else Ok None) chroms.

(** The chromosomes drawn by [_weighted_selection], with [sizes]. *)
Definition select (g : Genome) (n length : Z) (chroms : option (list string))
  : Rand (gmap string Z * list string) :=
  let chroms := requested g chroms in
  sizes ← lift (chrom_sizes g chroms);
  l ← lift (eligible sizes chroms length);
  chroms ← _weighted_selection l n;
  mret (sizes, chroms).

Definition get_random_sequences (g : Genome) (n length : Z)
    (chroms : option (list string)) (max_n : Q) : Rand (list (string * Z * Z)) :=
  let retries := 50%nat in
  let cutoff := fmul (inject_Z length) max_n in
  '(sizes, chroms) ← select g n length chroms;
  sample g sizes length cutoff retries chroms None [].

(** A window of [chrom] as an attempt of the retry loop computes it from
    one of the numbers [d] of the generator. *)
Definition attempted (g : Genome) (sizes : gmap string Z) (length : Z)
    (d : nat → Q) (chrom : string) (w : option (Z * Z * Z)) : Prop :=
  ∃ bases size i,
    genome_get g chrom = Some bases ∧ sizes !! chrom = Some size ∧
    w = Some (attempt bases size length (d i)).

(** The scaled draws from which the starts of the windows are taken lie
    between 0 and the number of starts of the chromosome, as the products of
    a float of [0, 1) and the positive integer [len - length] do. *)
Definition products_in_range (g : Genome) (length : Z) (d : nat → Q) : Prop :=
  ∀ i chrom bases,
    genome_get g chrom = Some bases → length < len bases →
    (0 <= fmul (d i) (inject_Z (len bases - length)))%Q ∧
    (fmul (d i) (inject_Z (len bases - length)) <= inject_Z (len bases - length))%Q.

(** The running totals of [_weighted_selection] do not decrease from one
    item to the next, as sums of floats that are not negative do not. *)
Definition nondecreasing_totals {A} (l : list (Q * A)) : Prop :=
  ∀ k wx, l !! k = Some wx →
    (total_weight (take k l) <= total_weight (take (S k) l))%Q.

End Sampler.

(** ** Statements of the specification that are compared with the code *)

(** A region candidate (chromosome, start, end): a window of the given
    length inside a chromosome of the genome whose count of N, taken without
    regard to case, is at most [cutoff]. *)
Definition within_budget (g : Genome) (length : Z) (cutoff : Q)
    (c : string * Z * Z) : Prop :=
  ∃ bases,
    genome_get g c.1.1 = Some bases ∧
    0 ≤ c.1.2 < c.2 ∧ c.2 = c.1.2 + length ∧ c.2 ≤ len bases ∧
    (inject_Z (Py.count "N" (Py.upper (Py.slice bases c.1.2 c.2))) <= cutoff)%Q.

(** All the attempts of the retry loop on [chrom] from the state [r] of the
    generator are over the budget. *)
Definition exhausted {F : FloatArith} (g : Genome) (length : Z) (cutoff : Q)
    (retries : nat) (chrom : string) (r : rng) : Prop :=
  ∃ bases,
    genome_get g chrom = Some bases ∧
    ∀ i, (i < retries)%nat →
      within (attempt bases (len bases) length (draws r (pos r + i))).2 cutoff = false.


(** The span that the specification describes for a reverse-complemented
    extraction: the start of the first and the end of the last chunk of the
    reversed stitching order. *)
Definition spec_reversed_span (chunks : list Sequence) : option (option Z * option Z) :=
  first ← head (reverse chunks);
  last ← last (reverse chunks);
  Some (start first, end_ last).

Definition span (s : Sequence) : option Z * option Z := (start s, end_ s).

(** The coordinate fix of section 4.1, step 5, on one interval. *)
Definition spec_adjust (reverse : bool) (iv : Z * Z) : Z * Z :=
  if reverse then (iv.1 + 1, iv.2) else (iv.1, iv.2 - 1).

(** The extension of section 4.1, step 6, on the intervals of a record:
    [extend_up] moves the 5' boundary and [extend_down] the 3' boundary,
    which are the first start and the last end on the forward strand and the
    last end and the first start on the reverse strand. *)
Definition spec_extend (reverse : bool) (extend_up extend_down : Z)
    (intervals : list (Z * Z)) : list (Z * Z) :=
  let to_start := if reverse then extend_down else extend_up in
  let to_end := if reverse then extend_up else extend_down in
  alter (λ iv, (iv.1 - to_start, iv.2)) 0%nat
    (alter (λ iv, (iv.1, iv.2 + to_end)) (pred (length intervals)) intervals).

(** A string without a newline in it. *)
Fixpoint no_newline (s : string) : bool :=
  match s with
  | EmptyString => true
  | String c s' => negb (Ascii.eqb c "010") && no_newline s'
  end.

(** ** Inputs used as examples *)

Definition example_genome : Genome :=
  [("chr1", "ACGTTGCAAACCGGTTACGTACGTNNNNACGT"); ("chr2", "NNNNNNNNNNNN")].

(** A line of BED text with the given fields. *)
Definition bed_text (vals : list string) : string := Py.join_with Py.tab vals +:+ Py.nl.

Definition bed3_line : string := bed_text ["chr1"; "10"; "20"].

(** A generator that returns 1/2 and 19/20 in turn. *)
Definition example_rng : rng :=
  mkRng (λ i, if Nat.even i then (1 # 2)%Q else (19 # 20)%Q) 0.

Definition example_weights : list (Q * string) :=
  [(inject_Z 1000, "A"); (inject_Z 100, "B")].

Definition region_lines : list string := ["chr1:0-5"; "chr1:10-15"].

Definition example_fs : filesystem :=
  {[ "regions.txt" := "chr1:0-5" +:+ Py.nl +:+ "chr1:10-15" +:+ Py.nl;
     "genes.bed" := bed3_line +:+ "chr1:10-15" +:+ Py.nl ]}.

Definition bed12_line : string :=
  bed_text ["chr1"; "100"; "120"; "tx1"; "0"; "-"; "100"; "120"; "0"; "2"; "5,5,"; "0,10,"].

(** ** Definitions for the further properties *)

(** The twelve fields of [bed12_line] without the commas that end the
    block lists, and with the strand set to "+". *)
Definition bed12_open_line : string :=
  bed_text ["chr1"; "100"; "120"; "tx1"; "0"; "-"; "100"; "120"; "0"; "2"; "5,5"; "0,10"].

Definition bed12_plus_line : string :=
  bed_text ["chr1"; "100"; "120"; "tx1"; "0"; "+"; "100"; "120"; "0"; "2"; "5,5,"; "0,10,"].

(** The text that the loop of [track2fasta] writes for a list of records:
    the FASTA text of each, followed by a newline. *)
Definition render (seqs : list Sequence) : string :=
  Py.join ((λ s, fasta_repr s +:+ Py.nl) <$> seqs).

(** The records that a generator yields before its first exception. *)
(** Floats for the examples with rounding: the float that [0.3] denotes,
    the float that [0.9090909090909091] denotes, a generator of floats that
    returns 1/2 and 7/8 in turn, one that returns the second float, and a
    chromosome whose only window of 10 bases has 3 N. *)
Definition float_0_3 : Q := (5404319552844595 # 18014398509481984)%Q.

Definition float_0_909 : Q := (8188362958855447 # 9007199254740992)%Q.

Definition float_rng : rng :=
  mkRng (λ i, if Nat.even i then (1 # 2)%Q else (7 # 8)%Q) 0.

Definition tie_rng : rng := mkRng (λ _, float_0_909) 0.

Definition n3_genome : Genome := [("c", "NNNAAAAAAAA")].

Fixpoint yielded {A} (gen : list (result A)) : list A :=
  match gen with
  | Ok a :: gen' => a :: yielded gen'
  | _ => []
  end.

Definition bed12_single_line : string :=
  bed_text ["chr1"; "100"; "120"; "tx1"; "0"; "+"; "100"; "120"; "0"; "1"; "20"; "0"].

(** ** Installed genomes: [_is_genome_dir], [list_installed_genomes] and
    [Genome.__init__] *)

Module Os.

(** [s.endswith(c)] for one character. *)
Definition endswith (c : ascii) (s : string) : bool :=
  match last (Py.chars s) with
  | Some x => Ascii.eqb x c
  | None => false
  end.

(** [os.path.join] of POSIX: a part that starts with a slash replaces what
    came before it, and a slash is put between two parts unless the path so
    far is empty or ends with one. *)
Definition join2 (path b : string) : string :=
  if Py.startswith "/" b then b
  else if String.eqb path "" || endswith "/" path then path +:+ b
  else path +:+ "/" +:+ b.

Definition join (a : string) (p : list string) : string := foldl join2 a p.

End Os.

(** The exceptions of this part of the module: [norns.exceptions.ConfigError],
    the bare [Exception], a built-in exception, and whatever the file system
    and pyfaidx raise, which is left open. *)
Inductive setup_exn (ext : Type) : Type :=
| ConfigError (msg : string)
| Exception (msg : string)
| Builtin (e : exn)
| External (e : ext).
Arguments ConfigError {ext} msg.
Arguments Exception {ext} msg.
Arguments Builtin {ext} e.
Arguments External {ext} e.

Inductive setup (ext A : Type) : Type :=
| Done (a : A)
| Fail (e : setup_exn ext).
Arguments Done {ext A} a.
Arguments Fail {ext A} e.

(** The outcome of a call into the file system or pyfaidx. *)
Definition external {ext A} (x : ext + A) : setup ext A :=
  match x with
  | inl e => Fail (External e)
  | inr a => Done a
  end.

(** [if genome_dir]: [None] and the empty string are false. *)
Definition truthy (d : option string) : bool :=
  match d with
  | Some (String _ _) => true
  | _ => false
  end.

Definition no_genome_dir : string := "Please provide or configure a genome_dir".

Section Installed.

(** What lies outside the module: the exceptions of the calls below, the
    configured [genome_dir], the home directory that [os.path.expanduser]
    puts for a leading tilde, [os.path.exists], [glob.glob], [os.listdir]
    and [Fasta.__init__]. *)
Variable ext : Type.
Variable config_genome_dir : option string.
Variable home : string → string.
Variable exists_ : string → bool.
Variable glob : string → list string.
Variable listdir : string → ext + list string.
Variable Fasta : string → ext + Genome.

(** [os.path.expanduser]: a path without a leading tilde is returned as it
    is. *)
Definition expanduser (path : string) : string :=
  if Py.startswith "~" path then home path else path.

(** [genome_dir], or the configured one. *)
Definition chosen_dir (genome_dir : option string) : option string :=
  if truthy genome_dir then genome_dir else config_genome_dir.

Definition _is_genome_dir (dirname : string) : bool :=
  (0 <? length (glob (dirname +:+ "/*.fa")))%nat.

Definition list_installed_genomes (genome_dir : option string)
  : setup ext (list string) :=
  match chosen_dir genome_dir with
  | Some (String c d) =>
      let genome_dir := String c d in
      match listdir genome_dir with
      | inl e => Fail (External e)
      | inr names =>
          Done (filter (λ f, _is_genome_dir (genome_dir +:+ "/" +:+ f) = true) names)
      end
  | _ => Fail (ConfigError no_genome_dir)
  end.

(** [Genome.__init__]: the outcome of the call of [Fasta.__init__] that
    it ends with. *)
Definition Genome_init (name : string) (genome_dir : option string)
  : setup ext Genome :=
  match Fasta name with
  | inr g => Done g
  | inl _ =>
      match chosen_dir genome_dir with
      | Some (String c d) =>
          let genome_dir := expanduser (String c d) in
          if negb (exists_ genome_dir) then
            Fail (Builtin (FileNotFoundError
                             ("genome_dir " +:+ genome_dir +:+ " does not exist")))
          else
            let pattern := Os.join genome_dir [name; "*.fa"] in
            let fnames := glob pattern in
            match fnames with
            | [] =>
                Fail (Builtin (FileNotFoundError
                                 ("no *.fa files found in genome_dir "
                                  +:+ Os.join genome_dir [name])))
            | [fname] => external (Fasta fname)
            | _ =>
                let fname := Os.join genome_dir [name; name +:+ ".fa"] in
                if bool_decide (fname ∈ fnames) then external (Fasta fname)
                else Fail (Exception ("More than one FASTA file found, no "
                                      +:+ name +:+ ".fa!"))
            end
      | _ => Fail (ConfigError no_genome_dir)
      end
  end.

End Installed.

(** * Properties *)

(** ** The built-ins on examples *)

Example strip_ex : Py.strip "  chr1:1-2 " = "chr1:1-2".
Proof. reflexivity. Qed.

Example split_ex : Py.split "," "5,5," = ["5"; "5"; ""].
Proof. reflexivity. Qed.

Example split_fields_ex : fields bed3_line = ["chr1"; "10"; "20"].
Proof. reflexivity. Qed.

Example int_ex : Py.int " -42" = Ok (-42) ∧ Py.int "4x" = Raise Py.int_error.
Proof. split; reflexivity. Qed.

Example format_int_ex : Py.format_int 120 = "120" ∧ Py.format_int (-7) = "-7".
Proof. split; reflexivity. Qed.

Example slice_ex : Py.slice "ACGTACGT" 2 5 = "GTA" ∧ Py.slice "ACGT" (-3) 9 = "CGT".
Proof. split; reflexivity. Qed.

Example count_ex : Py.count "N" (Py.upper "anNA") = 2.
Proof. reflexivity. Qed.

Example trunc_ex : Py.trunc (133 # 5) = 26 ∧ Py.trunc (-7 # 2) = -3.
Proof. split; reflexivity. Qed.

Example readlines_ex :
  Py.readlines ("a" +:+ Py.nl +:+ "b") = ["a" +:+ Py.nl; "b"].
Proof. reflexivity. Qed.

Example region_p_search_ex :
  region_p_search "chr1:100-200" = true ∧
  region_p_search ("chr1:100-200" +:+ Py.nl) = true ∧
  region_p_search "a:b:1-2" = true ∧
  region_p_search ":1-2" = false ∧
  region_p_search "chr1:-1-2" = false ∧
  region_p_search "chr1:100-200 " = false.
Proof. repeat split; reflexivity. Qed.

Example bisect_ex :
  bisect [inject_Z 3; inject_Z 5; inject_Z 9] (inject_Z 5) = Ok 2%nat ∧
  bisect [inject_Z 3; inject_Z 5; inject_Z 9] (inject_Z 9) = Ok 3%nat.
Proof. split; reflexivity. Qed.

Example revcomp_ex : revcomp "AACGTN" = "NACGTT".
Proof. reflexivity. Qed.

(** ** The error monad *)

Lemma bind_Ok {A B} (f : A → result B) (a : A) : Ok a ≫= f = f a.
Proof. reflexivity. Qed.

Lemma bind_Raise {A B} (f : A → result B) (e : exn) : Raise e ≫= f = Raise e.
Proof. reflexivity. Qed.

Lemma mapM_cons {A B} (f : A → result B) (x : A) (l : list A) :
  mapM f (x :: l) = (y ← f x; k ← mapM f l; Ok (y :: k)).
Proof. reflexivity. Qed.

Lemma fmap_Ok {A B} (f : A → B) (a : A) : f <$> Ok a = Ok (f a).
Proof. reflexivity. Qed.

Section MapM.
Context {A B : Type} (f : A → result B).

Lemma mapM_Ok_Forall2 (l : list A) (k : list B) :
  mapM f l = Ok k → Forall2 (λ x y, f x = Ok y) l k.
Proof.
  revert k. induction l as [|x l IH]; intros k; cbn.
  - intros [= <-]. constructor.
  - destruct (f x) as [y|e] eqn:Hx; cbn; [|discriminate].
    destruct (mapM f l) as [k'|e] eqn:Hl; cbn; [|discriminate].
    intros [= <-]. constructor; auto.
Qed.

Lemma Forall2_mapM_Ok (l : list A) (k : list B) :
  Forall2 (λ x y, f x = Ok y) l k → mapM f l = Ok k.
Proof.
  induction 1 as [|x y l k Hx _ IH]; cbn; [done|].
  rewrite Hx. cbn. rewrite IH. done.
Qed.

Lemma mapM_Ok_total (l : list A) :
  (∀ x, x ∈ l → ∃ y, f x = Ok y) → ∃ k, mapM f l = Ok k.
Proof.
  induction l as [|x l IH]; intros H; cbn.
  - by eexists.
  - destruct (H x) as [y Hy]; [left|]. rewrite Hy. cbn.
    destruct IH as [k Hk]; [intros; apply H; by right|].
    rewrite Hk. by eexists.
Qed.

End MapM.

(** ** Lists and strings of Python *)

Lemma getitem_0 {A} (l : list A) :
  Py.getitem l 0 = match head l with Some x => Ok x | None => Raise IndexError end.
Proof. by destruct l. Qed.

Lemma getitem_neg1 {A} (l : list A) :
  Py.getitem l (-1) = match last l with Some x => Ok x | None => Raise IndexError end.
Proof.
  unfold Py.getitem. rewrite last_lookup.
  destruct l as [|x l]; [done|].
  change (-1 <? 0) with true. cbv iota.
  destruct (Z.ltb_spec (-1 + Z.of_nat (length (x :: l))) 0) as [Hlt|_].
  - cbn [length] in Hlt. lia.
  - replace (Z.to_nat (-1 + Z.of_nat (length (x :: l)))) with (pred (length (x :: l)))
      by (cbn [length]; lia).
    done.
Qed.

Lemma append_cons (c : ascii) (a b : string) : String c a +:+ b = String c (a +:+ b).
Proof. reflexivity. Qed.

Lemma append_empty_l (b : string) : "" +:+ b = b.
Proof. reflexivity. Qed.

Lemma chars_app (a b : string) : Py.chars (a +:+ b) = Py.chars a ++ Py.chars b.
Proof.
  unfold Py.chars. induction a as [|c a IH]; [done|].
  rewrite append_cons. cbn. by f_equal.
Qed.

Lemma str_app (l k : list ascii) : Py.str (l ++ k) = Py.str l +:+ Py.str k.
Proof.
  unfold Py.str. induction l as [|c l IH]; [done|].
  cbn. rewrite append_cons. by f_equal.
Qed.

Lemma str_chars (s : string) : Py.str (Py.chars s) = s.
Proof. apply string_of_list_ascii_of_string. Qed.

Lemma chars_str (l : list ascii) : Py.chars (Py.str l) = l.
Proof. apply list_ascii_of_string_of_list_ascii. Qed.

Lemma length_chars (s : string) : length (Py.chars s) = String.length s.
Proof. unfold Py.chars. induction s as [|c s IH]; cbn; [done|]. by f_equal. Qed.

Lemma length_str (l : list ascii) : String.length (Py.str l) = length l.
Proof. by rewrite <- length_chars, chars_str. Qed.

(** ** Reverse complement *)

Lemma revcomp_app (a b : string) : revcomp (a +:+ b) = revcomp b +:+ revcomp a.
Proof.
  unfold revcomp. by rewrite chars_app, reverse_app, fmap_app, str_app.
Qed.

Lemma revcomp_empty : revcomp "" = "".
Proof. done. Qed.

Lemma join_app (l k : list string) : Py.join (l ++ k) = Py.join l +:+ Py.join k.
Proof.
  induction l as [|s l IH]; [done|].
  change (Py.join ((s :: l) ++ k)) with (s +:+ Py.join (l ++ k)).
  change (Py.join (s :: l)) with (s +:+ Py.join l).
  rewrite IH. induction s as [|c s IHs]; [done|].
  rewrite !append_cons. by f_equal.
Qed.

Lemma append_empty_r (s : string) : s +:+ "" = s.
Proof. induction s as [|c s IH]; [done|]. rewrite append_cons. by f_equal. Qed.

Lemma revcomp_join (l : list string) :
  revcomp (Py.join l) = Py.join (revcomp <$> reverse l).
Proof.
  induction l as [|s l IH]; [done|].
  change (Py.join (s :: l)) with (s +:+ Py.join l).
  rewrite revcomp_app, IH, reverse_cons.
  rewrite fmap_app, join_app.
  change (Py.join (revcomp <$> [s])) with (revcomp s +:+ "").
  by rewrite append_empty_r.
Qed.

Lemma complement_base_involutive (c : ascii) :
  complement_base (complement_base c) = c.
Proof.
  destruct c as [[] [] [] [] [] [] [] []]; reflexivity.
Qed.

Lemma revcomp_involutive (s : string) : revcomp (revcomp s) = s.
Proof.
  unfold revcomp. rewrite chars_str, <- fmap_reverse, reverse_involutive.
  rewrite <- list_fmap_compose.
  rewrite (list_fmap_ext _ id (Py.chars s)).
  - by rewrite list_fmap_id, str_chars.
  - intros _ c _. apply complement_base_involutive.
Qed.

(** ** Spliced extraction *)

Section Spliced.
Variable fetch : string → Z → Z → result Sequence.

Lemma get_spliced_seq_chunks name intervals rc chunks first last_ :
  mapM (λ '(s, e), fetch name s e) intervals = Ok chunks →
  head chunks = Some first →
  last chunks = Some last_ →
  get_spliced_seq fetch name intervals rc =
    Ok (mkSequence name
          (if rc then Py.join ((λ chunk, seq (neg chunk)) <$> reverse chunks)
           else Py.join (seq <$> chunks))
          (start first) (end_ last_)).
Proof.
  intros Hm Hh Hl. unfold get_spliced_seq.
  rewrite Hm, bind_Ok, getitem_0, Hh, bind_Ok, getitem_neg1, Hl, bind_Ok. done.
Qed.

Lemma fetched_ends name intervals chunks i0 il :
  mapM (λ '(s, e), fetch name s e) intervals = Ok chunks →
  head intervals = Some i0 →
  last intervals = Some il →
  ∃ c0 cl, head chunks = Some c0 ∧ last chunks = Some cl ∧
           fetch name i0.1 i0.2 = Ok c0 ∧ fetch name il.1 il.2 = Ok cl.
Proof.
  intros Hm Hh Hl. apply mapM_Ok_Forall2 in Hm.
  rewrite head_lookup in Hh. rewrite last_lookup in Hl.
  destruct (Forall2_lookup_l _ _ _ _ _ Hm Hh) as (c0 & Hc0 & H0).
  destruct (Forall2_lookup_l _ _ _ _ _ Hm Hl) as (cl & Hcl & H1).
  exists c0, cl. rewrite head_lookup, last_lookup.
  rewrite <- (Forall2_length _ _ _ Hm).
  destruct i0, il. done.
Qed.

End Spliced.

(** C1, as amended: whatever [rc] is, when the interval list is not empty
    and every chunk is fetched, the span of the sequence that
    [get_spliced_seq] returns is the start of the chunk of the first given
    interval and the end of the chunk of the last given interval: the
    stitching order, reversed or not, plays no part in it. *)
Theorem get_spliced_seq_span_given_order
    (fetch : string → Z → Z → result Sequence) (name : string)
    (intervals : list (Z * Z)) (rc : bool) :
  intervals ≠ [] →
  (∀ iv, iv ∈ intervals → ∃ c, fetch name iv.1 iv.2 = Ok c) →
  ∃ s i0 il c0 cl,
    get_spliced_seq fetch name intervals rc = Ok s ∧
    head intervals = Some i0 ∧ last intervals = Some il ∧
    fetch name i0.1 i0.2 = Ok c0 ∧ fetch name il.1 il.2 = Ok cl ∧
    span s = (start c0, end_ cl).
Proof.
  intros Hne Hall.
  destruct (mapM_Ok_total (λ '(s, e), fetch name s e) intervals) as [chunks Hm].
  { intros [s e] Hin. apply (Hall _ Hin). }
  destruct intervals as [|i0 rest]; [done|].
  destruct (last (i0 :: rest)) as [il|] eqn:Hl.
  2:{ apply last_None in Hl. done. }
  destruct (fetched_ends fetch name _ chunks i0 il Hm eq_refl Hl)
    as (c0 & cl & Hc0 & Hcl & H0 & H1).
  eexists _, i0, il, c0, cl.
  rewrite (get_spliced_seq_chunks fetch name _ rc chunks c0 cl Hm Hc0 Hcl).
  done.
Qed.

Lemma get_spliced_seq_span_given_order_witness :
  ∃ s, get_spliced_seq (faidx_fetch example_genome) "chr1" [(0, 5); (10, 15)] true = Ok s
       ∧ span s = (Some 0, Some 15).
Proof.
  destruct (get_spliced_seq_span_given_order (faidx_fetch example_genome) "chr1"
              [(0, 5); (10, 15)] true)
    as (s & i0 & il & c0 & cl & Hs & Hi0 & Hil & Hc0 & Hcl & Hspan).
  - done.
  - intros iv Hin. unfold faidx_fetch. cbn. by eexists.
  - exists s. split; [done|].
    injection Hi0 as <-. injection Hil as <-.
    injection Hc0 as <-. injection Hcl as <-. exact Hspan.
Defined.

(** C1, as stated, fails: for the intervals (0,5), (10,15) of chr1 and
    [rc] true the returned span is (0, 15), while the first and last chunk
    of the reversed stitching order give (10, 5). *)
Lemma get_spliced_seq_span_not_reversed :
  ∃ s chunks,
    mapM (λ '(s, e), faidx_fetch example_genome "chr1" s e) [(0, 5); (10, 15)] = Ok chunks ∧
    get_spliced_seq (faidx_fetch example_genome) "chr1" [(0, 5); (10, 15)] true = Ok s ∧
    spec_reversed_span chunks = Some (Some 10, Some 5) ∧
    Some (span s) ≠ spec_reversed_span chunks.
Proof.
  eexists _, _. split; [reflexivity|]. split; [reflexivity|].
  split; [reflexivity|]. discriminate.
Qed.

(** C4: for a non-empty list of intervals whose chunks are all fetched,
    the sequence returned with [rc] true is the reverse complement of the
    sequence returned with [rc] false for the same intervals in the same
    order; name and span are the same. *)
Theorem get_spliced_seq_rc_is_revcomp
    (fetch : string → Z → Z → result Sequence) (chrom : string)
    (intervals : list (Z * Z)) :
  intervals ≠ [] →
  (∀ iv, iv ∈ intervals → ∃ c, fetch chrom iv.1 iv.2 = Ok c) →
  ∃ fwd bwd,
    get_spliced_seq fetch chrom intervals false = Ok fwd ∧
    get_spliced_seq fetch chrom intervals true = Ok bwd ∧
    seq bwd = revcomp (seq fwd) ∧
    name bwd = name fwd ∧ span bwd = span fwd.
Proof.
  intros Hne Hall.
  destruct (mapM_Ok_total (λ '(s, e), fetch chrom s e) intervals) as [chunks Hm].
  { intros [s e] Hin. apply (Hall _ Hin). }
  destruct intervals as [|i0 rest]; [done|].
  destruct (last (i0 :: rest)) as [il|] eqn:Hl.
  2:{ apply last_None in Hl. done. }
  destruct (fetched_ends fetch chrom _ chunks i0 il Hm eq_refl Hl)
    as (c0 & cl & Hc0 & Hcl & _ & _).
  eexists _, _.
  rewrite !(get_spliced_seq_chunks fetch chrom _ _ chunks c0 cl Hm Hc0 Hcl).
  repeat split. cbn [seq].
  rewrite revcomp_join, <- fmap_reverse, <- list_fmap_compose. done.
Qed.

Lemma get_spliced_seq_rc_is_revcomp_witness :
  ∃ fwd bwd,
    get_spliced_seq (faidx_fetch example_genome) "chr1" [(0, 5); (10, 15)] false = Ok fwd ∧
    get_spliced_seq (faidx_fetch example_genome) "chr1" [(0, 5); (10, 15)] true = Ok bwd ∧
    seq fwd = "ACGTTCCGGT" ∧ seq bwd = "ACCGGAACGT" ∧ seq bwd = revcomp (seq fwd).
Proof.
  destruct (get_spliced_seq_rc_is_revcomp (faidx_fetch example_genome) "chr1"
              [(0, 5); (10, 15)])
    as (fwd & bwd & Hf & Hb & Hs & _).
  - done.
  - intros iv Hin. unfold faidx_fetch. cbn. by eexists.
  - exists fwd, bwd. repeat split; try done.
    + vm_compute in Hf. by injection Hf as <-.
    + vm_compute in Hb. by injection Hb as <-.
Defined.

(** ** BED lines *)

Lemma zip_alter_l {A B} (f : A → A) (i : nat) (l : list A) (k : list B) :
  zip (alter f i l) k = alter (λ p, (f p.1, p.2)) i (zip l k).
Proof.
  revert i k. induction l as [|x l IH]; intros i k; [reflexivity|].
  destruct k as [|y k]; [by destruct i|].
  destruct i as [|i]; simpl; [reflexivity|]. f_equal. apply IH.
Qed.

Lemma zip_alter_r {A B} (g : B → B) (i : nat) (l : list A) (k : list B) :
  zip l (alter g i k) = alter (λ p, (p.1, g p.2)) i (zip l k).
Proof.
  revert i k. induction l as [|x l IH]; intros i k; [reflexivity|].
  destruct k as [|y k]; [by destruct i|].
  destruct i as [|i]; simpl; [reflexivity|]. f_equal. apply IH.
Qed.

Lemma zip_fmap_fst {A B} (f : A → A) (l : list A) (k : list B) :
  zip (f <$> l) k = (λ p, (f p.1, p.2)) <$> zip l k.
Proof.
  revert k. induction l as [|x l IH]; intros [|y k]; cbn; [done..|].
  f_equal. apply IH.
Qed.

Lemma zip_fmap_snd {A B} (g : B → B) (l : list A) (k : list B) :
  zip l (g <$> k) = (λ p, (p.1, g p.2)) <$> zip l k.
Proof.
  revert k. induction l as [|x l IH]; intros [|y k]; cbn; [done..|].
  f_equal. apply IH.
Qed.

Lemma alter_last {A} (g : A → A) (l : list A) (x : A) :
  alter g (length l) (l ++ [x]) = l ++ [g x].
Proof.
  induction l as [|y l IH]; [reflexivity|].
  change (alter g (length (y :: l)) ((y :: l) ++ [x]))
    with (y :: alter g (length l) (l ++ [x])).
  by rewrite IH.
Qed.

Lemma add_at_nil (i d : Z) : add_at [] i d = Raise IndexError.
Proof.
  unfold add_at, Py.getitem.
  by destruct (_ <? 0).
Qed.

Lemma add_at_first (x : Z) (l : list Z) (d : Z) : add_at (x :: l) 0 d = Ok ((x + d) :: l).
Proof. reflexivity. Qed.

Lemma add_at_last (l : list Z) (x d : Z) : add_at (l ++ [x]) (-1) d = Ok (l ++ [x + d]).
Proof.
  unfold add_at. rewrite getitem_neg1, last_snoc, bind_Ok.
  unfold Py.setitem. change (-1 <? 0) with true. cbv iota.
  rewrite length_app. cbn [length].
  replace (-1 + Z.of_nat (length l + 1)) with (Z.of_nat (length l)) by lia.
  destruct (Z.ltb_spec (Z.of_nat (length l)) 0); [lia|].
  destruct (Z.leb_spec (Z.of_nat (length l + 1)) (Z.of_nat (length l))); [lia|].
  cbn [orb]. rewrite Nat2Z.id, insert_app_r_alt, Nat.sub_diag by lia. done.
Qed.

(** The two steps of "extend" on lists that are not empty. *)
Lemma extend_nonempty (rc : bool) (up down s0 el : Z) (ss es : list Z) :
  extend rc up down (s0 :: ss) (es ++ [el]) =
    Ok ((s0 - (if rc then down else up)) :: ss,
        es ++ [el + (if rc then up else down)]).
Proof.
  unfold extend.
  destruct (Z.eqb_spec up 0) as [->|Hu], (Z.eqb_spec down 0) as [->|Hd], rc;
    rewrite ?add_at_last, ?add_at_first, ?bind_Ok; cbn [mbind result_bind];
    rewrite ?add_at_last, ?add_at_first, ?bind_Ok;
    repeat f_equal; lia.
Qed.

Lemma extend_zero (rc : bool) (starts ends : list Z) :
  extend rc 0 0 starts ends = Ok (starts, ends).
Proof. reflexivity. Qed.

(** The extension acts on the zipped intervals as the specification says,
    as long as no start is left without an end. *)
Lemma extend_spec (rc : bool) (up down : Z) (starts ends : list Z) :
  ends ≠ [] → (length ends ≤ length starts)%nat →
  ∃ starts' ends',
    extend rc up down starts ends = Ok (starts', ends') ∧
    zip starts' ends' = spec_extend rc up down (zip starts ends).
Proof.
  intros Hne Hlen.
  destruct starts as [|s0 ss]; [destruct ends; cbn in Hlen; [done|lia]|].
  destruct (decide (ends = [])) as [|_]; [done|].
  assert (∃ es el, ends = es ++ [el]) as (es & el & ->).
  { destruct (last ends) as [el|] eqn:Hl.
    - apply last_Some in Hl as [es ->]. by exists es, el.
    - by apply last_None in Hl. }
  rewrite extend_nonempty. eexists _, _. split; [done|].
  unfold spec_extend.
  rewrite length_zip, length_app in *. cbn [length] in *.
  replace (pred (S (length ss) `min` (length es + 1))) with (length es) by lia.
  rewrite <- (alter_last (λ e, e + (if rc then up else down)) es el).
  change ((s0 - (if rc then down else up)) :: ss)
    with (alter (λ s, s - (if rc then down else up)) 0%nat (s0 :: ss)).
  by rewrite zip_alter_l, zip_alter_r.
Qed.

Lemma extend_Ok_spec (rc : bool) (up down : Z) (starts ends starts' ends' : list Z) :
  (length ends ≤ length starts)%nat →
  extend rc up down starts ends = Ok (starts', ends') →
  zip starts' ends' = spec_extend rc up down (zip starts ends).
Proof.
  intros Hlen He. destruct ends as [|e0 es].
  - assert (ends' = []) as ->.
    { revert He. unfold extend.
      destruct (up =? 0), rc, (down =? 0), starts as [|s0 ss];
        repeat first [ rewrite add_at_nil | rewrite add_at_first
                     | rewrite bind_Ok | rewrite bind_Raise ];
        congruence. }
    rewrite !zip_with_nil_r. reflexivity.
  - destruct (extend_spec rc up down starts (e0 :: es)) as (s1 & e1 & He1 & Hz);
      [done..|].
    rewrite He in He1. by injection He1 as <- <-.
Qed.

Lemma half_open_fix_zip (rc : bool) (starts ends : list Z) :
  zip (half_open_fix rc starts ends).1 (half_open_fix rc starts ends).2
  = spec_adjust rc <$> zip starts ends.
Proof.
  unfold half_open_fix, spec_adjust. destruct rc; cbn [fst snd].
  - by rewrite zip_fmap_fst.
  - by rewrite zip_fmap_snd.
Qed.

Lemma half_open_fix_length (rc : bool) (starts ends : list Z) :
  length (half_open_fix rc starts ends).1 = length starts ∧
  length (half_open_fix rc starts ends).2 = length ends.
Proof. unfold half_open_fix. destruct rc; cbn [fst snd]; by rewrite length_fmap. Qed.

Lemma getitem_lookup {A} (l : list A) (n : nat) (x : A) :
  l !! n = Some x → Py.getitem l (Z.of_nat n) = Ok x.
Proof.
  intros H. unfold Py.getitem. cbv zeta.
  assert ((Z.of_nat n <? 0) = false) as Hn by (apply Z.ltb_ge; lia).
  rewrite Hn. cbv iota. by rewrite Hn, Nat2Z.id, H.
Qed.

Lemma bed_blocks_length (vals : list string) (S E : Z) (starts ends : list Z) :
  bed_blocks vals S E = Ok (starts, ends) → (length ends ≤ length starts)%nat.
Proof.
  unfold bed_blocks. destruct (length vals =? 12)%nat.
  - destruct (Py.getitem vals 11) as [v11|]; [|done]. rewrite bind_Ok.
    destruct (mapM _ _) as [bs|]; [|done]. rewrite bind_Ok.
    destruct (Py.getitem vals 10) as [v10|]; [|done]. rewrite bind_Ok.
    destruct (mapM _ _) as [szs|]; [|done]. rewrite bind_Ok.
    intros [= <- <-]. rewrite !length_fmap, length_zip, length_fmap. lia.
  - by intros [= <- <-].
Qed.

(** With twelve fields and the trailing commas, the blocks decode to one
    start and one end for each pair of block start and block size. *)
Lemma bed_blocks_bed12 (vals : list string) (S E : Z) (v10 v11 : string)
    (toks10 toks11 : list string) (sizes starts : list Z) :
  length vals = 12%nat →
  vals !! 10%nat = Some v10 → vals !! 11%nat = Some v11 →
  Py.split "," v10 = toks10 ++ [""] → Py.split "," v11 = toks11 ++ [""] →
  mapM Py.int toks10 = Ok sizes → mapM Py.int toks11 = Ok starts →
  ∃ sts ens,
    bed_blocks vals S E = Ok (sts, ens) ∧
    sts = (λ b, S + b) <$> starts ∧
    zip sts ens = (λ p, (S + p.1, S + p.1 + p.2)) <$> zip starts sizes.
Proof.
  intros Hlen H10 H11 Ht10 Ht11 Hs10 Hs11. unfold bed_blocks.
  rewrite Hlen. cbn [Nat.eqb]. 
  pose proof (getitem_lookup vals 11 v11 H11) as G11.
  pose proof (getitem_lookup vals 10 v10 H10) as G10.
  change (Z.of_nat 11) with 11 in G11. change (Z.of_nat 10) with 10 in G10.
  rewrite G11, bind_Ok, Ht11.
  unfold Py.but_last. rewrite removelast_last, Hs11, bind_Ok.
  rewrite G10, bind_Ok, Ht10.
  rewrite removelast_last, Hs10, bind_Ok.
  eexists _, _. split; [done|]. split; [done|].
  clear. revert sizes. induction starts as [|b bs IH]; intros [|z zs]; cbn; [done..|].
  f_equal. apply IH.
Qed.

Lemma bed_fixed_inv (line : string) (stranded : bool) (name chrom : string)
    (rc : bool) (starts ends : list Z) :
  bed_fixed line stranded = Ok (name, chrom, rc, starts, ends) →
  ∃ S E sts ens,
    bed_coords (fields line) = Ok (S, E) ∧
    rc = bed_strand (fields line) stranded ∧
    Py.getitem (fields line) 0 = Ok chrom ∧
    bed_blocks (fields line) S E = Ok (sts, ens) ∧
    name = bed_name_of (fields line) chrom S E ∧
    (starts, ends) = half_open_fix rc sts ens.
Proof.
  unfold bed_fixed.
  destruct (bed_coords (fields line)) as [[S E]|]; [|done]. rewrite bind_Ok.
  destruct (Py.getitem (fields line) 0) as [c|]; [|done]. rewrite bind_Ok.
  destruct (bed_blocks (fields line) S E) as [[sts ens]|] eqn:Hb; [|done].
  rewrite bind_Ok.
  destruct (half_open_fix _ sts ens) as [s1 e1] eqn:Hfix.
  intros [= <- <- <- <- <-]. exists S, E, sts, ens. by rewrite Hfix.
Qed.

Lemma bed_line_inv (line : string) (stranded : bool) (up down : Z) (r : bed_record) :
  bed_line line stranded up down = Ok r →
  ∃ starts ends starts' ends',
    bed_fixed line stranded = Ok (bed_name r, bed_chrom r, bed_rc r, starts, ends) ∧
    extend (bed_rc r) up down starts ends = Ok (starts', ends') ∧
    bed_intervals r = zip starts' ends'.
Proof.
  unfold bed_line.
  destruct (bed_fixed line stranded) as [[[[[n c] rc] starts] ends]|]; [|done].
  rewrite bind_Ok.
  destruct (extend rc up down starts ends) as [[s' e']|] eqn:He; [|done].
  rewrite bind_Ok. intros [= <-]. by exists starts, ends, s', e'.
Qed.

Lemma track2fasta_list {W : FileAccess} (fetch : string → Z → Z → result Sequence)
    (fs : filesystem) (t : track) (ty : track_type) (stranded : bool) (up down : Z) :
  get_track_type fs t = Ok ty →
  track2fasta fetch fs t None stranded up down
  = (Some <$> collect (seqqer fetch fs t ty stranded up down), fs).
Proof. intros H. unfold track2fasta. by rewrite H. Qed.

Lemma spec_extend_zero (rc : bool) (intervals : list (Z * Z)) :
  spec_extend rc 0 0 intervals = intervals.
Proof.
  unfold spec_extend. destruct rc; rewrite !list_alter_id; try done.
  all: intros [s e]; cbn; f_equal; lia.
Qed.

Lemma bed_line_intervals (line : string) (stranded : bool) (up down : Z) (r : bed_record) :
  bed_line line stranded up down = Ok r →
  ∃ S E sts ens,
    bed_coords (fields line) = Ok (S, E) ∧
    bed_blocks (fields line) S E = Ok (sts, ens) ∧
    bed_rc r = bed_strand (fields line) stranded ∧
    bed_intervals r = spec_extend (bed_rc r) up down (spec_adjust (bed_rc r) <$> zip sts ens).
Proof.
  intros Hr.
  destruct (bed_line_inv _ _ _ _ _ Hr) as (starts & ends & s' & e' & Hf & He & Hi).
  destruct (bed_fixed_inv _ _ _ _ _ _ _ Hf) as (S & E & sts & ens & Hc & Hrc & _ & Hb & _ & Hfix).
  exists S, E, sts, ens. repeat split; try done.
  rewrite Hi, <- half_open_fix_zip, <- Hfix. cbn [fst snd].
  apply extend_Ok_spec; [|done].
  pose proof (half_open_fix_length (bed_rc r) sts ens) as [H1 H2].
  rewrite <- Hfix in H1, H2. cbn [fst snd] in H1, H2. rewrite H1, H2.
  by eapply bed_blocks_length.
Qed.

(** Where the chromosome is long enough, the model of [fetch] returns as
    many bases as the range has positions. *)
Lemma pyfaidx_fetch_length (g : Genome) (chrom bases : string) (s e : Z) :
  genome_get g chrom = Some bases → 1 ≤ s ≤ e → e ≤ len bases →
  ∃ chunk, pyfaidx_fetch g chrom s e = Ok chunk ∧
           Z.of_nat (String.length (seq chunk)) = e - s + 1.
Proof.
  intros Hg Hse He. unfold pyfaidx_fetch. rewrite Hg.
  assert ((s <? 1) = false) as -> by (apply Z.ltb_ge; lia).
  eexists. split; [done|].
  cbn [seq]. rewrite length_str, length_drop, length_take, length_chars.
  unfold len in He. lia.
Qed.

(** The sequence of the BED3 line [chr1 10 20], read unstranded, is what
    the index returns for the interval (10, 19). *)
Lemma bed3_line_seq (fetch : string → Z → Z → result Sequence) (chunk : Sequence) :
  fetch "chr1" 10 19 = Ok chunk →
  bed_line_seq fetch false 0 0 bed3_line
  = Ok (mkSequence "chr1:10-20" (seq chunk) None None).
Proof.
  intros Hf.
  assert (bed_line bed3_line false 0 0 = Ok (mkBed "chr1:10-20" "chr1" [(10, 19)] false))
    as Hb by reflexivity.
  unfold bed_line_seq. rewrite Hb, bind_Ok. cbn [bed_chrom bed_intervals bed_rc bed_name].
  rewrite (get_spliced_seq_chunks _ "chr1" [(10, 19)] false [chunk] chunk chunk);
    [|cbn; by rewrite Hf|done|done].
  rewrite bind_Ok. cbn [seq fmap list_fmap].
  change (Py.join [seq chunk]) with (seq chunk +:+ ""). by rewrite append_empty_r.
Qed.

Section HalfOpenFix.
Context {W : FileAccess}.


End HalfOpenFix.



(** C3: for a line of twelve fields whose fields 10 and 11 end with a
    comma, the parser makes one interval for each block, in the order of the
    line, from the chromosome start [S] plus the block start to that start
    plus the block size; the record carries these intervals after the
    coordinate fix. *)
Theorem bed12_block_decoding (line : string) (stranded : bool) (S E : Z)
    (v10 v11 : string) (toks10 toks11 : list string) (sizes starts : list Z) :
  length (fields line) = 12%nat →
  bed_coords (fields line) = Ok (S, E) →
  fields line !! 10%nat = Some v10 → fields line !! 11%nat = Some v11 →
  Py.split "," v10 = toks10 ++ [""] → Py.split "," v11 = toks11 ++ [""] →
  mapM Py.int toks10 = Ok sizes → mapM Py.int toks11 = Ok starts →
  length starts = length sizes →
  let blocks := (λ p, (S + p.1, S + p.1 + p.2)) <$> zip starts sizes in
  length blocks = length starts ∧
  (∃ sts ens, bed_blocks (fields line) S E = Ok (sts, ens) ∧ zip sts ens = blocks) ∧
  (∃ r, bed_line line stranded 0 0 = Ok r ∧
        bed_intervals r = spec_adjust (bed_rc r) <$> blocks).
Proof.
  intros Hlen Hc H10 H11 Ht10 Ht11 Hs10 Hs11 Hsame blocks.
  destruct (bed_blocks_bed12 (fields line) S E v10 v11 toks10 toks11 sizes starts)
    as (sts & ens & Hb & _ & Hz); try done.
  split; [|split].
  - unfold blocks. rewrite length_fmap, length_zip. lia.
  - by exists sts, ens.
  - destruct (lookup_lt_is_Some_2 (fields line) 0) as [chrom H0]; [lia|].
    apply (getitem_lookup _ 0%nat) in H0. change (Z.of_nat 0) with 0 in H0.
    unfold bed_line, bed_fixed.
    rewrite Hc, bind_Ok, H0, bind_Ok, Hb, bind_Ok.
    destruct (half_open_fix _ sts ens) as [s1 e1] eqn:Hfix.
    rewrite bind_Ok. cbv beta iota. rewrite extend_zero, bind_Ok.
    eexists. split; [done|]. cbn [bed_intervals bed_rc].
    unfold blocks. rewrite <- Hz, <- half_open_fix_zip, Hfix. done.
Qed.

Lemma bed12_block_decoding_witness :
  bed_blocks (fields bed12_line) 100 120 = Ok ([100; 110], [105; 115]) ∧
  zip [100; 110] [105; 115] = [(100, 105); (110, 115)] ∧
  ∃ r, bed_line bed12_line false 0 0 = Ok r ∧
       bed_intervals r = [(100, 104); (110, 114)].
Proof.
  destruct (bed12_block_decoding bed12_line false 100 120 "5,5," "0,10,"
              ["5"; "5"] ["0"; "10"] [5; 5] [0; 10])
    as (_ & (sts & ens & Hb & Hz) & (r & Hr & Hi)); try reflexivity.
  split; [reflexivity|]. split; [reflexivity|].
  exists r. split; [exact Hr|].
  rewrite Hi. vm_compute in Hr. by injection Hr as <-.
Defined.

Lemma bed_fixed_length (line : string) (stranded : bool) (name chrom : string)
    (rc : bool) (starts ends : list Z) :
  bed_fixed line stranded = Ok (name, chrom, rc, starts, ends) →
  (length ends ≤ length starts)%nat.
Proof.
  intros Hf.
  destruct (bed_fixed_inv _ _ _ _ _ _ _ Hf) as (S & E & sts & ens & _ & _ & _ & Hb & _ & Hfix).
  pose proof (half_open_fix_length rc sts ens) as [H1 H2].
  rewrite <- Hfix in H1, H2. cbn [fst snd] in H1, H2. rewrite H1, H2.
  by eapply bed_blocks_length.
Qed.

Lemma region_coords_shift (region chrom : string) (s e up down : Z) :
  region_coords region 0 0 = Ok (chrom, s, e) →
  region_coords region up down = Ok (chrom, s - up, e + down).
Proof.
  unfold region_coords.
  destruct (Py.split ":" region) as [|a [|b [|? ?]]]; try discriminate.
  destruct (mapM Py.int (Py.split "-" b)) as [[|x [|y [|? ?]]]|];
    rewrite ?bind_Ok, ?bind_Raise; try discriminate.
  intros [= <- <- <-]. do 2 f_equal; [f_equal|]; lia.
Qed.

(** C5: the extension of a record of BED text changes the intervals that
    the line has without extension as follows: on the forward strand
    [extend_up] is subtracted from the first start and [extend_down] added to
    the last end; on the reverse strand [extend_up] is added to the last end
    and [extend_down] subtracted from the first start. For a region string
    the start is decreased by [extend_up] and the end increased by
    [extend_down], so that [chr1:100-200] with 5 and 3 asks for 95 to 203 of
    chr1. *)
Theorem extension_strand_aware (line : string) (stranded : bool) (up down : Z)
    (r0 : bed_record) (region chrom : string) (s e : Z) :
  bed_line line stranded 0 0 = Ok r0 → bed_intervals r0 ≠ [] →
  region_coords region 0 0 = Ok (chrom, s, e) →
  (∃ r, bed_line line stranded up down = Ok r ∧
        bed_name r = bed_name r0 ∧ bed_chrom r = bed_chrom r0 ∧
        bed_rc r = bed_rc r0 ∧
        bed_intervals r = spec_extend (bed_rc r0) up down (bed_intervals r0)) ∧
  region_coords region up down = Ok (chrom, s - up, e + down) ∧
  region_coords "chr1:100-200" 5 3 = Ok ("chr1", 95, 203).
Proof.
  intros Hr0 Hne Hreg. split; [|split]; [|by apply region_coords_shift|reflexivity].
  destruct (bed_line_inv _ _ _ _ _ Hr0) as (starts & ends & s0 & e0 & Hf & He & Hi).
  rewrite extend_zero in He. injection He as <- <-.
  destruct (extend_spec (bed_rc r0) up down starts ends) as (s1 & e1 & He1 & Hz).
  - intros ->. rewrite zip_with_nil_r in Hi. done.
  - by eapply bed_fixed_length.
  - unfold bed_line. rewrite Hf, bind_Ok, He1, bind_Ok.
    eexists. split; [done|]. cbn [bed_name bed_chrom bed_rc bed_intervals].
    by rewrite Hz, Hi.
Qed.

Lemma extension_strand_aware_witness :
  bed_line bed12_line false 5 3
    = Ok (mkBed "tx1" "chr1" [(95, 104); (110, 117)] false) ∧
  bed_line bed12_line true 5 3
    = Ok (mkBed "tx1" "chr1" [(98, 105); (111, 120)] true) ∧
  ∃ r, bed_line bed3_line true 5 3 = Ok r ∧ bed_intervals r = [(5, 22)].
Proof.
  destruct (extension_strand_aware bed3_line true 5 3
              (mkBed "chr1:10-20" "chr1" [(10, 19)] false) "chr1:100-200" "chr1" 100 200)
    as [(r & Hr & _ & _ & _ & Hi) _]; try reflexivity.
  - discriminate.
  - split; [reflexivity|]. split; [reflexivity|].
    exists r. split; [exact Hr|]. rewrite Hi. reflexivity.
Defined.

(** ** Detection of the type of a track *)

Lemma readlines_first (first rest : string) :
  no_newline first = true →
  Py.readlines (first +:+ Py.nl +:+ rest) = (first +:+ Py.nl) :: Py.readlines rest.
Proof.
  induction first as [|c first IH]; intros Hn; [reflexivity|].
  cbn [no_newline] in Hn. apply andb_prop in Hn as [Hc Hn].
  rewrite !append_cons. cbn [Py.readlines].
  destruct (Ascii.eqb c "010"); [discriminate|].
  by rewrite (IH Hn).
Qed.

Section TrackType.
Context {W : FileAccess}.

(** C9, as amended: the type of a track is decided by its first element
    or line alone. A list whose first element matches
    [chrom:integer-integer] is read whole as a list of region strings, and
    so is a file whose first line, stripped, matches; a file whose first line
    does not match is read whole as BED text. A list whose first element
    does not match is not read as BED text: the call raises [TypeError]. *)
Theorem track_type_by_first_record (fetch : string → Z → Z → result Sequence)
    (fs : filesystem) (stranded : bool) (up down : Z) :
  (∀ x rest, region_p_search x = true →
     get_track_type fs (TrackList (x :: rest)) = Ok Interval ∧
     track2fasta fetch fs (TrackList (x :: rest)) None stranded up down
     = (Some <$> collect (region_seq fetch up down <$> x :: rest), fs)) ∧
  (∀ x rest, region_p_search x = false →
     get_track_type fs (TrackList (x :: rest)) = Raise TypeError ∧
     track2fasta fetch fs (TrackList (x :: rest)) None stranded up down
     = (Raise TypeError, fs)) ∧
  (∀ p text, fs !! p = Some text →
     let line := Py.strip (Py.readline text) in
     get_track_type fs (TrackPath p)
     = Ok (if region_p_search line then Interval else Bed) ∧
     track2fasta fetch fs (TrackPath p) None stranded up down
     = (Some <$> collect
          (if region_p_search line
           then (λ l, region_seq fetch up down (Py.strip l)) <$> Py.readlines text
           else bed_line_seq fetch stranded up down
                  <$> filter (λ l, skipped l = false) (Py.readlines text)), fs)) ∧
  (∀ first rest, no_newline first = true →
     Py.readline (first +:+ Py.nl +:+ rest) = first +:+ Py.nl).
Proof.
  split; [|split; [|split]].
  - intros x rest Hx.
    assert (get_track_type fs (TrackList (x :: rest)) = Ok Interval) as Ht.
    { unfold get_track_type. rewrite getitem_0. cbn [head]. by rewrite bind_Ok, Hx. }
    split; [done|]. by rewrite (track2fasta_list _ _ _ _ _ _ _ Ht).
  - intros x rest Hx.
    assert (get_track_type fs (TrackList (x :: rest)) = Raise TypeError) as Ht.
    { unfold get_track_type. rewrite getitem_0. cbn [head]. by rewrite bind_Ok, Hx. }
    split; [done|]. unfold track2fasta. by rewrite Ht.
  - intros p text Hp line.
    assert (get_track_type fs (TrackPath p)
            = Ok (if region_p_search line then Interval else Bed)) as Ht.
    { unfold get_track_type, open. rewrite Hp, bind_Ok. fold line.
      by destruct (region_p_search line). }
    split; [done|]. rewrite (track2fasta_list _ _ _ _ _ _ _ Ht).
    unfold seqqer, _region_to_seqs, _bed_to_seqs, open. rewrite Hp.
    by destruct (region_p_search line).
  - intros first rest Hn. unfold Py.readline. by rewrite readlines_first.
Qed.

End TrackType.

Lemma track_type_by_first_record_witness :
  get_track_type example_fs (TrackList region_lines) = Ok Interval ∧
  get_track_type example_fs (TrackPath "regions.txt") = Ok Interval ∧
  get_track_type example_fs (TrackPath "genes.bed") = Ok Bed ∧
  (track2fasta (faidx_fetch example_genome) example_fs (TrackPath "genes.bed")
     None false 0 0).1 = Raise IndexError.
Proof.
  destruct (track_type_by_first_record (faidx_fetch example_genome) example_fs false 0 0)
    as (Hlist & _ & Hfile & _).
  destruct (Hlist "chr1:0-5" ["chr1:10-15"] eq_refl) as [Hl _].
  destruct (Hfile "regions.txt" _ eq_refl) as [Hr _].
  destruct (Hfile "genes.bed" _ eq_refl) as [Hb Hb2].
  split; [exact Hl|]. split; [exact Hr|]. split; [exact Hb|].
  rewrite Hb2. reflexivity.
Defined.

(** C9, as stated, fails: a list whose first element is a line of BED
    text is not read as BED text, [get_track_type] raises [TypeError]. *)
Lemma track_list_not_bed :
  region_p_search bed3_line = false ∧
  get_track_type example_fs (TrackList [bed3_line]) = Raise TypeError ∧
  get_track_type example_fs (TrackList [bed3_line]) ≠ Ok Bed ∧
  track2fasta (faidx_fetch example_genome) example_fs (TrackList [bed3_line])
    None false 0 0 = (Raise TypeError, example_fs).
Proof. repeat split; try reflexivity. discriminate. Qed.

(** ** Weighted selection *)

Lemma rand_bind_unfold {A B} (f : A → Rand B) (m : Rand A) (r : rng) :
  (m ≫= f) r = match m r with
               | (Ok a, r') => f a r'
               | (Raise e, r') => (Raise e, r')
               end.
Proof. reflexivity. Qed.

Lemma advance_advance (r : rng) (j k : nat) : advance (advance r j) k = advance r (j + k).
Proof. unfold advance. cbn. f_equal. lia. Qed.

Lemma advance_0 (r : rng) : advance r 0 = r.
Proof. destruct r. unfold advance. cbn. f_equal. lia. Qed.

(** The loop of [bisect] ends within [lo, hi], and it ends at [hi] only
    when the last element below [hi] is not above [x]. *)
Lemma bisect_loop_bounds (a : list Q) (x : Q) (lo hi : nat) :
  (lo ≤ hi ≤ length a)%nat →
  ∃ i, bisect_loop a x lo hi = Ok i ∧ (lo ≤ i ≤ hi)%nat ∧
       (i = hi → lo = hi ∨ ∃ am, a !! pred hi = Some am ∧ Qltb x am = false).
Proof.
  funelim (bisect_loop a x lo hi); intros Hb.
  - exists lo. split; [done|]. split; [lia|]. intros. left. lia.
  - pose proof (Nat.div_mod_eq (lo + hi) 2) as Hd.
    pose proof (Nat.mod_upper_bound (lo + hi) 2) as Hm.
    destruct (Qltb x am) eqn:Hx.
    + match goal with
      | IH : _ → ∃ i, bisect_loop a x lo _ = Ok i ∧ _ |- _ =>
          destruct IH as (i & Hi & Hr & _); [lia|]
      end.
      exists i. split; [done|]. split; [lia|]. intros ->. lia.
    + match goal with
      | IH : _ → ∃ i, bisect_loop a x _ hi = Ok i ∧ _ |- _ =>
          destruct IH as (i & Hi & Hr & Hend); [lia|]
      end.
      exists i. split; [done|]. split; [lia|]. intros ->. right.
      destruct (Hend eq_refl) as [Hmid|Hlast]; [|done].
      exists am. split; [|done].
      replace (pred hi) with ((lo + hi) / 2)%nat by lia. done.
  - pose proof (Nat.div_mod_eq (lo + hi) 2).
    pose proof (Nat.mod_upper_bound (lo + hi) 2).
    match goal with
    | Hn : a !! _ = None |- _ => apply lookup_ge_None in Hn
    end. lia.
Qed.

Lemma fmul_exact (a b : Q) : @fmul exact_arith a b = (a * b)%Q.
Proof. reflexivity. Qed.

Lemma fadd_exact (a b : Q) : @fadd exact_arith a b = (a + b)%Q.
Proof. reflexivity. Qed.

Section Accumulate.
Context {F : FloatArith}.

Lemma accumulate_from {A} (l : list (Q * A)) (c c' : list Q) (i i' : list A) (t t' : Q) :
  foldl accumulate_step (c, i, t) l = (c', i', t') →
  length c = length i →
  length c' = length i' ∧ i' = i ++ l.*2 ∧
  (last c = Some t ∨ l ≠ [] → last c' = Some t').
Proof.
  revert c i t. induction l as [|[w x] l IH]; intros c i t Hf Hlen.
  - injection Hf as <- <- <-. rewrite app_nil_r. 
    split; [done|]. split; [done|]. by intros [|].
  - cbn [foldl accumulate_step] in Hf.
    apply IH in Hf as (H1 & H2 & H3).
    + split; [done|]. split.
      * rewrite H2, <- app_assoc. done.
      * intros _. apply H3. left. apply last_snoc.
    + rewrite !length_app. cbn. lia.
Qed.

Lemma accumulate_spec {A} (l : list (Q * A)) :
  ∃ cuml, accumulate l = (cuml, l.*2, total_weight l) ∧
          length cuml = length l ∧
          (l ≠ [] → last cuml = Some (total_weight l)).
Proof.
  unfold total_weight.
  destruct (accumulate l) as [[c i] t] eqn:Ha. unfold accumulate in Ha.
  apply accumulate_from in Ha as (H1 & H2 & H3); [|done].
  cbn in H2. subst i. exists c. split; [done|].
  rewrite length_fmap in H1. split; [done|]. intros Hne. apply H3. by right.
Qed.

End Accumulate.

(** A value below the last running total is placed within the list. *)
Lemma bisect_below_last (a : list Q) (x total : Q) :
  last a = Some total → (x < total)%Q →
  ∃ i, bisect a x = Ok i ∧ (i < length a)%nat.
Proof.
  intros Hl Hx. unfold bisect.
  destruct (bisect_loop_bounds a x 0 (length a)) as (i & Hi & Hr & Hend); [lia|].
  exists i. split; [done|].
  destruct (decide (i = length a)) as [->|]; [|lia].
  destruct (Hend eq_refl) as [H0|(am & Ham & Hlt)].
  - symmetry in H0. apply length_zero_iff_nil in H0. by subst a.
  - rewrite <- last_lookup, Hl in Ham. injection Ham as <-.
    unfold Qltb in Hlt. apply negb_false_iff, Qle_bool_iff in Hlt. lra.
Qed.

Lemma repeatM_S {A} (n : nat) (m : Rand A) :
  repeatM (S n) m = (x ← m; xs ← repeatM n m; mret (x :: xs)).
Proof. reflexivity. Qed.


Lemma pick_within {A} (cuml : list Q) (items : list A) (total : Q) (r : rng) :
  last cuml = Some total → length cuml = length items →
  (0 < total)%Q → unit_draws r →
  ∃ x, pick cuml items total r = (Ok x, advance r 1) ∧ x ∈ items.
Proof.
  intros Hl Hlen Ht Hu. destruct (Hu (pos r)) as [H0 H1].
  destruct (bisect_below_last cuml (draws r (pos r) * total)%Q total Hl) as (i & Hi & Hlt);
    [nra|].
  destruct (lookup_lt_is_Some_2 items i) as [x Hx]; [lia|].
  exists x. split; [|by eapply list_elem_of_lookup_2].
  unfold pick. rewrite rand_bind_unfold. unfold random at 1. cbv iota beta.
  rewrite rand_bind_unfold. unfold lift at 1. rewrite fmul_exact, Hi. cbv iota beta.
  unfold lift. by rewrite (getitem_lookup items i x Hx).
Qed.

Lemma unit_draws_advance (r : rng) (k : nat) : unit_draws r → unit_draws (advance r k).
Proof. intros H i. apply H. Qed.

Lemma repeatM_pick {A} (cuml : list Q) (items : list A) (total : Q) (n : nat) (r : rng) :
  last cuml = Some total → length cuml = length items →
  (0 < total)%Q → unit_draws r →
  ∃ xs, repeatM n (pick cuml items total) r = (Ok xs, advance r n) ∧
        length xs = n ∧ ∀ x, x ∈ xs → x ∈ items.
Proof.
  intros Hl Hlen Ht. revert r. induction n as [|n IH]; intros r Hu.
  - exists []. rewrite advance_0. split; [done|]. split; [done|].
    intros x Hx. by apply elem_of_nil in Hx.
  - destruct (pick_within cuml items total r Hl Hlen Ht Hu) as (x & Hx & Hin).
    destruct (IH (advance r 1)) as (xs & Hxs & Hn & Hall).
    { by apply unit_draws_advance. }
    exists (x :: xs). rewrite repeatM_S, rand_bind_unfold, Hx.
    cbv iota beta. rewrite rand_bind_unfold, Hxs. cbv iota beta.
    rewrite advance_advance. split; [done|]. split; [cbn; lia|].
    intros y [->|Hy]%elem_of_cons; auto.
Qed.


Lemma example_rng_unit : unit_draws example_rng.
Proof. intros i. cbn. destruct (Nat.even i); split; lra. Qed.


(** ** Random windows *)

Lemma dict_from_lookup (pairs : list (string * Z)) (m : gmap string Z) (k : string) (v : Z) :
  foldl (λ m kv, <[kv.1 := kv.2]> m) m pairs !! k = Some v →
  (k, v) ∈ pairs ∨ m !! k = Some v.
Proof.
  revert m. induction pairs as [|[k' v'] pairs IH]; intros m H; [by right|].
  cbn [foldl] in H. apply IH in H as [H|H].
  - left. by right.
  - cbn [fst snd] in H. destruct (decide (k' = k)) as [->|Hne].
    + rewrite lookup_insert_eq in H. injection H as ->. left. by left.
    + rewrite lookup_insert_ne in H by done. by right.
Qed.

Lemma dict_from_is_Some (pairs : list (string * Z)) (m : gmap string Z) (k : string) :
  k ∈ pairs.*1 ∨ is_Some (m !! k) →
  is_Some (foldl (λ m kv, <[kv.1 := kv.2]> m) m pairs !! k).
Proof.
  revert m. induction pairs as [|[k' v'] pairs IH]; intros m H.
  - destruct H as [H|H]; [by apply elem_of_nil in H|done].
  - cbn [foldl]. apply IH. cbn [fst snd].
    destruct H as [[->|H]%elem_of_cons|H]; [| by left |].
    + right. rewrite lookup_insert_eq. by eexists.
    + right. destruct (decide (k' = k)) as [->|Hne].
      * rewrite lookup_insert_eq. by eexists.
      * by rewrite lookup_insert_ne.
Qed.

(** The dictionary [sizes] holds the length of every requested chromosome,
    and nothing else. *)
Lemma chrom_sizes_sound (g : Genome) (chroms : list string) (sizes : gmap string Z) :
  chrom_sizes g chroms = Ok sizes →
  (∀ c v, sizes !! c = Some v → ∃ bases, genome_get g c = Some bases ∧ v = len bases) ∧
  (∀ c, c ∈ chroms → is_Some (sizes !! c)).
Proof.
  unfold chrom_sizes.
  destruct (mapM _ chroms) as [pairs|] eqn:Hm; [|done].
  rewrite bind_Ok. intros [= <-]. apply mapM_Ok_Forall2 in Hm.
  assert (Forall2 (λ c p, ∃ bases, genome_get g c = Some bases ∧ p = (c, len bases))
            chroms pairs) as Hp.
  { eapply Forall2_impl; [exact Hm|]. intros c p. cbv beta.
    unfold genome_item. destruct (genome_get g c) as [b|]; [|done].
    rewrite bind_Ok. intros [= <-]. by exists b. }
  split.
  - intros c v Hc. apply dict_from_lookup in Hc as [Hc|Hc]; [|by rewrite lookup_empty in Hc].
    apply list_elem_of_lookup_1 in Hc as [i Hi].
    destruct (Forall2_lookup_r _ _ _ _ _ Hp Hi) as (c' & _ & b & Hb & Heq).
    injection Heq as -> ->. by exists b.
  - intros c Hc. apply dict_from_is_Some. left.
    apply list_elem_of_lookup_1 in Hc as [i Hi].
    destruct (Forall2_lookup_l _ _ _ _ _ Hp Hi) as (p & Hpi & b & _ & ->).
    apply list_elem_of_fmap. exists (c, len b). split; [done|].
    by eapply list_elem_of_lookup_2.
Qed.

Lemma chrom_sizes_total (g : Genome) (chroms : list string) :
  (∀ c, c ∈ chroms → is_Some (genome_get g c)) →
  ∃ sizes, chrom_sizes g chroms = Ok sizes.
Proof.
  intros H. unfold chrom_sizes.
  destruct (mapM_Ok_total
              (λ chrom, bases ← genome_item g chrom; Ok (chrom, len bases)) chroms)
    as [pairs Hp].
  - intros c Hc. destruct (H c Hc) as [b Hb]. unfold genome_item. rewrite Hb.
    by eexists.
  - rewrite Hp. by eexists.
Qed.

Lemma dict_item_Some (d : gmap string Z) (k : string) (v : Z) :
  d !! k = Some v → dict_item d k = Ok v.
Proof. intros H. unfold dict_item. by rewrite H. Qed.

Lemma dict_item_None (d : gmap string Z) (k : string) :
  d !! k = None → dict_item d k = Raise (KeyError k).
Proof. intros H. unfold dict_item. by rewrite H. Qed.

(** The weighted list holds requested chromosomes that are longer than
    the window, each with its length as weight. *)
Lemma eligible_sound (sizes : gmap string Z) (chroms : list string) (length : Z)
    (l : list (Q * string)) :
  eligible sizes chroms length = Ok l →
  ∀ w x, (w, x) ∈ l →
    x ∈ chroms ∧ ∃ v, sizes !! x = Some v ∧ length < v ∧ w = inject_Z v.
Proof.
  unfold eligible. revert l. induction chroms as [|c chroms IH]; intros l.
  - intros [= <-] w x H. by apply elem_of_nil in H.
  - rewrite mapM_cons.
    destruct (sizes !! c) as [v|] eqn:Hc.
    2:{ by rewrite (dict_item_None _ _ Hc), !bind_Raise. }
    rewrite (dict_item_Some _ _ _ Hc), bind_Ok.
    destruct (mapM _ chroms) as [k|] eqn:Hk.
    2:{ destruct (length <? v); rewrite ?bind_Ok, ?bind_Raise; done. }
    specialize (IH _ eq_refl).
    destruct (Z.ltb_spec length v) as [Hlt|Hge].
    + rewrite !bind_Ok, fmap_Ok. intros [= <-] w x.
      cbn [omap list_omap id]. intros [[= -> ->]|H]%elem_of_cons.
      * split; [by left|]. by exists v.
      * destruct (IH w x H) as [H1 H2]. split; [by right|done].
    + rewrite !bind_Ok, fmap_Ok. intros [= <-] w x H.
      destruct (IH w x H) as [H1 H2]. split; [by right|done].
Qed.

Lemma eligible_total (sizes : gmap string Z) (chroms : list string) (length : Z) :
  (∀ c, c ∈ chroms → is_Some (sizes !! c)) →
  ∃ l, eligible sizes chroms length = Ok l ∧
       ((∀ c v, c ∈ chroms → sizes !! c = Some v → v ≤ length) → l = []) ∧
       (∀ c v, c ∈ chroms → sizes !! c = Some v → length < v → (inject_Z v, c) ∈ l).
Proof.
  unfold eligible. induction chroms as [|c chroms IH]; intros H.
  - exists []. split; [done|]. split; [done|]. intros c v Hc. by apply elem_of_nil in Hc.
  - destruct IH as (l & Hl & Hnone & Hin); [intros; apply H; by right|].
    destruct (mapM _ chroms) as [k|] eqn:Hk; [|done]. injection Hl as <-.
    destruct (H c) as [v Hv]; [by left|].
    rewrite mapM_cons, Hk, (dict_item_Some _ _ _ Hv), bind_Ok.
    destruct (Z.ltb_spec length v) as [Hlt|Hge].
    + rewrite !bind_Ok, fmap_Ok. eexists. split; [done|].
      cbn [omap list_omap id]. split.
      * intros Hle. assert (v ≤ length) by (apply (Hle c); [by left|done]). lia.
      * intros c' v' [->|Hc']%elem_of_cons Hv' Hlt'.
        -- rewrite Hv in Hv'. injection Hv' as <-. by left.
        -- right. by eapply Hin.
    + rewrite !bind_Ok, fmap_Ok. eexists. split; [done|].
      cbn [omap list_omap id]. split.
      * intros Hle. apply Hnone. intros c' v' Hc'. apply Hle. by right.
      * intros c' v' [->|Hc']%elem_of_cons Hv' Hlt'.
        -- rewrite Hv in Hv'. injection Hv' as <-. lia.
        -- by eapply Hin.
Qed.

Section Selection.
Context {F : FloatArith}.

Lemma weighted_selection_empty {A} (n : Z) (r : rng) :
  1 ≤ n → _weighted_selection (@nil (Q * A)) n r = (Raise IndexError, advance r 1).
Proof.
  intros Hn. unfold _weighted_selection. cbn [accumulate foldl].
  destruct (Z.to_nat n) as [|k] eqn:Hk; [lia|].
  rewrite repeatM_S, rand_bind_unfold. reflexivity.
Qed.

Lemma weighted_selection_zero {A} (l : list (Q * A)) (n : Z) (r : rng) :
  n ≤ 0 → _weighted_selection l n r = (Ok [], r).
Proof.
  intros Hn. unfold _weighted_selection.
  destruct (accumulate l) as [[c i] t].
  replace (Z.to_nat n) with 0%nat by lia. reflexivity.
Qed.

Lemma select_unfold (g : Genome) (n length : Z) (chroms : option (list string))
    (sizes : gmap string Z) (l : list (Q * string)) (r : rng) :
  chrom_sizes g (requested g chroms) = Ok sizes →
  eligible sizes (requested g chroms) length = Ok l →
  select g n length chroms r =
    match _weighted_selection l n r with
    | (Ok sel, r') => (Ok (sizes, sel), r')
    | (Raise e, r') => (Raise e, r')
    end.
Proof.
  intros Hs Hl. unfold select. rewrite rand_bind_unfold, Hs. unfold lift at 1.
  cbv iota beta. rewrite rand_bind_unfold, Hl. unfold lift at 1. cbv iota beta.
  rewrite rand_bind_unfold. by destruct (_weighted_selection l n r) as [[sel|e] r'].
Qed.

Lemma get_random_sequences_unfold (g : Genome) (n length : Z)
    (chroms : option (list string)) (max_n : Q) (r : rng) :
  get_random_sequences g n length chroms max_n r =
    match select g n length chroms r with
    | (Ok (sizes, sel), r') =>
        sample g sizes length (fmul (inject_Z length) max_n) 50 sel None [] r'
    | (Raise e, r') => (Raise e, r')
    end.
Proof.
  unfold get_random_sequences. rewrite rand_bind_unfold.
  by destruct (select g n length chroms r) as [[[sizes sel]|e] r'].
Qed.

(** C8, as amended: when no requested chromosome is longer than the
    window and at least one window is asked for, [get_random_sequences]
    fails in [_weighted_selection], which indexes the empty list of items
    ([IndexError]); this is before the loop that samples windows, and the
    generator has given one number only, the one of the selection. *)
Theorem no_eligible_chromosome_fails (g : Genome) (n length : Z)
    (chroms : option (list string)) (max_n : Q) (r : rng) :
  (∀ c, c ∈ requested g chroms →
     ∃ bases, genome_get g c = Some bases ∧ len bases ≤ length) →
  1 ≤ n →
  ∃ sizes,
    chrom_sizes g (requested g chroms) = Ok sizes ∧
    eligible sizes (requested g chroms) length = Ok [] ∧
    select g n length chroms r = (Raise IndexError, advance r 1) ∧
    get_random_sequences g n length chroms max_n r = (Raise IndexError, advance r 1).
Proof.
  intros Hall Hn.
  destruct (chrom_sizes_total g (requested g chroms)) as [sizes Hs].
  { intros c Hc. destruct (Hall c Hc) as (b & Hb & _). by eexists. }
  destruct (chrom_sizes_sound _ _ _ Hs) as [Hsound Hdom].
  destruct (eligible_total sizes (requested g chroms) length Hdom) as (l & Hl & Hnone & _).
  rewrite Hnone in Hl.
  2:{ intros c v Hc Hv. destruct (Hall c Hc) as (b & Hb & Hle).
      destruct (Hsound c v Hv) as (b' & Hb' & ->). congruence. }
  assert (select g n length chroms r = (Raise IndexError, advance r 1)) as Hsel.
  { rewrite (select_unfold _ _ _ _ _ _ _ Hs Hl).
    by rewrite (weighted_selection_empty n r Hn). }
  exists sizes. split; [done|]. split; [done|]. split; [done|].
  by rewrite get_random_sequences_unfold, Hsel.
Qed.

End Selection.

Lemma no_eligible_chromosome_fails_witness :
  get_random_sequences example_genome 3 1000 None (1 # 10)%Q example_rng
  = (Raise IndexError, advance example_rng 1).
Proof.
  destruct (no_eligible_chromosome_fails example_genome 3 1000 None (1 # 10)%Q example_rng)
    as (sizes & _ & _ & _ & H).
  - intros c Hc. cbn in Hc.
    apply elem_of_cons in Hc as [->|Hc]; [eexists; split; [reflexivity|done]|].
    apply elem_of_cons in Hc as [->|Hc]; [eexists; split; [reflexivity|done]|].
    by apply elem_of_nil in Hc.
  - lia.
  - exact H.
Defined.

(** C8, as stated, fails: with no eligible chromosome and [n = 0] the call
    does not fail, it returns the empty list. *)
Lemma no_eligible_chromosome_zero_draws :
  requested example_genome None = ["chr1"; "chr2"] ∧
  chrom_sizes example_genome ["chr1"; "chr2"] = Ok (dict [("chr1", 32); ("chr2", 12)]) ∧
  eligible (dict [("chr1", 32); ("chr2", 12)]) ["chr1"; "chr2"] 1000 = Ok [] ∧
  get_random_sequences example_genome 0 1000 None (1 # 10)%Q example_rng
  = (Ok [], example_rng).
Proof. repeat split; reflexivity. Qed.

Lemma trunc_scaled (u : Q) (m : Z) :
  (0 <= u)%Q → (u < 1)%Q → 0 < m → 0 ≤ Py.trunc (u * inject_Z m) < m.
Proof.
  destruct u as [a d]. unfold Qle, Qlt, Py.trunc. cbn. intros H0 H1 Hm.
  rewrite Pos.mul_1_r.
  assert (0 ≤ a < Z.pos d) as [Ha Had] by lia.
  rewrite Z.quot_div_nonneg by nia. split.
  - apply Z.div_pos; nia.
  - apply Z.div_lt_upper_bound; nia.
Qed.

Lemma trunc_range (x : Q) (m : Z) :
  (0 <= x)%Q → (x <= inject_Z m)%Q → 0 ≤ Py.trunc x ≤ m.
Proof.
  destruct x as [a d]. unfold Qle, Py.trunc. cbn. intros H0 H1.
  rewrite Z.mul_1_r in H0. rewrite Z.quot_div_nonneg by lia. split.
  - apply Z.div_pos; lia.
  - apply Z.div_le_upper_bound; lia.
Qed.

Section Windows.
Context {F : FloatArith}.
Variables (g : Genome) (sizes : gmap string Z) (length : Z) (cutoff : Q).

Lemma retry_S (chrom : string) (k : nat) (last : option (Z * Z * Z)) (r : rng) :
  retry g sizes length cutoff chrom (S k) last r =
    match dict_item sizes chrom with
    | Raise e => (Raise e, advance r 1)
    | Ok size =>
        match genome_item g chrom with
        | Raise e => (Raise e, advance r 1)
        | Ok bases =>
            let w := attempt bases size length (draws r (pos r)) in
            if within w.2 cutoff then (Ok (Some w), advance r 1)
            else retry g sizes length cutoff chrom k (Some w) (advance r 1)
        end
    end.
Proof.
  cbn [retry]. rewrite rand_bind_unfold. unfold random at 1. cbv iota beta.
  rewrite rand_bind_unfold. unfold lift at 1.
  destruct (dict_item sizes chrom) as [size|e]; [|done]. cbv iota beta.
  rewrite rand_bind_unfold. unfold lift at 1.
  destruct (genome_item g chrom) as [bases|e]; [|done]. cbv iota beta zeta.
  destruct (attempt bases size length (draws r (pos r))) as [[s e] c]. cbn [snd].
  by destruct (within c cutoff).
Qed.

Lemma retry_draws (chrom : string) (k : nat) (last : option (Z * Z * Z))
    (res : result (option (Z * Z * Z))) (r r' : rng) :
  retry g sizes length cutoff chrom k last r = (res, r') → draws r' = draws r.
Proof.
  revert last r. induction k as [|k IH]; intros last r.
  - by intros [= <- <-].
  - rewrite retry_S.
    destruct (dict_item sizes chrom); [|by intros [= <- <-]].
    destruct (genome_item g chrom); [|by intros [= <- <-]].
    cbv zeta. destruct (within _ cutoff); [by intros [= <- <-]|].
    intros H. by apply IH in H.
Qed.

Lemma retry_attempted (chrom : string) (k : nat) (last res : option (Z * Z * Z))
    (r r' : rng) :
  retry g sizes length cutoff chrom k last r = (Ok res, r') →
  attempted g sizes length (draws r) chrom last ∨ (0 < k)%nat →
  attempted g sizes length (draws r) chrom res.
Proof.
  revert last r. induction k as [|k IH]; intros last r Hr Hk.
  - injection Hr as <- <-. destruct Hk as [|]; [done|lia].
  - rewrite retry_S in Hr. unfold dict_item, genome_item in Hr.
    destruct (sizes !! chrom) as [size|] eqn:Hsz; [|done].
    destruct (genome_get g chrom) as [bases|] eqn:Hb; [|done].
    cbv zeta in Hr.
    assert (attempted g sizes length (draws r) chrom
              (Some (attempt bases size length (draws r (pos r))))) as Ha.
    { by exists bases, size, (pos r). }
    destruct (within _ cutoff).
    + by injection Hr as <- <-.
    + exact (IH _ (advance r 1) Hr (or_introl Ha)).
Qed.

(** With at least one retry what the loop starts from plays no part. *)
Lemma retry_last_irrelevant (chrom : string) (k : nat) (last last' : option (Z * Z * Z))
    (r : rng) :
  retry g sizes length cutoff chrom (S k) last r
  = retry g sizes length cutoff chrom (S k) last' r.
Proof. by rewrite !retry_S. Qed.

Lemma sample_within_budget (k : nat) (chroms : list string) (last : option (Z * Z * Z))
    (coords res : list (string * Z * Z)) (r r' : rng) :
  products_in_range g length (draws r) → 0 < length →
  (∀ c, c ∈ chroms →
     ∃ bases, genome_get g c = Some bases ∧ sizes !! c = Some (len bases) ∧
              length < len bases) →
  sample g sizes length cutoff (S k) chroms last coords r = (Ok res, r') →
  Forall (within_budget g length cutoff) coords →
  Forall (within_budget g length cutoff) res ∧
  List.length res = (List.length coords + List.length chroms)%nat.
Proof.
  revert last coords r.
  induction chroms as [|chrom chroms IH]; intros last coords r Hu Hpos Hin Hs Hc.
  - injection Hs as <- <-. split; [done|]. cbn. lia.
  - cbn [sample] in Hs. rewrite rand_bind_unfold in Hs.
    destruct (retry g sizes length cutoff chrom (S k) last r) as [[w|e] r1] eqn:Hr; [|done].
    pose proof (retry_draws _ _ _ _ _ _ Hr) as Hd.
    pose proof (retry_attempted _ _ _ _ _ _ Hr)
      as (bases & size & i & Hb & Hsz & ->); [right; lia|].
    destruct (Hin chrom) as (bases' & Hb' & Hsz' & Hlt); [by left|].
    rewrite Hb in Hb'. injection Hb' as <-.
    rewrite Hsz in Hsz'. injection Hsz' as ->.
    unfold attempt in Hs. cbv zeta iota beta in Hs.
    destruct (within _ cutoff) eqn:Hw; [|done].
    apply IH in Hs as [H1 H2].
    + split; [done|]. rewrite H2, length_app. cbn. lia.
    + by rewrite Hd.
    + done.
    + intros c Hcin. apply Hin. by right.
    + apply Forall_app. split; [done|]. apply Forall_singleton.
      destruct (Hu i chrom bases Hb Hlt) as [Hlo Hhi].
      pose proof (trunc_range _ _ Hlo Hhi) as Ht.
      exists bases. cbn [fst snd]. split; [done|].
      split; [lia|]. split; [done|]. split; [lia|].
      by apply Qle_bool_iff.
Qed.

End Windows.

Section Selected.
Context {F : FloatArith}.

Lemma getitem_elem {A} (l : list A) (i : Z) (x : A) : Py.getitem l i = Ok x → x ∈ l.
Proof.
  unfold Py.getitem. cbv zeta. destruct (_ <? 0); [done|].
  destruct (l !! _) as [y|] eqn:Hy; [|done].
  intros [= <-]. by eapply list_elem_of_lookup_2.
Qed.

Lemma pick_elem {A} (cuml : list Q) (items : list A) (total : Q) (r r' : rng) (x : A) :
  pick cuml items total r = (Ok x, r') → x ∈ items.
Proof.
  unfold pick. rewrite rand_bind_unfold. unfold random at 1. cbv iota beta.
  rewrite rand_bind_unfold. unfold lift at 1.
  destruct (bisect cuml _) as [i|]; [|done]. cbv iota beta. unfold lift.
  destruct (Py.getitem items (Z.of_nat i)) as [y|] eqn:Hy; [|done].
  intros [= <- <-]. by eapply getitem_elem.
Qed.

Lemma repeatM_Ok {A} (m : Rand A) (P : A → Prop) (n : nat) (r r' : rng) (xs : list A) :
  (∀ r r' x, m r = (Ok x, r') → P x) →
  repeatM n m r = (Ok xs, r') → length xs = n ∧ Forall P xs.
Proof.
  intros Hm. revert r xs. induction n as [|n IH]; intros r xs.
  - by intros [= <- <-].
  - rewrite repeatM_S, rand_bind_unfold.
    destruct (m r) as [[x|e] r1] eqn:Hx; [|done].
    rewrite rand_bind_unfold.
    destruct (repeatM n m r1) as [[ys|e] r2] eqn:Hys; [|done].
    intros [= <- <-]. destruct (IH _ _ Hys) as [H1 H2].
    split; [cbn; lia|]. constructor; [by eapply Hm|done].
Qed.

Lemma weighted_selection_Ok {A} (l : list (Q * A)) (n : Z) (r r' : rng) (sel : list A) :
  _weighted_selection l n r = (Ok sel, r') →
  length sel = Z.to_nat n ∧ ∀ x, x ∈ sel → x ∈ l.*2.
Proof.
  unfold _weighted_selection.
  destruct (accumulate_spec l) as (cuml & Ha & _). rewrite Ha. intros H.
  eapply (repeatM_Ok _ (λ x, x ∈ l.*2)) in H as [H1 H2].
  - split; [done|]. by apply Forall_forall.
  - intros r0 r0' x. apply pick_elem.
Qed.

Lemma select_Ok (g : Genome) (n length : Z) (chroms : option (list string))
    (sizes : gmap string Z) (sel : list string) (r r' : rng) :
  select g n length chroms r = (Ok (sizes, sel), r') →
  List.length sel = Z.to_nat n ∧
  ∀ c, c ∈ sel →
    ∃ bases, genome_get g c = Some bases ∧ sizes !! c = Some (len bases) ∧
             length < len bases.
Proof.
  unfold select. rewrite rand_bind_unfold. unfold lift at 1.
  destruct (chrom_sizes g (requested g chroms)) as [sz|] eqn:Hs; [|done].
  cbv iota beta. rewrite rand_bind_unfold. unfold lift at 1.
  destruct (eligible sz (requested g chroms) length) as [l|] eqn:Hl; [|done].
  cbv iota beta. rewrite rand_bind_unfold.
  destruct (_weighted_selection l n r) as [[s|e] r1] eqn:Hw; [|done].
  intros [= <- <- <-]. apply weighted_selection_Ok in Hw as [H1 H2].
  split; [done|]. intros c Hc. apply H2 in Hc.
  apply list_elem_of_fmap in Hc as ([w c'] & -> & Hin).
  destruct (eligible_sound _ _ _ _ Hl _ _ Hin) as (_ & v & Hv & Hlt & _).
  destruct (chrom_sizes_sound _ _ _ Hs) as [Hsound _].
  destruct (Hsound _ _ Hv) as (bases & Hb & ->). by exists bases.
Qed.

Lemma repeatM_draws {A} (m : Rand A) (n : nat) (r r' : rng) (res : result (list A)) :
  (∀ r r' x, m r = (x, r') → draws r' = draws r) →
  repeatM n m r = (res, r') → draws r' = draws r.
Proof.
  intros Hm. revert r res. induction n as [|n IH]; intros r res.
  - by intros [= <- <-].
  - rewrite repeatM_S, rand_bind_unfold.
    destruct (m r) as [[x|e] r1] eqn:Hx.
    + rewrite rand_bind_unfold.
      destruct (repeatM n m r1) as [[ys|e] r2] eqn:Hys; intros [= <- <-];
        apply IH in Hys; apply Hm in Hx; congruence.
    + intros [= <- <-]. by apply Hm in Hx.
Qed.

Lemma pick_draws {A} (cuml : list Q) (items : list A) (total : Q) (r r' : rng)
    (x : result A) :
  pick cuml items total r = (x, r') → draws r' = draws r.
Proof.
  unfold pick. rewrite rand_bind_unfold. unfold random at 1. cbv iota beta.
  rewrite rand_bind_unfold. unfold lift at 1.
  destruct (bisect cuml _) as [i|]; [|by intros [= <- <-]]. cbv iota beta.
  unfold lift. by intros [= <- <-].
Qed.

Lemma select_draws (g : Genome) (n length : Z) (chroms : option (list string))
    (r r' : rng) (res : result (gmap string Z * list string)) :
  select g n length chroms r = (res, r') → draws r' = draws r.
Proof.
  unfold select. rewrite rand_bind_unfold. unfold lift at 1.
  destruct (chrom_sizes g (requested g chroms)) as [sz|]; [|by intros [= <- <-]].
  cbv iota beta. rewrite rand_bind_unfold. unfold lift at 1.
  destruct (eligible sz (requested g chroms) length) as [l|]; [|by intros [= <- <-]].
  cbv iota beta. rewrite rand_bind_unfold.
  destruct (_weighted_selection l n r) as [[s|e] r1] eqn:Hw; intros [= <- <-].
  all: unfold _weighted_selection in Hw; destruct (accumulate l) as [[c i] t];
    eapply repeatM_draws in Hw; [done|]; intros; by eapply pick_draws.
Qed.

(** C6: for a positive window length and a float product that takes the
    draws of [0, 1) into the range of the starts of each chromosome, every
    region candidate (chromosome, start, end) that a successful call of
    [get_random_sequences] returns is a window of the requested length
    inside a chromosome of the genome, and the number of N in its bases,
    counted without regard to case, is at most the cutoff [length * max_n]
    as the code computes it, which is the float product; there is one
    candidate for each of the [n] draws. *)
Theorem random_windows_within_budget (g : Genome) (n length : Z)
    (chroms : option (list string)) (max_n : Q) (r r' : rng)
    (coords : list (string * Z * Z)) :
  products_in_range g length (draws r) → 0 < length →
  get_random_sequences g n length chroms max_n r = (Ok coords, r') →
  Forall (within_budget g length (fmul (inject_Z length) max_n)) coords ∧
  List.length coords = Z.to_nat n.
Proof.
  intros Hu Hpos. rewrite get_random_sequences_unfold.
  destruct (select g n length chroms r) as [[[sizes sel]|e] r1] eqn:Hsel; [|done].
  intros Hs. pose proof (select_draws _ _ _ _ _ _ _ Hsel) as Hd.
  apply select_Ok in Hsel as [Hn Hin].
  apply sample_within_budget in Hs as [H1 H2]; try done.
  - split; [done|]. rewrite H2. cbn. lia.
  - by rewrite Hd.
Qed.

End Selected.

Lemma float_rng_draws (i : nat) :
  draws float_rng i = (1 # 2)%Q ∨ draws float_rng i = (7 # 8)%Q.
Proof. unfold float_rng. cbn [draws]. destruct (Nat.even i); auto. Qed.

Lemma random_windows_within_budget_witness :
  get_random_sequences (F := binary64) n3_genome 1 10 None float_0_3 float_rng
  = (Ok [("c", 0, 10)], advance float_rng 2) ∧
  Forall (within_budget n3_genome 10 (@fmul binary64 (inject_Z 10) float_0_3))
    [("c", 0, 10)] ∧
  (@fmul binary64 (inject_Z 10) float_0_3 == 3)%Q ∧
  (inject_Z 10 * float_0_3 < 3)%Q.
Proof.
  assert (get_random_sequences (F := binary64) n3_genome 1 10 None float_0_3 float_rng
          = (Ok [("c", 0, 10)], advance float_rng 2)) as H
    by (vm_compute; reflexivity).
  split; [exact H|]. split; [|split; [vm_compute; reflexivity|reflexivity]].
  refine (proj1 (random_windows_within_budget (F := binary64) _ _ _ _ _ _ _ _ _ _ H)).
  - intros i chrom bases Hb Hlt. unfold n3_genome, genome_get in Hb.
    destruct (String.eqb "c" chrom); [injection Hb as <-|done].
    destruct (float_rng_draws i) as [-> | ->]; vm_compute; split; discriminate.
  - lia.
Defined.

Section Exhaustion.
Context {F : FloatArith}.
Variables (g : Genome) (sizes : gmap string Z) (length : Z) (cutoff : Q).

Lemma retry_all_over (chrom bases : string) (k : nat) (w0 : Z * Z * Z) (r : rng) :
  genome_get g chrom = Some bases → sizes !! chrom = Some (len bases) →
  (∀ i, (i < k)%nat →
     within (attempt bases (len bases) length (draws r (pos r + i))).2 cutoff = false) →
  within w0.2 cutoff = false →
  ∃ w, retry g sizes length cutoff chrom k (Some w0) r = (Ok (Some w), advance r k) ∧
       within w.2 cutoff = false.
Proof.
  intros Hb Hs. revert w0 r. induction k as [|k IH]; intros w0 r Hall Hw0.
  - exists w0. by rewrite advance_0.
  - rewrite retry_S, (dict_item_Some _ _ _ Hs). unfold genome_item. rewrite Hb.
    cbv zeta. pose proof (Hall 0%nat) as H0. rewrite Nat.add_0_r in H0.
    rewrite H0 by lia.
    destruct (IH (attempt bases (len bases) length (draws r (pos r))) (advance r 1))
      as (w & Hw & Hover).
    + intros i Hi. cbn [advance draws pos].
      replace (pos r + 1 + i)%nat with (pos r + S i)%nat by lia. apply Hall. lia.
    + apply H0. lia.
    + exists w. rewrite Hw, advance_advance. done.
Qed.

Lemma sample_last_irrelevant (k : nat) (chroms : list string)
    (last last' : option (Z * Z * Z)) (coords : list (string * Z * Z)) (r : rng) :
  sample g sizes length cutoff (S k) chroms last coords r
  = sample g sizes length cutoff (S k) chroms last' coords r.
Proof.
  destruct chroms as [|c chroms]; [done|].
  cbn [sample]. by rewrite !rand_bind_unfold, (retry_last_irrelevant _ _ _ _ _ _ last last').
Qed.

Lemma sample_app (k : nat) (pre rest : list string) (last : option (Z * Z * Z))
    (coords : list (string * Z * Z)) (r : rng) :
  sample g sizes length cutoff (S k) (pre ++ rest) last coords r =
    match sample g sizes length cutoff (S k) pre last coords r with
    | (Ok cs, r') => sample g sizes length cutoff (S k) rest None cs r'
    | (Raise e, r') => (Raise e, r')
    end.
Proof.
  revert last coords r. induction pre as [|c pre IH]; intros last coords r.
  - cbn [app sample]. unfold mret, rand_ret. apply sample_last_irrelevant.
  - cbn [app sample]. rewrite !rand_bind_unfold.
    destruct (retry g sizes length cutoff c (S k) last r) as [[[[[s e] cnt]|]|?] r1]; try done.
    destruct (within cnt cutoff); [|done]. apply IH.
Qed.

Lemma sample_exhausted (k : nat) (chrom bases : string) (rest : list string)
    (last : option (Z * Z * Z)) (coords : list (string * Z * Z)) (r : rng) :
  genome_get g chrom = Some bases → sizes !! chrom = Some (len bases) →
  (∀ i, (i < S k)%nat →
     within (attempt bases (len bases) length (draws r (pos r + i))).2 cutoff = false) →
  sample g sizes length cutoff (S k) (chrom :: rest) last coords r
  = (Raise exhausted_error, advance r (S k)).
Proof.
  intros Hb Hs Hall. cbn [sample]. rewrite rand_bind_unfold, retry_S.
  rewrite (dict_item_Some _ _ _ Hs). unfold genome_item. rewrite Hb. cbv zeta.
  pose proof (Hall 0%nat) as H0. rewrite Nat.add_0_r in H0. rewrite H0 by lia.
  destruct (retry_all_over chrom bases k
              (attempt bases (len bases) length (draws r (pos r))) (advance r 1) Hb Hs)
    as ([[s e] cnt] & Hw & Hover).
  - intros i Hi. cbn [advance draws pos].
    replace (pos r + 1 + i)%nat with (pos r + S i)%nat by lia. apply Hall. lia.
  - apply H0. lia.
  - rewrite Hw, advance_advance. cbn [snd] in Hover. by rewrite Hover.
Qed.

End Exhaustion.

Section Exhausted.
Context {F : FloatArith}.

(** C7, as amended: when the selection has succeeded, the draws before one
    chromosome have given their windows, and all 50 attempts on that
    chromosome are over the cutoff [length * max_n] as the code computes
    it, which is the float product, [get_random_sequences] as a whole raises
    [ValueError] with the fixed message "Failed to find suitable non-N
    sequence", after these 50 draws; no later chromosome is tried and no
    list is returned. The message does not name the chromosome. *)
Theorem sampling_exhausted_aborts (g : Genome) (n length : Z)
    (chroms : option (list string)) (max_n : Q) (r r1 r2 : rng)
    (sizes : gmap string Z) (sel pre post : list string) (chrom : string)
    (cs : list (string * Z * Z)) :
  select g n length chroms r = (Ok (sizes, sel), r1) →
  sel = pre ++ chrom :: post →
  sample g sizes length (fmul (inject_Z length) max_n) 50 pre None [] r1 = (Ok cs, r2) →
  exhausted g length (fmul (inject_Z length) max_n) 50 chrom r2 →
  get_random_sequences g n length chroms max_n r
  = (Raise (ValueError "Failed to find suitable non-N sequence"), advance r2 50).
Proof.
  intros Hsel -> Hpre (bases & Hb & Hall).
  rewrite get_random_sequences_unfold, Hsel, sample_app, Hpre.
  destruct (select_Ok _ _ _ _ _ _ _ _ Hsel) as [_ Hin].
  destruct (Hin chrom) as (bases' & Hb' & Hs & _).
  { apply elem_of_app. right. by left. }
  rewrite Hb in Hb'. injection Hb' as <-.
  by apply (sample_exhausted g sizes length _ 49 chrom bases).
Qed.

End Exhausted.

Lemma sampling_exhausted_aborts_witness :
  get_random_sequences (F := binary64) example_genome 2 4 (Some ["chr2"]) (1 # 8)%Q
    float_rng
  = (Raise (ValueError "Failed to find suitable non-N sequence"), advance float_rng 52).
Proof.
  apply (sampling_exhausted_aborts (F := binary64) example_genome 2 4 (Some ["chr2"])
           (1 # 8)%Q float_rng (advance float_rng 2) (advance float_rng 2)
           (dict [("chr2", 12)]) ["chr2"; "chr2"] [] ["chr2"] "chr2" []).
  - vm_compute. reflexivity.
  - reflexivity.
  - reflexivity.
  - exists "NNNNNNNNNNNN". split; [reflexivity|]. intros i Hi.
    unfold float_rng, advance. cbn [draws pos].
    match goal with |- context [Nat.even ?x] => destruct (Nat.even x) end;
      vm_compute; reflexivity.
Defined.

(** C7, as stated, fails: the exception that ends the call on the
    all-N chromosome chr2 carries the fixed message, in which the name of
    the chromosome does not occur. *)
Lemma sampling_exhausted_does_not_name :
  ∃ e r',
    get_random_sequences (F := binary64) example_genome 1 4 (Some ["chr2"]) (1 # 8)%Q
      float_rng
    = (Raise e, r') ∧
    e = ValueError "Failed to find suitable non-N sequence" ∧
    Py.contains "chr2" (exn_message e) = false.
Proof.
  eexists _, _. split; [vm_compute; reflexivity|]. split; reflexivity.
Qed.

(** * Further properties of the code *)

(** ** The interval of an item in the weighted selection *)

Lemma Qltb_true (x y : Q) : Qltb x y = true ↔ (x < y)%Q.
Proof.
  unfold Qltb. rewrite negb_true_iff. split.
  - intros H. apply Qnot_le_lt. intros Hle. apply Qle_bool_iff in Hle. congruence.
  - intros H. destruct (Qle_bool y x) eqn:E; [|done].
    apply Qle_bool_iff in E. lra.
Qed.

Lemma Qltb_false (x y : Q) : Qltb x y = false ↔ (y <= x)%Q.
Proof.
  unfold Qltb. rewrite negb_false_iff. apply Qle_bool_iff.
Qed.

(** On running totals that do not decrease, the loop of [bisect] keeps
    what is not above [x] on its left and what is above [x] on its right. *)
Lemma bisect_loop_sorted (a : list Q) (x : Q) (lo hi : nat) :
  (∀ i j y z, (i ≤ j)%nat → a !! i = Some y → a !! j = Some z → (y <= z)%Q) →
  (lo ≤ hi ≤ length a)%nat →
  (∀ j y, (j < lo)%nat → a !! j = Some y → (y <= x)%Q) →
  (∀ j y, (hi ≤ j)%nat → a !! j = Some y → (x < y)%Q) →
  ∃ i, bisect_loop a x lo hi = Ok i ∧ (lo ≤ i ≤ hi)%nat ∧
       (∀ j y, (j < i)%nat → a !! j = Some y → (y <= x)%Q) ∧
       (∀ j y, (i ≤ j)%nat → a !! j = Some y → (x < y)%Q).
Proof.
  intros Hsorted. funelim (bisect_loop a x lo hi); intros Hb Hleft Hright.
  - exists lo. split; [done|]. split; [lia|]. split; [done|].
    intros j y Hj. apply Hright. lia.
  - pose proof (Nat.div_mod_eq (lo + hi) 2) as Hd.
    pose proof (Nat.mod_upper_bound (lo + hi) 2) as Hm.
    destruct (Qltb x am) eqn:Hx.
    + apply Qltb_true in Hx.
      match goal with
      | IH : _ → _ → _ → _ → ∃ i, bisect_loop a x lo _ = Ok i ∧ _ |- _ =>
          destruct IH as (i & Hi & Hr & Hl' & Hr'); [done|lia|done|..]
      end.
      { intros j y Hj Hy.
        assert (am <= y)%Q by (eapply (Hsorted _ j); [|done..]; lia). lra. }
      exists i. split; [done|]. split; [lia|]. done.
    + apply Qltb_false in Hx.
      match goal with
      | IH : _ → _ → _ → _ → ∃ i, bisect_loop a x _ hi = Ok i ∧ _ |- _ =>
          destruct IH as (i & Hi & Hr & Hl' & Hr'); [done|lia| |done|]
      end.
      { intros j y Hj Hy.
        assert (y <= am)%Q by (eapply (Hsorted j); [|done..]; lia). lra. }
      exists i. split; [done|]. split; [lia|]. done.
  - pose proof (Nat.div_mod_eq (lo + hi) 2).
    pose proof (Nat.mod_upper_bound (lo + hi) 2).
    match goal with
    | Hn : a !! _ = None |- _ => apply lookup_ge_None in Hn
    end. lia.
Qed.

Section Interval.
Context {F : FloatArith}.

Lemma accumulate_snoc {A} (l : list (Q * A)) (w : Q) (x : A) :
  accumulate (l ++ [(w, x)]) =
    ((accumulate l).1.1 ++ [fadd (total_weight l) w], (accumulate l).1.2 ++ [x],
     fadd (total_weight l) w).
Proof.
  unfold total_weight, accumulate. rewrite foldl_snoc.
  by destruct (foldl accumulate_step ([], [], 0%Q) l) as [[c i] t].
Qed.

Lemma total_weight_snoc {A} (l : list (Q * A)) (w : Q) (x : A) :
  total_weight (l ++ [(w, x)]) = fadd (total_weight l) w.
Proof. unfold total_weight at 1. by rewrite accumulate_snoc. Qed.

(** The running total at an index is the total weight of the items up to
    and including that index. *)
Lemma cuml_lookup {A} (l : list (Q * A)) (k : nat) (wx : Q * A) :
  l !! k = Some wx →
  (accumulate l).1.1 !! k = Some (total_weight (take (S k) l)).
Proof.
  revert k wx. induction l as [|[w x] l IH] using rev_ind; intros k wx Hk; [done|].
  rewrite accumulate_snoc. cbn [fst snd].
  destruct (accumulate_spec l) as (cuml & Ha & Hlen & _).
  rewrite Ha. cbn [fst snd].
  destruct (decide (k < length l)%nat) as [Hlt|Hge].
  - rewrite lookup_app_l in Hk by done.
    rewrite lookup_app_l by lia. rewrite take_app_le by lia.
    specialize (IH k wx Hk). by rewrite Ha in IH.
  - apply lookup_lt_Some in Hk as Hk'. rewrite length_app in Hk'. cbn in Hk'.
    assert (k = length l) as -> by lia.
    rewrite <- Hlen, list_lookup_middle by done. rewrite Hlen.
    replace (S (length l)) with (length (l ++ [(w, x)])) by (rewrite length_app; cbn; lia).
    by rewrite firstn_all, total_weight_snoc.
Qed.

Lemma totals_sorted {A} (l : list (Q * A)) (i j : nat) :
  nondecreasing_totals l → (i ≤ j)%nat → (j ≤ length l)%nat →
  (total_weight (take i l) <= total_weight (take j l))%Q.
Proof.
  intros Hl Hij. induction Hij as [|j Hij IH]; intros Hj; [apply Qle_refl|].
  destruct (lookup_lt_is_Some_2 l j) as [wx Hwx]; [lia|].
  eapply Qle_trans; [apply IH; lia|]. by apply (Hl j wx).
Qed.

Lemma cuml_nondecreasing {A} (l : list (Q * A)) (i j : nat) (y z : Q) :
  nondecreasing_totals l → (i ≤ j)%nat →
  (accumulate l).1.1 !! i = Some y → (accumulate l).1.1 !! j = Some z → (y <= z)%Q.
Proof.
  intros Hl Hij Hi Hj.
  destruct (accumulate_spec l) as (cuml & Ha & Hlen & _).
  rewrite Ha in Hi, Hj. cbn [fst snd] in Hi, Hj.
  apply lookup_lt_Some in Hi as Hi'. apply lookup_lt_Some in Hj as Hj'.
  destruct (lookup_lt_is_Some_2 l i) as [wi Hwi]; [lia|].
  destruct (lookup_lt_is_Some_2 l j) as [wj Hwj]; [lia|].
  pose proof (cuml_lookup l i wi Hwi) as Hci. pose proof (cuml_lookup l j wj Hwj) as Hcj.
  rewrite Ha in Hci, Hcj. cbn [fst snd] in Hci, Hcj.
  assert (y = total_weight (take (S i) l)) as -> by congruence.
  assert (z = total_weight (take (S j) l)) as -> by congruence.
  apply totals_sorted; [done|lia|lia].
Qed.

(** X1: when the running totals do not decrease and the scaled draw
    [u * total_weight], the float product, is not negative and is below the
    total weight, the item that [_weighted_selection] returns for the draw
    is the one whose interval of running totals holds the scaled draw: the
    total of the items before it is at most the scaled draw, which is below
    the total with the item added. An item that leaves the running total as
    it is, one of weight 0, is so never selected. *)
Theorem weighted_selection_interval {A} (l : list (Q * A)) (r : rng) :
  nondecreasing_totals l →
  (0 <= fmul (draws r (pos r)) (total_weight l))%Q →
  (fmul (draws r (pos r)) (total_weight l) < total_weight l)%Q →
  ∃ pre w item post,
    l = pre ++ (w, item) :: post ∧
    _weighted_selection l 1 r = (Ok [item], advance r 1) ∧
    (total_weight pre <= fmul (draws r (pos r)) (total_weight l))%Q ∧
    (fmul (draws r (pos r)) (total_weight l) < fadd (total_weight pre) w)%Q.
Proof.
  intros Hnn. set (x := fmul (draws r (pos r)) (total_weight l)). intros Hx0 Hx1.
  assert (l ≠ []) as Hne.
  { intros ->. change (total_weight (@nil (Q * A))) with 0%Q in Hx1. lra. }
  destruct (accumulate_spec l) as (cuml & Ha & Hlen & Hlast).
  specialize (Hlast Hne).
  assert (cuml = (accumulate l).1.1) as Hc by (by rewrite Ha).
  destruct (bisect_loop_sorted cuml x 0 (length cuml)) as (i & Hi & Hr & Hleft & Hright).
  { intros i j y z. rewrite Hc. by apply cuml_nondecreasing. }
  { lia. }
  { intros j y Hj. lia. }
  { intros j y Hj Hy. apply lookup_lt_Some in Hy. lia. }
  assert (i < length l)%nat as Hil.
  { destruct (decide (i = length cuml)) as [->|]; [|lia].
    rewrite last_lookup in Hlast.
    assert (total_weight l <= x)%Q; [|lra].
    apply (Hleft (pred (length cuml))); [|done].
    destruct cuml; [done|cbn; lia]. }
  destruct (lookup_lt_is_Some_2 l i Hil) as [[w item] Hwi].
  pose proof (cuml_lookup l i _ Hwi) as Hci. rewrite <- Hc in Hci.
  rewrite (take_S_r _ _ _ Hwi), total_weight_snoc in Hci.
  assert (total_weight (take i l) <= x)%Q as Hlow.
  { destruct i as [|i']; [by rewrite take_0|].
    destruct (lookup_lt_is_Some_2 l i') as [wx' Hwx']; [lia|].
    pose proof (cuml_lookup l i' _ Hwx') as Hci'. rewrite <- Hc in Hci'.
    apply (Hleft i'); [lia|done]. }
  assert (x < fadd (total_weight (take i l)) w)%Q as Hhigh by (by apply (Hright i)).
  exists (take i l), w, item, (drop (S i) l).
  split; [by rewrite take_drop_middle|]. split; [|split; done].
  unfold _weighted_selection. rewrite Ha. change (Z.to_nat 1) with 1%nat.
  rewrite repeatM_S, rand_bind_unfold.
  assert (pick cuml (l.*2) (total_weight l) r = (Ok item, advance r 1)) as ->.
  { unfold pick. rewrite rand_bind_unfold. unfold random at 1. cbv iota beta.
    rewrite rand_bind_unfold. unfold lift at 1. unfold bisect. fold x. rewrite Hi.
    cbv iota beta. unfold lift.
    rewrite (getitem_lookup (l.*2) i item); [done|].
    by rewrite list_lookup_fmap, Hwi. }
  reflexivity.
Qed.

End Interval.

Lemma weighted_selection_interval_witness :
  _weighted_selection (F := binary64) example_weights 1 tie_rng
  = (Ok ["B"], advance tie_rng 1) ∧
  (@fmul binary64 float_0_909 1100 == 1000)%Q ∧
  (float_0_909 * 1100 < 1000)%Q.
Proof.
  destruct (weighted_selection_interval (F := binary64) example_weights tie_rng)
    as (pre & w & item & post & Hl & Hs & _).
  - intros k wx Hk. destruct k as [|[|k]]; [vm_compute; discriminate..|discriminate Hk].
  - vm_compute. discriminate.
  - vm_compute. reflexivity.
  - split; [|split; [vm_compute; reflexivity|reflexivity]].
    rewrite Hs. vm_compute in Hs. by injection Hs as <-.
Defined.

Lemma total_weight_app_le {A} (l k : list (Q * A)) :
  Forall (λ wx, (0 <= wx.1)%Q) k → (total_weight l <= total_weight (l ++ k))%Q.
Proof.
  induction k as [|[w x] k IH] using rev_ind; intros Hk.
  - rewrite app_nil_r. lra.
  - apply Forall_app in Hk as [Hk Hw]. rewrite Forall_singleton in Hw. cbn in Hw.
    rewrite app_assoc, total_weight_snoc, fadd_exact. specialize (IH Hk). lra.
Qed.

(** ** Errors and edge cases of the sampler *)

Lemma mapM_Raise_first {A B} (f : A → result B) (pre post : list A) (x : A) (e : exn) :
  (∀ y, y ∈ pre → ∃ z, f y = Ok z) → f x = Raise e →
  mapM f (pre ++ x :: post) = Raise e.
Proof.
  intros Hpre Hx. induction pre as [|y pre IH]; cbn [app].
  - by rewrite mapM_cons, Hx.
  - destruct (Hpre y) as [z Hz]; [by left|].
    rewrite mapM_cons, Hz, bind_Ok, IH; [done|].
    intros y' Hy'. apply Hpre. by right.
Qed.

Section SamplerErrors.
Context {F : FloatArith}.

(** X2: when a requested chromosome is not in the genome,
    [get_random_sequences] raises [KeyError] for the first such chromosome,
    before it draws any random number. *)
Theorem random_sequences_missing_chromosome (g : Genome) (n length : Z)
    (chroms : option (list string)) (max_n : Q) (r : rng)
    (pre post : list string) (c : string) :
  requested g chroms = pre ++ c :: post →
  (∀ x, x ∈ pre → is_Some (genome_get g x)) →
  genome_get g c = None →
  get_random_sequences g n length chroms max_n r = (Raise (KeyError c), r).
Proof.
  intros Hreq Hpre Hc.
  rewrite get_random_sequences_unfold. unfold select.
  rewrite rand_bind_unfold. unfold lift at 1, chrom_sizes.
  rewrite Hreq, (mapM_Raise_first _ pre post c (KeyError c)); [done| |].
  - intros y Hy. destruct (Hpre y Hy) as [b Hb]. unfold genome_item.
    rewrite Hb. by eexists.
  - unfold genome_item. by rewrite Hc.
Qed.

(** X3: when every requested chromosome is in the genome and [n] is 0 or
    negative, [get_random_sequences] returns the empty list and draws no
    random number, whether or not a chromosome is longer than the window. *)
Theorem random_sequences_no_draw (g : Genome) (n length : Z)
    (chroms : option (list string)) (max_n : Q) (r : rng) :
  (∀ c, c ∈ requested g chroms → is_Some (genome_get g c)) →
  n ≤ 0 →
  get_random_sequences g n length chroms max_n r = (Ok [], r).
Proof.
  intros Hall Hn.
  destruct (chrom_sizes_total g (requested g chroms) Hall) as [sizes Hs].
  destruct (chrom_sizes_sound _ _ _ Hs) as [_ Hdom].
  destruct (eligible_total sizes (requested g chroms) length Hdom) as (l & Hl & _).
  rewrite get_random_sequences_unfold, (select_unfold _ _ _ _ _ _ _ Hs Hl).
  by rewrite (weighted_selection_zero l n r Hn).
Qed.

End SamplerErrors.

Lemma random_sequences_missing_chromosome_witness :
  get_random_sequences example_genome 5 4 (Some ["chr1"; "chrM"; "chr2"]) (1 # 10)%Q
    example_rng = (Raise (KeyError "chrM"), example_rng).
Proof.
  apply (random_sequences_missing_chromosome example_genome 5 4
           (Some ["chr1"; "chrM"; "chr2"]) (1 # 10)%Q example_rng ["chr1"] ["chr2"] "chrM").
  - reflexivity.
  - intros x Hx. apply list_elem_of_singleton in Hx as ->. by eexists.
  - reflexivity.
Defined.

Lemma random_sequences_no_draw_witness :
  get_random_sequences example_genome (-3) 4 None (1 # 10)%Q example_rng
  = (Ok [], example_rng).
Proof.
  apply random_sequences_no_draw; [|lia].
  intros c Hc. cbn in Hc.
  apply elem_of_cons in Hc as [->|Hc]; [by eexists|].
  apply elem_of_cons in Hc as [->|Hc]; [by eexists|].
  by apply elem_of_nil in Hc.
Defined.

(** ** Windows and draws of the sampler *)

Section Sampling.
Context {F : FloatArith}.
Variables (g : Genome) (sizes : gmap string Z) (length : Z) (cutoff : Q).

(** What holds of every accepted attempt holds of every window returned. *)
Lemma sample_accepted (P : string * Z * Z → Prop) (k : nat) (chroms : list string)
    (last : option (Z * Z * Z)) (coords res : list (string * Z * Z)) (r r' : rng) :
  (∀ chrom bases size i,
     chrom ∈ chroms → genome_get g chrom = Some bases → sizes !! chrom = Some size →
     within (attempt bases size length (draws r i)).2 cutoff = true →
     P (chrom, (attempt bases size length (draws r i)).1.1,
        (attempt bases size length (draws r i)).1.2)) →
  sample g sizes length cutoff (S k) chroms last coords r = (Ok res, r') →
  Forall P coords → Forall P res.
Proof.
  revert last coords r.
  induction chroms as [|chrom chroms IH]; intros last coords r HP Hs Hc.
  - by injection Hs as <- <-.
  - cbn [sample] in Hs. rewrite rand_bind_unfold in Hs.
    destruct (retry g sizes length cutoff chrom (S k) last r) as [[w|e] r1] eqn:Hr; [|done].
    pose proof (retry_draws _ _ _ _ _ _ _ _ _ _ Hr) as Hd.
    pose proof (retry_attempted _ _ _ _ _ _ _ _ _ _ Hr)
      as (bases & size & i & Hb & Hsz & ->); [right; lia|].
    pose proof (HP chrom bases size i) as HPc.
    destruct (attempt bases size length (draws r i)) as [[s e] cnt].
    cbv iota beta in Hs. cbn [fst snd] in HPc.
    destruct (within cnt cutoff) eqn:Hw; [|done].
    eapply IH; [|exact Hs|].
    + intros c' b' s' i' Hc'. rewrite Hd. apply HP. by right.
    + apply Forall_app. split; [done|]. apply Forall_singleton.
      apply HPc; try done. by left.
Qed.

Lemma retry_pos (chrom : string) (k : nat) (last : option (Z * Z * Z))
    (res : result (option (Z * Z * Z))) (r r' : rng) :
  retry g sizes length cutoff chrom k last r = (res, r') →
  (pos r ≤ pos r' ≤ pos r + k)%nat ∧
  (∀ w, res = Ok w → (0 < k)%nat → (pos r < pos r')%nat).
Proof.
  revert last r. induction k as [|k IH]; intros last r.
  - intros [= <- <-]. split; [lia|]. intros; lia.
  - rewrite retry_S.
    destruct (dict_item sizes chrom); [|intros [= <- <-]; cbn; split; [lia|done]].
    destruct (genome_item g chrom); [|intros [= <- <-]; cbn; split; [lia|done]].
    cbv zeta. destruct (within _ cutoff).
    + intros [= <- <-]. cbn. split; [lia|]. intros; lia.
    + intros H. apply IH in H as [H1 H2]. cbn in H1. split; [lia|]. intros; lia.
Qed.

Lemma sample_pos (k : nat) (chroms : list string) (last : option (Z * Z * Z))
    (coords : list (string * Z * Z)) (res : result (list (string * Z * Z)))
    (r r' : rng) :
  sample g sizes length cutoff (S k) chroms last coords r = (res, r') →
  (pos r ≤ pos r' ≤ pos r + S k * List.length chroms)%nat ∧
  (∀ cs, res = Ok cs → (pos r + List.length chroms ≤ pos r')%nat).
Proof.
  revert last coords r. induction chroms as [|chrom chroms IH]; intros last coords r.
  - intros [= <- <-]. cbn. split; [lia|]. intros; lia.
  - cbn [sample]. rewrite rand_bind_unfold.
    destruct (retry g sizes length cutoff chrom (S k) last r) as [[w|e] r1] eqn:Hr.
    + apply retry_pos in Hr as [Hr1 Hr2]. specialize (Hr2 w eq_refl).
      destruct w as [[[s e] cnt]|].
      * destruct (within cnt cutoff).
        -- intros H. apply IH in H as [H1 H2]. cbn [List.length]. split; [nia|].
           intros cs Hcs. specialize (H2 cs Hcs). lia.
        -- intros [= <- <-]. cbn [List.length]. split; [nia|done].
      * intros [= <- <-]. cbn [List.length]. split; [nia|done].
    + apply retry_pos in Hr as [Hr1 _]. intros [= <- <-].
      cbn [List.length]. split; [nia|done].
Qed.

Lemma sample_draws (k : nat) (chroms : list string) (last : option (Z * Z * Z))
    (coords : list (string * Z * Z)) (res : result (list (string * Z * Z)))
    (r r' : rng) :
  sample g sizes length cutoff k chroms last coords r = (res, r') →
  draws r' = draws r.
Proof.
  revert last coords r. induction chroms as [|chrom chroms IH]; intros last coords r.
  - by intros [= <- <-].
  - cbn [sample]. rewrite rand_bind_unfold.
    destruct (retry g sizes length cutoff chrom k last r) as [[w|e] r1] eqn:Hr;
      apply retry_draws in Hr.
    + destruct w as [[[s e] cnt]|]; [|intros [= <- <-]; congruence].
      destruct (within cnt cutoff); [|intros [= <- <-]; congruence].
      intros H. apply IH in H. congruence.
    + intros [= <- <-]. congruence.
Qed.

End Sampling.

Section Draws.
Context {F : FloatArith}.

Lemma pick_pos {A} (cuml : list Q) (items : list A) (total : Q) (r r' : rng)
    (x : result A) :
  pick cuml items total r = (x, r') → pos r' = S (pos r).
Proof.
  unfold pick. rewrite rand_bind_unfold. unfold random at 1. cbv iota beta.
  rewrite rand_bind_unfold. unfold lift at 1.
  destruct (bisect cuml _) as [i|]; [|intros [= <- <-]; cbn; lia]. cbv iota beta.
  unfold lift. intros [= <- <-]. cbn. lia.
Qed.

Lemma repeatM_pos {A} (m : Rand A) (n : nat) (r r' : rng) (res : result (list A)) :
  (∀ r r' x, m r = (x, r') → pos r' = S (pos r)) →
  repeatM n m r = (res, r') →
  (pos r ≤ pos r' ≤ pos r + n)%nat ∧ (∀ xs, res = Ok xs → pos r' = (pos r + n)%nat).
Proof.
  intros Hm. revert r res. induction n as [|n IH]; intros r res.
  - intros [= <- <-]. split; [lia|]. intros; lia.
  - rewrite repeatM_S, rand_bind_unfold.
    destruct (m r) as [[x|e] r1] eqn:Hx; apply Hm in Hx.
    + rewrite rand_bind_unfold.
      destruct (repeatM n m r1) as [[ys|e] r2] eqn:Hys; intros [= <- <-];
        apply IH in Hys as [H1 H2].
      * specialize (H2 ys eq_refl). split; [lia|]. intros; lia.
      * split; [lia|done].
    + intros [= <- <-]. split; [lia|done].
Qed.

Lemma select_pos (g : Genome) (n length : Z) (chroms : option (list string))
    (r r' : rng) (res : result (gmap string Z * list string)) :
  select g n length chroms r = (res, r') →
  (pos r ≤ pos r' ≤ pos r + Z.to_nat n)%nat ∧
  (∀ v, res = Ok v → pos r' = (pos r + Z.to_nat n)%nat).
Proof.
  unfold select. rewrite rand_bind_unfold. unfold lift at 1.
  destruct (chrom_sizes g (requested g chroms)) as [sz|];
    [|intros [= <- <-]; split; [lia|done]].
  cbv iota beta. rewrite rand_bind_unfold. unfold lift at 1.
  destruct (eligible sz (requested g chroms) length) as [l|];
    [|intros [= <- <-]; split; [lia|done]].
  cbv iota beta. rewrite rand_bind_unfold.
  destruct (_weighted_selection l n r) as [res' r1] eqn:Hw.
  unfold _weighted_selection in Hw. destruct (accumulate l) as [[c i] t].
  eapply repeatM_pos in Hw as [H1 H2]; [|intros; by eapply pick_pos].
  destruct res' as [s|e]; intros [= <- <-].
  - specialize (H2 s eq_refl). split; [lia|]. intros; lia.
  - split; [lia|done].
Qed.

(** X4: whatever its outcome, a call of [get_random_sequences] for [n]
    windows draws at most [51 * n] random numbers, [n] for the selection and
    at most 50 for each window; a call that returns has drawn at least
    [2 * n]. The numbers that follow are not changed. *)
Theorem random_sequences_draws_bounded (g : Genome) (n length : Z)
    (chroms : option (list string)) (max_n : Q) (r r' : rng)
    (res : result (list (string * Z * Z))) :
  get_random_sequences g n length chroms max_n r = (res, r') →
  draws r' = draws r ∧
  (pos r ≤ pos r' ≤ pos r + 51 * Z.to_nat n)%nat ∧
  (∀ coords, res = Ok coords → (pos r + 2 * Z.to_nat n ≤ pos r')%nat).
Proof.
  rewrite get_random_sequences_unfold.
  destruct (select g n length chroms r) as [[[sizes sel]|e] r1] eqn:Hsel.
  - pose proof (select_draws _ _ _ _ _ _ _ Hsel) as Hd.
    pose proof (select_pos _ _ _ _ _ _ _ Hsel) as [Hp1 Hp2].
    specialize (Hp2 _ eq_refl).
    apply select_Ok in Hsel as [Hlen _]. intros Hs.
    pose proof (sample_pos _ _ _ _ _ _ _ _ _ _ _ Hs) as [Hs1 Hs2].
    split; [|split].
    + apply sample_draws in Hs. congruence.
    + lia.
    + intros coords Hc. specialize (Hs2 coords Hc). lia.
  - pose proof (select_draws _ _ _ _ _ _ _ Hsel) as Hd.
    pose proof (select_pos _ _ _ _ _ _ _ Hsel) as [Hp1 _].
    intros [= <- <-]. split; [done|]. split; [lia|done].
Qed.

End Draws.

Lemma random_sequences_draws_bounded_witness :
  (0 + 2 * Z.to_nat 2 ≤ 5)%nat ∧ (5 ≤ 0 + 51 * Z.to_nat 2)%nat.
Proof.
  destruct (random_sequences_draws_bounded example_genome 2 4 (Some ["chr1"]) (1 # 10)%Q
              example_rng (advance example_rng 5)
              (Ok [("chr1", 14, 18); ("chr1", 14, 18)]))
    as (_ & [_ Hup] & Hlow).
  - vm_compute. reflexivity.
  - split; [exact (Hlow _ eq_refl)|exact Hup].
Defined.



Lemma filter_sublist_length {A} (P : A → Prop) `{!∀ x, Decision (P x)} (l k : list A) :
  l `sublist_of` k → (List.length (filter P l) ≤ List.length (filter P k))%nat.
Proof.
  induction 1 as [|x l k _ IH|x l k _ IH]; [done|..]; rewrite ?filter_cons.
  - destruct (decide (P x)); cbn; lia.
  - destruct (decide (P x)); cbn; lia.
Qed.

(** A slice holds no more of a character than the whole string. *)
Lemma count_upper_slice_le (c : ascii) (s : string) (a b : Z) :
  Py.count c (Py.upper (Py.slice s a b)) ≤ Py.count c (Py.upper s).
Proof.
  unfold Py.count, Py.upper, Py.slice. rewrite !chars_str.
  apply inj_le, filter_sublist_length, fmap_sublist.
  etransitivity; [apply sublist_take|apply sublist_drop].
Qed.

Section FirstAttempt.
Context {F : FloatArith}.
Variables (g : Genome) (sizes : gmap string Z) (length : Z) (cutoff : Q).

(** A chromosome with no more N than the budget allows passes the test of
    the loop with any window. *)
Lemma within_whole (bases : string) (size : Z) (u : Q) :
  (inject_Z (Py.count "N" (Py.upper bases)) <= cutoff)%Q →
  within (attempt bases size length u).2 cutoff = true.
Proof.
  intros Hc. unfold attempt. cbn [snd]. apply Qle_bool_iff.
  apply (Qle_trans _ (inject_Z (Py.count "N" (Py.upper bases)))); [|done].
  rewrite <- Zle_Qle. apply count_upper_slice_le.
Qed.

Lemma sample_first_attempts (k : nat) (chroms : list string)
    (last : option (Z * Z * Z)) (coords : list (string * Z * Z)) (r : rng) :
  (∀ c, c ∈ chroms →
     ∃ bases, genome_get g c = Some bases ∧ sizes !! c = Some (len bases) ∧
              (inject_Z (Py.count "N" (Py.upper bases)) <= cutoff)%Q) →
  ∃ res, sample g sizes length cutoff (S k) chroms last coords r
         = (Ok res, advance r (List.length chroms)) ∧
         List.length res = (List.length coords + List.length chroms)%nat.
Proof.
  revert last coords r. induction chroms as [|c chroms IH]; intros last coords r Hall.
  - exists coords. cbn. rewrite advance_0. split; [done|lia].
  - destruct (Hall c) as (bases & Hb & Hsz & Hcount); [by left|].
    pose proof (within_whole bases (len bases) (draws r (pos r)) Hcount) as Hw.
    cbn [sample]. rewrite rand_bind_unfold, retry_S.
    rewrite (dict_item_Some _ _ _ Hsz). unfold genome_item. rewrite Hb. cbv zeta.
    rewrite Hw.
    destruct (attempt bases (len bases) length (draws r (pos r))) as [[s e] cnt].
    cbn [snd] in Hw. rewrite Hw.
    destruct (IH (Some (s, e, cnt)) (coords ++ [(c, s, e)]) (advance r 1))
      as (res & Hres & Hlen).
    { intros c' Hc'. apply Hall. by right. }
    exists res. rewrite Hres, advance_advance. split; [done|].
    rewrite Hlen, length_app. cbn. lia.
Qed.

End FirstAttempt.

Lemma total_weight_positive {A} (l : list (Q * A)) (w : Q) (x : A) :
  Forall (λ wx, (0 <= wx.1)%Q) l → (w, x) ∈ l → (0 < w)%Q → (0 < total_weight l)%Q.
Proof.
  intros Hl Hin Hw. apply list_elem_of_split in Hin as (pre & post & ->).
  apply Forall_app in Hl as [Hpre Hpost]. apply Forall_cons in Hpost as [_ Hpost].
  pose proof (total_weight_app_le [] pre Hpre) as H1.
  pose proof (total_weight_app_le (pre ++ [(w, x)]) post Hpost) as H2.
  rewrite total_weight_snoc, fadd_exact, <- app_assoc in H2. cbn [app] in H1, H2.
  change (total_weight (@nil (Q * A))) with 0%Q in H1. lra.
Qed.



(** ** Lines of BED text *)

(** X7: in a line of twelve fields, the token after the last comma of the
    block sizes and of the block starts is dropped whatever it is, an
    unparsed block without a comma after it included; the intervals of the
    record are made of the tokens before it, pair by pair, as far as the
    shorter list goes. *)
Theorem bed12_last_token_dropped (line : string) (stranded : bool) (S E : Z)
    (v10 v11 t10 t11 : string) (toks10 toks11 : list string) (sizes starts : list Z) :
  List.length (fields line) = 12%nat →
  bed_coords (fields line) = Ok (S, E) →
  fields line !! 10%nat = Some v10 → fields line !! 11%nat = Some v11 →
  Py.split "," v10 = toks10 ++ [t10] → Py.split "," v11 = toks11 ++ [t11] →
  mapM Py.int toks10 = Ok sizes → mapM Py.int toks11 = Ok starts →
  ∃ r, bed_line line stranded 0 0 = Ok r ∧
       bed_intervals r
       = spec_adjust (bed_rc r) <$> ((λ p, (S + p.1, S + p.1 + p.2)) <$> zip starts sizes) ∧
       List.length (bed_intervals r) = (List.length starts `min` List.length sizes)%nat.
Proof.
  intros Hlen Hc H10 H11 Ht10 Ht11 Hs10 Hs11.
  pose proof (getitem_lookup _ 11 v11 H11) as G11.
  pose proof (getitem_lookup _ 10 v10 H10) as G10.
  change (Z.of_nat 11) with 11 in G11. change (Z.of_nat 10) with 10 in G10.
  destruct (lookup_lt_is_Some_2 (fields line) 0) as [chrom H0]; [lia|].
  apply (getitem_lookup _ 0%nat) in H0. change (Z.of_nat 0) with 0 in H0.
  assert (bed_blocks (fields line) S E
          = Ok ((λ x, S + x) <$> starts,
                (λ '(start, size), start + size) <$> zip ((λ x, S + x) <$> starts) sizes))
    as Hb.
  { unfold bed_blocks. rewrite Hlen. cbn [Nat.eqb].
    rewrite G11, bind_Ok, Ht11. unfold Py.but_last.
    rewrite removelast_last, Hs11, bind_Ok, G10, bind_Ok, Ht10.
    by rewrite removelast_last, Hs10, bind_Ok. }
  unfold bed_line, bed_fixed. rewrite Hc, bind_Ok, H0, bind_Ok, Hb, bind_Ok.
  destruct (half_open_fix _ _ _) as [s1 e1] eqn:Hfix.
  rewrite bind_Ok. cbv beta iota. rewrite extend_zero, bind_Ok.
  eexists. split; [done|]. cbn [bed_intervals bed_rc].
  assert (zip ((λ x, S + x) <$> starts)
            ((λ '(start, size), start + size) <$> zip ((λ x, S + x) <$> starts) sizes)
          = (λ p, (S + p.1, S + p.1 + p.2)) <$> zip starts sizes) as Hz.
  { clear. revert sizes. induction starts as [|b bs IH]; intros [|z zs]; cbn; [done..|].
    f_equal. apply IH. }
  rewrite <- Hz, <- half_open_fix_zip, Hfix. cbn [fst snd]. split; [done|].
  pose proof (half_open_fix_length (bed_strand (fields line) stranded)
                ((λ x, S + x) <$> starts)
                ((λ '(start, size), start + size) <$> zip ((λ x, S + x) <$> starts) sizes))
    as [H1 H2].
  rewrite Hfix in H1, H2. cbn [fst snd] in H1, H2.
  rewrite length_zip, H1, H2, !length_fmap, length_zip, length_fmap. lia.
Qed.

Lemma bed12_last_token_dropped_witness :
  ∃ r, bed_line bed12_open_line false 0 0 = Ok r ∧ bed_intervals r = [(100, 104)].
Proof.
  destruct (bed12_last_token_dropped bed12_open_line false 100 120 "5,5" "0,10" "5" "10"
              ["5"] ["0"] [5] [0])
    as (r & Hr & Hi & _); try reflexivity.
  exists r. split; [exact Hr|]. rewrite Hi.
  vm_compute in Hr. by injection Hr as <-.
Defined.

(** X8: a line that is not passed over and has fewer than three fields
    between tabs, a blank line for one, raises [IndexError] when its second
    field, if it has one, is an integer; blank lines are not skipped. *)
Theorem bed_short_line_raises (fetch : string → Z → Z → result Sequence)
    (line : string) (stranded : bool) (up down : Z) :
  (List.length (fields line) < 3)%nat →
  (∀ v, fields line !! 1%nat = Some v → ∃ z, Py.int v = Ok z) →
  bed_line line stranded up down = Raise IndexError ∧
  bed_line_seq fetch stranded up down line = Raise IndexError.
Proof.
  intros Hlen Hint.
  assert (bed_line line stranded up down = Raise IndexError) as Hb.
  { unfold bed_line, bed_fixed, bed_coords.
    destruct (fields line) as [|v0 [|v1 [|v2 vals]]] eqn:Hf; [done| |..].
    - reflexivity.
    - destruct (Hint v1 eq_refl) as [z Hz].
      change (Py.getitem [v0; v1] 1) with (@Ok string v1).
      rewrite bind_Ok, Hz. reflexivity.
    - cbn in Hlen. lia. }
  split; [done|]. unfold bed_line_seq. by rewrite Hb.
Qed.

Lemma bed_short_line_raises_witness :
  skipped Py.nl = false ∧
  bed_line_seq (faidx_fetch example_genome) false 0 0 Py.nl = Raise IndexError.
Proof.
  split; [reflexivity|].
  apply (bed_short_line_raises (faidx_fetch example_genome) Py.nl false 0 0).
  - change (fields Py.nl) with [""]. cbn. lia.
  - intros v Hv. discriminate.
Defined.

Lemma getitem_insert_ne {A} (l : list A) (k : nat) (x : A) (i : Z) :
  0 ≤ i → Z.to_nat i ≠ k → Py.getitem (<[k := x]> l) i = Py.getitem l i.
Proof.
  intros Hi Hk. unfold Py.getitem. cbv zeta.
  assert ((i <? 0) = false) as -> by (apply Z.ltb_ge; lia).
  by rewrite list_lookup_insert_ne.
Qed.

(** X9: when [stranded] is not set, the record of a line does not depend on
    its strand field: two lines that differ in field 5 only give the same
    record or the same exception, and a record is never reverse
    complemented. *)
Theorem bed_unstranded_ignores_strand (line1 line2 : string) (strand : string)
    (up down : Z) :
  fields line2 = <[5%nat := strand]> (fields line1) →
  bed_line line2 false up down = bed_line line1 false up down ∧
  ∀ r, bed_line line1 false up down = Ok r → bed_rc r = false.
Proof.
  intros Hf. split.
  - unfold bed_line, bed_fixed, bed_coords, bed_strand, bed_name_of, bed_blocks.
    rewrite Hf, length_insert.
    by rewrite !getitem_insert_ne by (cbn; lia).
  - intros r Hr. apply bed_line_inv in Hr as (starts & ends & s' & e' & Hfix & _).
    apply bed_fixed_inv in Hfix as (S & E & sts & ens & _ & Hrc & _). done.
Qed.

Lemma bed_unstranded_ignores_strand_witness :
  bed_line bed12_plus_line false 5 3 = bed_line bed12_line false 5 3 ∧
  bed_line bed12_plus_line true 5 3 ≠ bed_line bed12_line true 5 3.
Proof.
  split.
  - apply (bed_unstranded_ignores_strand bed12_line bed12_plus_line "+" 5 3). reflexivity.
  - vm_compute. discriminate.
Defined.

(** ** The sinks of [track2fasta] *)

Lemma append_assoc (a b c : string) : (a +:+ b) +:+ c = a +:+ (b +:+ c).
Proof.
  induction a as [|x a IH]; [done|]. rewrite !append_cons. by f_equal.
Qed.

Lemma render_cons (s : Sequence) (seqs : list Sequence) :
  render (s :: seqs) = (fasta_repr s +:+ Py.nl) +:+ render seqs.
Proof. reflexivity. Qed.

Lemma collect_cons_Ok {A} (a : A) (gen : list (result A)) :
  collect (Ok a :: gen) = (cons a) <$> collect gen.
Proof.
  unfold collect. rewrite mapM_cons.
  change (id (@Ok A a)) with (@Ok A a). rewrite bind_Ok.
  by destruct (mapM id gen).
Qed.

Lemma collect_cons_Raise {A} (e : exn) (gen : list (result A)) :
  collect (Raise e :: gen) = Raise e.
Proof. reflexivity. Qed.

(** What the writing loop leaves and how it ends, in terms of what the
    list comprehension returns on the same generator. *)
Lemma write_all_collect (gen : list (result Sequence)) (acc : string) :
  write_all gen acc = (acc +:+ render (yielded gen), (λ _, ()) <$> collect gen).
Proof.
  revert acc. induction gen as [|[s|e] gen IH]; intros acc.
  - cbn [write_all yielded]. change (render []) with "". by rewrite append_empty_r.
  - cbn [write_all yielded]. rewrite IH, collect_cons_Ok, render_cons.
    rewrite !append_assoc. by destruct (collect gen).
  - cbn [write_all yielded]. change (render []) with "". by rewrite append_empty_r.
Qed.

Lemma collect_yielded {A} (gen : list (result A)) (xs : list A) :
  collect gen = Ok xs → yielded gen = xs.
Proof.
  revert xs. induction gen as [|[a|e] gen IH]; intros xs.
  - by intros [= <-].
  - rewrite collect_cons_Ok. destruct (collect gen) as [ys|]; [|done].
    intros [= <-]. cbn. f_equal. by apply IH.
  - done.
Qed.

Lemma seqqer_other_file (fetch : string → Z → Z → result Sequence) (fs : filesystem)
    (t : track) (ty : track_type) (out text : string) (stranded : bool) (up down : Z) :
  t ≠ TrackPath out →
  seqqer fetch (<[out := text]> fs) t ty stranded up down
  = seqqer fetch fs t ty stranded up down.
Proof.
  intros Ht. destruct t as [l|p]; [by destruct ty|].
  assert (out ≠ p) as Hp by congruence.
  unfold seqqer, _region_to_seqs, _bed_to_seqs, open.
  by rewrite lookup_insert_ne.
Qed.

Section Sinks.
Context {W : FileAccess}.

Lemma track2fasta_file (fetch : string → Z → Z → result Sequence) (fs : filesystem)
    (t : track) (ty : track_type) (out : string) (stranded : bool) (up down : Z) :
  out ≠ "" → get_track_type fs t = Ok ty → open_w out = None →
  track2fasta fetch fs t (Some out) stranded up down
  = ((λ _, None) <$> collect (seqqer fetch (<[out := ""]> fs) t ty stranded up down),
     <[out := render (yielded (seqqer fetch (<[out := ""]> fs) t ty stranded up down))]> fs).
Proof.
  intros Hout Ht Hw. unfold track2fasta. rewrite Ht.
  destruct out as [|c out]; [done|]. rewrite Hw.
  rewrite write_all_collect, append_empty_l, insert_insert_eq.
  by destruct (collect _).
Qed.

Lemma track2fasta_unwritable (fetch : string → Z → Z → result Sequence) (fs : filesystem)
    (t : track) (ty : track_type) (out : string) (e : exn) (stranded : bool)
    (up down : Z) :
  out ≠ "" → get_track_type fs t = Ok ty → open_w out = Some e →
  track2fasta fetch fs t (Some out) stranded up down = (Raise e, fs).
Proof.
  intros Hout Ht Hw. unfold track2fasta. rewrite Ht.
  destruct out as [|c out]; [done|]. by rewrite Hw.
Qed.

(** X10: writing to an output file that can be opened for writing and is
    not the track itself ends as returning the list does: with [None] where
    the list is returned, with the same exception otherwise; when the list
    is returned, the output file holds the FASTA text of its records, in
    order, each followed by a newline. When the type of the track is found
    and the output file cannot be opened, the call ends with the exception
    of [open] and leaves the files as they were. *)
Theorem track2fasta_sinks_agree (fetch : string → Z → Z → result Sequence)
    (fs : filesystem) (t : track) (out : string) (stranded : bool) (up down : Z) :
  out ≠ "" → t ≠ TrackPath out →
  (open_w out = None →
   (track2fasta fetch fs t (Some out) stranded up down).1
   = (λ _, None) <$> (track2fasta fetch fs t None stranded up down).1 ∧
   ∀ seqs, (track2fasta fetch fs t None stranded up down).1 = Ok (Some seqs) →
           (track2fasta fetch fs t (Some out) stranded up down).2
           = <[out := render seqs]> fs) ∧
  (∀ e ty, open_w out = Some e → get_track_type fs t = Ok ty →
     track2fasta fetch fs t (Some out) stranded up down = (Raise e, fs)).
Proof.
  intros Hout Ht. split.
  - intros Hw. destruct (get_track_type fs t) as [ty|e] eqn:Hty.
    + rewrite (track2fasta_file _ _ _ _ _ _ _ _ Hout Hty Hw),
        (track2fasta_list _ _ _ _ _ _ _ Hty).
      rewrite (seqqer_other_file _ _ _ _ _ _ _ _ _ Ht). cbn [fst snd]. split.
      * by destruct (collect _).
      * intros seqs Hs. destruct (collect _) as [xs|] eqn:Hc; [|done].
        injection Hs as <-. by rewrite (collect_yielded _ _ Hc).
    + unfold track2fasta. rewrite Hty. split; [done|]. by destruct out.
  - intros e ty Hw Hty. by apply (track2fasta_unwritable _ _ _ ty).
Qed.

End Sinks.

Lemma track2fasta_sinks_agree_witness :
  track2fasta (W := all_writable) (pyfaidx_fetch example_genome) example_fs
    (TrackList ["chr1:1-5"; "chr1:10-15"]) (Some "out.fa") false 0 0
  = (Ok None,
     <["out.fa" := ">chr1:1-5" +:+ Py.nl +:+ "ACGTT" +:+ Py.nl +:+
                   ">chr1:10-15" +:+ Py.nl +:+ "ACCGGT" +:+ Py.nl]> example_fs) ∧
  track2fasta (W := none_writable) (pyfaidx_fetch example_genome) example_fs
    (TrackList ["chr1:1-5"; "chr1:10-15"]) (Some "out.fa") false 0 0
  = (Raise (FileNotFoundError "out.fa"), example_fs).
Proof.
  split.
  - destruct (track2fasta_sinks_agree (W := all_writable) (pyfaidx_fetch example_genome)
                example_fs (TrackList ["chr1:1-5"; "chr1:10-15"]) "out.fa" false 0 0)
      as [H _]; [discriminate..|].
    destruct (H eq_refl) as [H1 H2].
    apply injective_projections.
    + rewrite H1. reflexivity.
    + rewrite (H2 _ eq_refl). reflexivity.
  - destruct (track2fasta_sinks_agree (W := none_writable) (pyfaidx_fetch example_genome)
                example_fs (TrackList ["chr1:1-5"; "chr1:10-15"]) "out.fa" false 0 0)
      as [_ H]; [discriminate..|].
    exact (H _ Interval eq_refl eq_refl).
Defined.

Section OutputOnly.
Context {W : FileAccess}.

(** X11: [track2fasta] creates or changes no file but its output file, and
    none at all when it is given no output file or an empty name. *)
Theorem track2fasta_touches_output_only (fetch : string → Z → Z → result Sequence)
    (fs : filesystem) (t : track) (fastafile : option string) (stranded : bool)
    (up down : Z) :
  (∀ path, fastafile ≠ Some path →
     (track2fasta fetch fs t fastafile stranded up down).2 !! path = fs !! path) ∧
  (fastafile = None ∨ fastafile = Some "" →
     (track2fasta fetch fs t fastafile stranded up down).2 = fs).
Proof.
  split.
  - intros path Hp. unfold track2fasta.
    destruct (get_track_type fs t) as [ty|e]; [|done].
    destruct fastafile as [[|c out]|]; cbv zeta; [reflexivity| |reflexivity].
    destruct (open_w _); [reflexivity|].
    destruct (write_all _ _) as [written res]. cbn [snd].
    rewrite !lookup_insert_ne by congruence. done.
  - intros Hf. unfold track2fasta.
    destruct (get_track_type fs t) as [ty|e]; [|done].
    by destruct Hf as [-> | ->].
Qed.

End OutputOnly.

Lemma track2fasta_touches_output_only_witness :
  (track2fasta (faidx_fetch example_genome) example_fs (TrackPath "genes.bed")
     (Some "out.fa") false 0 0).2 !! "regions.txt" = example_fs !! "regions.txt".
Proof.
  apply (track2fasta_touches_output_only (faidx_fetch example_genome) example_fs
           (TrackPath "genes.bed") (Some "out.fa") false 0 0).
  discriminate.
Defined.

Section OntoTrack.
Context {W : FileAccess}.

(** X12: when the output file is the track file itself and can be opened
    for writing, [track2fasta] empties it before the first line is read: the
    call ends without an exception, writes no record, and the text of the
    track is lost, whatever it was. When the file cannot be opened for
    writing, the call ends with the exception of [open] and the track is
    left as it was. *)
Theorem track2fasta_onto_track (fetch : string → Z → Z → result Sequence)
    (fs : filesystem) (path text : string) (stranded : bool) (up down : Z) :
  path ≠ "" → fs !! path = Some text →
  (open_w path = None →
   track2fasta fetch fs (TrackPath path) (Some path) stranded up down
   = (Ok None, <[path := ""]> fs)) ∧
  (∀ e, open_w path = Some e →
   track2fasta fetch fs (TrackPath path) (Some path) stranded up down = (Raise e, fs)).
Proof.
  intros Hp Ht.
  assert (∃ ty, get_track_type fs (TrackPath path) = Ok ty) as [ty Hty].
  { unfold get_track_type, open. rewrite Ht, bind_Ok.
    destruct (region_p_search _); by eexists. }
  split.
  - intros Hw. rewrite (track2fasta_file _ _ _ _ _ _ _ _ Hp Hty Hw).
    assert (seqqer fetch (<[path := ""]> fs) (TrackPath path) ty stranded up down = [])
      as ->.
    { unfold seqqer, _region_to_seqs, _bed_to_seqs, open.
      rewrite lookup_insert_eq. by destruct ty. }
    reflexivity.
  - intros e Hw. by apply (track2fasta_unwritable _ _ _ ty).
Qed.

End OntoTrack.

Lemma track2fasta_onto_track_witness :
  track2fasta (W := all_writable) (pyfaidx_fetch example_genome) example_fs
    (TrackPath "genes.bed") (Some "genes.bed") false 0 0
  = (Ok None, <["genes.bed" := ""]> example_fs).
Proof.
  apply (track2fasta_onto_track (W := all_writable) (pyfaidx_fetch example_genome)
           example_fs "genes.bed" (bed3_line +:+ "chr1:10-15" +:+ Py.nl)).
  - discriminate.
  - reflexivity.
  - reflexivity.
Defined.

(** ** The first failing line, and the order of the records *)

Lemma collect_app_Raise {A} (g1 g2 : list (result A)) (e : exn) :
  Forall (λ x, ∃ a, x = Ok a) g1 →
  collect (g1 ++ Raise e :: g2) = Raise e ∧
  yielded (g1 ++ Raise e :: g2) = yielded g1.
Proof.
  induction 1 as [|x g1 [a ->] _ [IH1 IH2]]; [done|].
  cbn [app yielded]. rewrite collect_cons_Ok, IH1, IH2. done.
Qed.

Section FirstError.
Context {W : FileAccess}.

(** X13: in a file of BED text, the exception of the first line that is
    not passed over and fails is the exception of the whole call; the list
    of the records before it is not returned, and an output file that can be
    opened for writing and is not the track keeps the records written before
    the failure. *)
Theorem bed_first_error_aborts (fetch : string → Z → Z → result Sequence)
    (fs : filesystem) (path text out : string) (stranded : bool) (up down : Z)
    (pre post : list string) (line : string) (e : exn) :
  fs !! path = Some text →
  get_track_type fs (TrackPath path) = Ok Bed →
  Py.readlines text = pre ++ line :: post →
  (∀ l, l ∈ pre → skipped l = true ∨ ∃ s, bed_line_seq fetch stranded up down l = Ok s) →
  skipped line = false →
  bed_line_seq fetch stranded up down line = Raise e →
  out ≠ "" → out ≠ path →
  track2fasta fetch fs (TrackPath path) None stranded up down = (Raise e, fs) ∧
  (open_w out = None →
   track2fasta fetch fs (TrackPath path) (Some out) stranded up down
   = (Raise e,
      <[out := render (yielded (bed_line_seq fetch stranded up down
                                  <$> filter (λ l, skipped l = false) pre))]> fs)).
Proof.
  intros Hp Hty Hlines Hpre Hskip He Hout Hne.
  assert (seqqer fetch fs (TrackPath path) Bed stranded up down
          = (bed_line_seq fetch stranded up down <$> filter (λ l, skipped l = false) pre)
            ++ Raise e :: (bed_line_seq fetch stranded up down
                             <$> filter (λ l, skipped l = false) post)) as Hgen.
  { unfold seqqer, _bed_to_seqs, open. rewrite Hp, Hlines.
    rewrite filter_app, filter_cons_True by done.
    by rewrite fmap_app, fmap_cons, He. }
  assert (Forall (λ x, ∃ a, x = Ok a)
            (bed_line_seq fetch stranded up down <$> filter (λ l, skipped l = false) pre))
    as Hok.
  { apply Forall_fmap, Forall_forall. intros l [Hl Hin]%list_elem_of_filter.
    destruct (Hpre l Hin) as [Hs|[s Hs]]; [congruence|]. cbn. by eexists. }
  destruct (collect_app_Raise _ (bed_line_seq fetch stranded up down
                                   <$> filter (λ l, skipped l = false) post) e Hok)
    as [Hc Hy].
  split.
  - by rewrite (track2fasta_list _ _ _ _ _ _ _ Hty), Hgen, Hc.
  - intros Hw. rewrite (track2fasta_file _ _ _ _ _ _ _ _ Hout Hty Hw).
    rewrite seqqer_other_file by congruence. by rewrite Hgen, Hc, Hy.
Qed.

End FirstError.

Lemma bed_first_error_aborts_witness :
  track2fasta (W := all_writable) (pyfaidx_fetch example_genome) example_fs
    (TrackPath "genes.bed") (Some "out.fa") false 0 0
  = (Raise IndexError,
     <["out.fa" := ">chr1:10-20" +:+ Py.nl +:+ "ACCGGTTACG" +:+ Py.nl]> example_fs).
Proof.
  refine (proj2 (bed_first_error_aborts (W := all_writable) (pyfaidx_fetch example_genome)
                   example_fs "genes.bed" (bed3_line +:+ "chr1:10-15" +:+ Py.nl) "out.fa"
                   false 0 0 [bed3_line] [] ("chr1:10-15" +:+ Py.nl) IndexError
                   _ _ _ _ _ _ _ _) eq_refl);
    try reflexivity; try discriminate.
  intros l Hl. apply list_elem_of_singleton in Hl as ->. right. by eexists.
Defined.

Section RecordsInOrder.
Context {W : FileAccess}.

(** X14: when [track2fasta] returns the list for a file of BED text, the
    list has one record for each line that is not passed over, in the order
    of the file; the record has the name of its line and the bases that
    [get_spliced_seq] stitched for it, and no span: the start and end that
    [get_spliced_seq] reported are not kept. *)
Theorem bed_records_in_order (fetch : string → Z → Z → result Sequence)
    (fs : filesystem) (path text : string) (stranded : bool) (up down : Z)
    (seqs : list Sequence) :
  fs !! path = Some text →
  get_track_type fs (TrackPath path) = Ok Bed →
  track2fasta fetch fs (TrackPath path) None stranded up down = (Ok (Some seqs), fs) →
  Forall2 (λ line s, ∃ r chunk,
             bed_line line stranded up down = Ok r ∧
             get_spliced_seq fetch (bed_chrom r) (bed_intervals r) (bed_rc r) = Ok chunk ∧
             s = mkSequence (bed_name r) (seq chunk) None None)
    (filter (λ l, skipped l = false) (Py.readlines text)) seqs.
Proof.
  intros Hp Hty. rewrite (track2fasta_list _ _ _ _ _ _ _ Hty).
  unfold seqqer, _bed_to_seqs, open. rewrite Hp.
  generalize (filter (λ l, skipped l = false) (Py.readlines text)). intros lines.
  unfold collect. destruct (mapM id _) as [xs|] eqn:Hm; [|done].
  intros [= <-]. apply mapM_Ok_Forall2 in Hm.
  apply Forall2_fmap_l in Hm. eapply Forall2_impl; [exact Hm|].
  intros line s. unfold compose, id, bed_line_seq. cbv beta.
  destruct (bed_line line stranded up down) as [r|] eqn:Hr;
    [rewrite bind_Ok|by rewrite bind_Raise].
  destruct (get_spliced_seq fetch _ _ _) as [chunk|] eqn:Hg;
    [rewrite bind_Ok|by rewrite bind_Raise].
  intros [= <-]. by exists r, chunk.
Qed.

End RecordsInOrder.

Lemma bed_records_in_order_witness :
  Forall2 (λ line s, ∃ r chunk,
             bed_line line false 0 0 = Ok r ∧
             get_spliced_seq (faidx_fetch example_genome)
               (bed_chrom r) (bed_intervals r) (bed_rc r) = Ok chunk ∧
             s = mkSequence (bed_name r) (seq chunk) None None)
    [bed3_line] [mkSequence "chr1:10-20" "CCGGTTACG" None None].
Proof.
  apply (bed_records_in_order (faidx_fetch example_genome)
           {[ "track.bed" := bed3_line ]} "track.bed" bed3_line false 0 0);
    reflexivity.
Defined.

Section RegionsInOrder.
Context {W : FileAccess}.

Lemma region_coords_zero (region chrom : string) (s e up down : Z) :
  region_coords region up down = Ok (chrom, s, e) →
  ∃ s0 e0, region_coords region 0 0 = Ok (chrom, s0, e0) ∧ s = s0 - up ∧ e = e0 + down.
Proof.
  unfold region_coords.
  destruct (Py.split ":" region) as [|a [|b [|? ?]]]; try discriminate.
  destruct (mapM Py.int (Py.split "-" b)) as [[|x [|y [|? ?]]]|];
    rewrite ?bind_Ok, ?bind_Raise; try discriminate.
  intros [= <- <- <-]. exists x, y. split; [do 2 f_equal; [f_equal|]; lia|lia].
Qed.

(** X15: when [track2fasta] returns the list for region strings, the list
    has one record for each string of the list, or each line of the file, in
    order; the name of the record is the region string as it was given (the
    stripped line for a file) even when the interval was extended, and its
    bases are those fetched for the extended interval. *)
Theorem region_records_in_order (fetch : string → Z → Z → result Sequence)
    (fs : filesystem) (t : track) (stranded : bool) (up down : Z)
    (seqs : list Sequence) :
  get_track_type fs t = Ok Interval →
  track2fasta fetch fs t None stranded up down = (Ok (Some seqs), fs) →
  ∃ names,
    match t with
    | TrackList l => names = l
    | TrackPath p => ∃ text, fs !! p = Some text ∧ names = Py.strip <$> Py.readlines text
    end ∧
    Forall2 (λ x s, ∃ chrom S E chunk,
               region_coords x 0 0 = Ok (chrom, S, E) ∧
               fetch chrom (S - up) (E + down) = Ok chunk ∧
               s = mkSequence x (seq chunk) None None)
      names seqs.
Proof.
  intros Hty. rewrite (track2fasta_list _ _ _ _ _ _ _ Hty).
  assert (∃ names,
            match t with
            | TrackList l => names = l
            | TrackPath p => ∃ text, fs !! p = Some text ∧
                                     names = Py.strip <$> Py.readlines text
            end ∧
            seqqer fetch fs t Interval stranded up down = region_seq fetch up down <$> names)
    as (names & Hnames & ->).
  { destruct t as [l|p]; [by exists l|].
    unfold get_track_type, open in Hty. unfold seqqer, _region_to_seqs, open.
    destruct (fs !! p) as [text|] eqn:Hp; [|done].
    exists (Py.strip <$> Py.readlines text). split; [by exists text|].
    by rewrite <- list_fmap_compose. }
  intros Hs. exists names. split; [done|].
  unfold collect in Hs. destruct (mapM id _) as [xs|] eqn:Hm; [|done].
  injection Hs as <-. apply mapM_Ok_Forall2 in Hm.
  apply Forall2_fmap_l in Hm. eapply Forall2_impl; [exact Hm|].
  intros x s. unfold compose, id, region_seq, get_seq. cbv beta.
  destruct (region_coords x up down) as [[[chrom S'] E']|] eqn:Hc;
    [rewrite bind_Ok|by rewrite bind_Raise].
  destruct (fetch chrom S' E') as [chunk|] eqn:Hf;
    [rewrite bind_Ok|by rewrite bind_Raise].
  intros [= <-].
  destruct (region_coords_zero _ _ _ _ _ _ Hc) as (S & E & H0 & -> & ->).
  by exists chrom, S, E, chunk.
Qed.

End RegionsInOrder.

Lemma region_records_in_order_witness :
  ∃ names,
    names = region_lines ∧
    Forall2 (λ x s, ∃ chrom S E chunk,
               region_coords x 0 0 = Ok (chrom, S, E) ∧
               faidx_fetch example_genome chrom (S - 0) (E + 3) = Ok chunk ∧
               s = mkSequence x (seq chunk) None None)
      names
      [mkSequence "chr1:0-5" "ACGTTGCA" None None;
       mkSequence "chr1:10-15" "CCGGTTAC" None None].
Proof.
  apply (region_records_in_order (faidx_fetch example_genome) ∅
           (TrackList region_lines) false 0 3); reflexivity.
Defined.

(** ** The name of a BED3 line read back as a region string *)

Lemma digits_val_cons (c : ascii) (acc : Z) (s : string) :
  Py.is_digit c = true →
  Py.digits_val acc (String c s) = Py.digits_val (10 * acc + Py.digit_val c) s.
Proof. intros H. cbn [Py.digits_val]. by rewrite H. Qed.

Lemma digits_val_uint_acc (d : Decimal.uint) (acc : positive) :
  Py.digits_val (Z.pos acc) (NilEmpty.string_of_uint d)
  = Some (Z.pos (Pos.of_uint_acc d acc)).
Proof.
  revert acc. induction d as [|d IH|d IH|d IH|d IH|d IH|d IH|d IH|d IH|d IH|d IH];
    intros acc; cbn [NilEmpty.string_of_uint Pos.of_uint_acc]; [done|..];
    rewrite digits_val_cons by reflexivity; rewrite <- IH; f_equal;
    vm_compute (Py.digit_val _); lia.
Qed.

Lemma digits_val_uint (d : Decimal.uint) :
  Py.digits_val 0 (NilEmpty.string_of_uint d) = Some (Z.of_N (Pos.of_uint d)).
Proof.
  induction d as [|d IH|d IH|d IH|d IH|d IH|d IH|d IH|d IH|d IH|d IH];
    cbn [NilEmpty.string_of_uint Pos.of_uint]; [done|..];
    rewrite digits_val_cons by reflexivity; [exact IH|..];
    cbn [Z.of_N]; rewrite <- digits_val_uint_acc; f_equal.
Qed.

Lemma uint_digits (d : Decimal.uint) :
  Forall (λ c, Py.is_digit c = true) (Py.chars (NilEmpty.string_of_uint d)).
Proof.
  induction d; cbn [NilEmpty.string_of_uint Py.chars list_ascii_of_string];
    constructor; done.
Qed.

(** The text of a natural number: decimal digits, at least one, whose
    value is the number. *)
Lemma format_int_digits (z : Z) :
  0 ≤ z →
  Py.format_int z ≠ "" ∧
  Forall (λ c, Py.is_digit c = true) (Py.chars (Py.format_int z)) ∧
  Py.digits_val 0 (Py.format_int z) = Some z.
Proof.
  intros Hz. unfold Py.format_int. destruct z as [|p|p]; [|clear Hz|lia].
  - split; [done|]. split; [|done]. by repeat constructor.
  - cbn [Z.to_int NilZero.string_of_int].
    pose proof (DecimalPos.Unsigned.to_uint_nonnil p) as Hnil.
    pose proof (DecimalPos.Unsigned.of_to p) as Hof.
    assert (NilZero.string_of_uint (Pos.to_uint p)
            = NilEmpty.string_of_uint (Pos.to_uint p)) as ->.
    { by destruct (Pos.to_uint p). }
    split; [by destruct (Pos.to_uint p)|].
    split; [apply uint_digits|]. by rewrite digits_val_uint, Hof.
Qed.

Lemma digit_not_space (c : ascii) : Py.is_digit c = true → Py.is_space c = false.
Proof.
  unfold Py.is_digit, Py.is_space. cbv zeta.
  generalize (nat_of_ascii c). intros n H.
  apply andb_true_iff in H as [H1%Nat.leb_le H2%Nat.leb_le].
  apply orb_false_iff. split; apply andb_false_iff.
  - right. apply Nat.leb_gt. lia.
  - right. apply Nat.leb_gt. lia.
Qed.

Lemma rstrip_digits (s : string) :
  Forall (λ c, Py.is_digit c = true) (Py.chars s) → Py.rstrip s = s.
Proof.
  induction s as [|c s IH]; [done|]. intros [Hc Hs]%Forall_cons.
  cbn [Py.rstrip]. rewrite (IH Hs), (digit_not_space c Hc). by destruct s.
Qed.

Lemma strip_digits (s : string) :
  Forall (λ c, Py.is_digit c = true) (Py.chars s) → Py.strip s = s.
Proof.
  intros H. unfold Py.strip.
  assert (Py.lstrip s = s) as ->; [|by apply rstrip_digits].
  destruct s as [|c s]; [done|]. apply Forall_cons in H as [Hc _].
  cbn [Py.lstrip]. by rewrite (digit_not_space c Hc).
Qed.

(** [int] reads back a string of decimal digits. *)
Lemma int_digits (s : string) (z : Z) :
  s ≠ "" →
  Forall (λ c, Py.is_digit c = true) (Py.chars s) →
  Py.digits_val 0 s = Some z →
  Py.int s = Ok z.
Proof.
  intros Hne Hd Hv. unfold Py.int. rewrite (strip_digits s Hd).
  destruct s as [|c s]; [done|]. apply Forall_cons in Hd as [Hc _].
  destruct c as [[] [] [] [] [] [] [] []]; try discriminate Hc; by rewrite Hv.
Qed.

Lemma int_format_int (z : Z) : 0 ≤ z → Py.int (Py.format_int z) = Ok z.
Proof.
  intros Hz. destruct (format_int_digits z Hz) as (Hne & Hd & Hv).
  by apply int_digits.
Qed.

Lemma split_cons_ne (sep c : ascii) (s : string) :
  c ≠ sep →
  Py.split sep (String c s)
  = match Py.split sep s with
    | tok :: toks => String c tok :: toks
    | [] => [String c ""]
    end.
Proof.
  intros H. cbn [Py.split]. by apply Ascii.eqb_neq in H as ->.
Qed.

Lemma split_none (sep : ascii) (s : string) :
  sep ∉ Py.chars s → Py.split sep s = [s].
Proof.
  induction s as [|c s IH]; [done|]. intros H.
  apply not_elem_of_cons in H as [Hc Hs].
  rewrite split_cons_ne by congruence. by rewrite (IH Hs).
Qed.

Lemma split_app (sep : ascii) (a b : string) :
  sep ∉ Py.chars a →
  Py.split sep (a +:+ String sep b) = a :: Py.split sep b.
Proof.
  induction a as [|c a IH]; intros H.
  - rewrite append_empty_l. cbn [Py.split]. by rewrite Ascii.eqb_refl.
  - apply not_elem_of_cons in H as [Hc Ha].
    rewrite append_cons, split_cons_ne by congruence. by rewrite (IH Ha).
Qed.

Lemma digits_not_elem (c : ascii) (s : string) :
  Py.is_digit c = false →
  Forall (λ d, Py.is_digit d = true) (Py.chars s) → c ∉ Py.chars s.
Proof.
  intros Hc Hs Hin. rewrite Forall_forall in Hs. specialize (Hs c Hin). congruence.
Qed.

Lemma span_digits_app (ds : list ascii) (c : ascii) (r : list ascii) :
  Forall (λ d, Py.is_digit d = true) ds → Py.is_digit c = false →
  span_digits (ds ++ c :: r) = (ds, c :: r).
Proof.
  intros Hds Hc. induction Hds as [|d ds Hd _ IH]; cbn [app span_digits].
  - by rewrite Hc.
  - by rewrite Hd, IH.
Qed.

(** A region string made of a chromosome name, a colon and two natural
    numbers around a dash is recognised by the pattern and read back. *)
Lemma region_name_reads_back (chrom : string) (s e : Z) :
  chrom ≠ "" → ":"%char ∉ Py.chars chrom → "010"%char ∉ Py.chars chrom →
  0 ≤ s → 0 ≤ e →
  let name := chrom +:+ ":" +:+ Py.format_int s +:+ "-" +:+ Py.format_int e in
  region_p_search name = true ∧ region_coords name 0 0 = Ok (chrom, s, e).
Proof.
  intros Hne Hcolon Hnl Hs He name.
  destruct (format_int_digits s Hs) as (Hs1 & Hs2 & Hs3).
  destruct (format_int_digits e He) as (He1 & He2 & He3).
  split.
  - unfold region_p_search, name. cbv zeta.
    change (":" +:+ ?x) with (String ":" x). change ("-" +:+ ?x) with (String "-" x).
    rewrite chars_app. cbn [Py.chars list_ascii_of_string].
    fold (Py.chars (Py.format_int s +:+ String "-" (Py.format_int e))).
    rewrite chars_app. cbn [Py.chars list_ascii_of_string].
    fold (Py.chars (Py.format_int e)). fold (Py.chars (Py.format_int s)).
    fold (Py.chars chrom).
    rewrite reverse_app, reverse_cons, reverse_app, reverse_cons, <- !app_assoc.
    cbn [app].
    assert (∃ d ds, reverse (Py.chars (Py.format_int e)) = d :: ds ∧
                    Py.is_digit d = true) as (d & ds & Hrev & Hd).
    { destruct (reverse (Py.chars (Py.format_int e))) as [|d ds] eqn:Hr.
      - apply (f_equal reverse) in Hr. rewrite reverse_involutive in Hr.
        destruct (Py.format_int e); [done|discriminate Hr].
      - exists d, ds. split; [done|].
        apply Forall_reverse in He2. rewrite Hr in He2. by apply Forall_cons in He2 as [? _]. }
    assert (Forall (λ c, Py.is_digit c = true) (d :: ds)) as Hdd.
    { rewrite <- Hrev. by apply Forall_reverse. }
    rewrite Hrev. cbn [app].
    assert (∀ r : list ascii,
              match d :: r with "010"%char :: r' => r' | _ => d :: r end = d :: r) as ->.
    { intros r. destruct d as [[] [] [] [] [] [] [] []]; try discriminate Hd; done. }
    change (d :: ds ++ ?r) with ((d :: ds) ++ r).
    rewrite span_digits_app by done.
    assert (∃ d' ds', reverse (Py.chars (Py.format_int s)) = d' :: ds' ∧
                      Forall (λ c, Py.is_digit c = true) (d' :: ds'))
      as (d' & ds' & Hrev' & Hdd').
    { destruct (reverse (Py.chars (Py.format_int s))) as [|d' ds'] eqn:Hr.
      - apply (f_equal reverse) in Hr. rewrite reverse_involutive in Hr.
        destruct (Py.format_int s); [done|discriminate Hr].
      - exists d', ds'. split; [done|]. rewrite <- Hr. by apply Forall_reverse. }
    rewrite Hrev'. change ((d' :: ds') ++ ?r) with ((d' :: ds') ++ r).
    rewrite span_digits_app by done.
    destruct (reverse (Py.chars chrom)) as [|c0 cs] eqn:Hr.
    { apply (f_equal reverse) in Hr. rewrite reverse_involutive in Hr.
      destruct chrom; [done|discriminate Hr]. }
    rewrite <- Hr. apply forallb_forall. intros c Hc%list_elem_of_In.
    rewrite elem_of_reverse in Hc.
    apply negb_true_iff, Ascii.eqb_neq. by intros ->.
  - unfold region_coords, name.
    change (":" +:+ ?x) with (String ":" x). change ("-" +:+ ?x) with (String "-" x).
    rewrite split_app by done.
    rewrite split_none.
    2:{ rewrite chars_app. cbn [Py.chars list_ascii_of_string].
        fold (Py.chars (Py.format_int e)).
        intros [H|H]%elem_of_app.
        - by apply (digits_not_elem ":"%char (Py.format_int s)).
        - apply elem_of_cons in H as [H|H]; [done|].
          by apply (digits_not_elem ":"%char (Py.format_int e)). }
    rewrite split_app by (by apply digits_not_elem).
    rewrite split_none by (by apply digits_not_elem).
    rewrite !mapM_cons, !int_format_int by done.
    cbn [mapM mbind mret result_bind result_ret]. do 2 f_equal; [f_equal|]; lia.
Qed.

(** X16: a line of BED text of three fields, with a chromosome name that
    has no colon and natural coordinates, gets a name that reads back as a
    region string: the pattern of [get_track_type] matches it and
    [_region_to_seqs] asks for the same chromosome and start, and for an end
    that is one more than the end that [_bed_to_seqs] passes on for the line
    itself. *)
Theorem bed3_name_reads_back (line chrom v1 v2 : string) (stranded : bool)
    (up down s e : Z) :
  fields line = [chrom; v1; v2] →
  Py.int v1 = Ok s → Py.int v2 = Ok e →
  0 ≤ s → 0 ≤ e →
  chrom ≠ "" → ":"%char ∉ Py.chars chrom → "010"%char ∉ Py.chars chrom →
  ∃ r, bed_line line stranded up down = Ok r ∧
       bed_chrom r = chrom ∧
       bed_intervals r = [(s - up, e - 1 + down)] ∧
       region_p_search (bed_name r) = true ∧
       region_coords (bed_name r) up down = Ok (chrom, s - up, e + down).
Proof.
  intros Hf H1 H2 Hs He Hne Hcolon Hnl.
  destruct (region_name_reads_back chrom s e Hne Hcolon Hnl Hs He) as [Hp Hc].
  eexists. split.
  - unfold bed_line, bed_fixed, bed_coords, bed_blocks, bed_name_of, bed_strand.
    rewrite Hf. cbv zeta.
    change (Py.getitem [chrom; v1; v2] 1) with (Ok v1).
    change (Py.getitem [chrom; v1; v2] 2) with (Ok v2).
    change (Py.getitem [chrom; v1; v2] 0) with (Ok chrom).
    change (Py.getitem [chrom; v1; v2] 3) with (@Raise string IndexError).
    change (Py.getitem [chrom; v1; v2] 5) with (@Raise string IndexError).
    repeat first [rewrite bind_Ok | rewrite H1 | rewrite H2 | progress cbv beta].
    change (length [chrom; v1; v2] =? 12)%nat with false. cbv iota.
    repeat first [rewrite bind_Ok | progress cbv beta].
    replace (if stranded then false else false) with false by by destruct stranded.
    unfold half_open_fix. cbn [fmap list_fmap].
    rewrite bind_Ok. cbv beta iota.
    pose proof (extend_nonempty false up down s (e - 1) [] []) as Hx.
    cbn [app] in Hx. rewrite Hx, bind_Ok. reflexivity.
  - cbn [bed_chrom bed_intervals bed_name zip zip_with app].
    split; [done|]. split; [done|]. split; [done|].
    by apply region_coords_shift.
Qed.

Lemma bed3_name_reads_back_witness :
  ∃ r, bed_line bed3_line false 0 0 = Ok r ∧
       bed_chrom r = "chr1" ∧
       bed_intervals r = [(10 - 0, 20 - 1 + 0)] ∧
       region_p_search (bed_name r) = true ∧
       region_coords (bed_name r) 0 0 = Ok ("chr1", 10 - 0, 20 + 0).
Proof.
  apply (bed3_name_reads_back bed3_line "chr1" "10" "20" false 0 0 10 20);
    try reflexivity; try lia; try discriminate;
    by apply (bool_decide_unpack _).
Defined.

(** ** A BED12 line without a block *)

(** X17: a line of BED text of twelve fields whose block starts, field 11,
    have no comma is left without a block, since the only token is dropped;
    the line raises [IndexError], from the extension when one is asked for
    and from [get_spliced_seq] otherwise, and no base is fetched for it. *)
Theorem bed12_no_comma_raises (fetch : string → Z → Z → result Sequence)
    (line v10 v11 : string) (stranded : bool) (up down s e : Z) (sizes : list Z) :
  List.length (fields line) = 12%nat →
  bed_coords (fields line) = Ok (s, e) →
  fields line !! 11%nat = Some v11 → ","%char ∉ Py.chars v11 →
  fields line !! 10%nat = Some v10 →
  mapM Py.int (Py.but_last (Py.split "," v10)) = Ok sizes →
  bed_line_seq fetch stranded up down line = Raise IndexError.
Proof.
  intros Hlen Hc H11 Hcomma H10 Hsizes.
  assert (∃ name chrom rc, bed_fixed line stranded = Ok (name, chrom, rc, [], []))
    as (name & chrom & rc & Hf).
  { assert (Py.getitem (fields line) 11 = Ok v11) as G11
      by exact (getitem_lookup _ 11 _ H11).
    assert (Py.getitem (fields line) 10 = Ok v10) as G10
      by exact (getitem_lookup _ 10 _ H10).
    assert (∃ chrom, Py.getitem (fields line) 0 = Ok chrom) as [chrom G0]
      by (destruct (fields line); [done|by eexists]).
    unfold bed_fixed, bed_blocks. cbv zeta.
    rewrite Hc, bind_Ok. cbv beta iota. rewrite G0, bind_Ok, Hlen.
    change (12 =? 12)%nat with true. cbv iota.
    rewrite G11, bind_Ok, (split_none "," v11 Hcomma).
    cbn [Py.but_last removelast mapM].
    change (mret []) with (@Ok (list Z) []).
    rewrite bind_Ok, G10, bind_Ok, Hsizes, bind_Ok.
    cbn [fmap list_fmap zip zip_with]. rewrite bind_Ok.
    unfold half_open_fix. destruct (bed_strand _ _); cbn [fmap list_fmap];
      by eexists _, _, _. }
  unfold bed_line_seq, bed_line. rewrite Hf, bind_Ok. cbv beta iota.
  unfold extend.
  destruct (Z.eqb_spec up 0) as [->|Hu], (Z.eqb_spec down 0) as [->|Hd], rc;
    rewrite ?add_at_nil, ?bind_Ok, ?bind_Raise; cbv beta iota;
    rewrite ?add_at_nil, ?bind_Ok, ?bind_Raise; try reflexivity.
Qed.

Lemma bed12_no_comma_raises_witness :
  bed_line_seq (faidx_fetch example_genome) true 0 0 bed12_single_line = Raise IndexError.
Proof.
  apply (bed12_no_comma_raises (faidx_fetch example_genome) bed12_single_line
           "20" "0" true 0 0 100 120 [] eq_refl eq_refl eq_refl);
    [by apply (bool_decide_unpack _)|reflexivity|reflexivity].
Defined.

(** ** Installed genomes *)

Lemma endswith_app (c : ascii) (a b : string) :
  b ≠ "" → Os.endswith c (a +:+ b) = Os.endswith c b.
Proof.
  intros Hb. unfold Os.endswith. rewrite chars_app.
  destruct (Py.chars b) as [|x l] eqn:Hc.
  - destruct b; [done|discriminate Hc].
  - by rewrite last_app_cons.
Qed.

Lemma endswith_not_elem (c : ascii) (s : string) :
  c ∉ Py.chars s → Os.endswith c s = false.
Proof.
  intros H. unfold Os.endswith. destruct (last (Py.chars s)) as [x|] eqn:Hl; [|done].
  apply Ascii.eqb_neq. intros ->. apply H.
  apply last_Some in Hl as [l' ->]. apply elem_of_app. right. apply list_elem_of_here.
Qed.

Lemma startswith_not_elem (c : ascii) (s : string) :
  c ∉ Py.chars s → Py.startswith (String c "") s = false.
Proof.
  destruct s as [|x s]; [done|]. intros [Hx _]%not_elem_of_cons.
  unfold Py.startswith. cbn [String.prefix].
  destruct (Ascii.ascii_dec c x) as [->|_]; [done|reflexivity].
Qed.

(** The pattern that [Genome.__init__] hands to [glob] is the one that
    [_is_genome_dir] builds for the same directory and name. *)
Lemma join_pattern (dir name : string) :
  dir ≠ "" → Os.endswith "/" dir = false →
  name ≠ "" → "/"%char ∉ Py.chars name →
  Os.join dir [name; "*.fa"] = (dir +:+ "/" +:+ name) +:+ "/*.fa".
Proof.
  intros Hd Hde Hn Hns. unfold Os.join. cbn [foldl].
  assert (Os.join2 dir name = dir +:+ "/" +:+ name) as ->.
  { unfold Os.join2. rewrite (startswith_not_elem "/" name Hns), Hde.
    destruct dir; [done|reflexivity]. }
  unfold Os.join2. change (Py.startswith "/" "*.fa") with false. cbv iota.
  rewrite endswith_app by (by destruct name).
  change ("/" +:+ name) with (String "/" name).
  assert (Os.endswith "/" (String "/" name) = false) as ->.
  { change (String "/" name) with ("/" +:+ name). rewrite endswith_app by done.
    by apply endswith_not_elem. }
  destruct (dir +:+ String "/" name) eqn:Hx.
  - destruct dir; [done|discriminate Hx].
  - cbn [String.eqb orb]. rewrite <- Hx.
    change (String "/" name) with ("/" +:+ name).
    by rewrite !append_assoc.
Qed.

(** X18: a name that [list_installed_genomes] lists for a directory is one
    that [Genome.__init__] finds there. For a directory that exists, is
    written without a leading tilde and without a final slash, and a listed
    name without a slash, the call returns what [Fasta.__init__] makes of the
    name itself, or what it makes of a file that [glob] found under the
    directory and the name, or it fails because there are several such files
    and none of them has the name of the genome: it fails neither for a
    missing configuration nor for a missing directory or file. *)
Theorem installed_genome_is_found (ext : Type) (config_genome_dir : option string)
    (home : string → string) (exists_ : string → bool) (glob : string → list string)
    (listdir : string → ext + list string) (Fasta : string → ext + Genome)
    (dir name : string) (names : list string) :
  dir ≠ "" → Py.startswith "~" dir = false → Os.endswith "/" dir = false →
  exists_ dir = true →
  list_installed_genomes ext config_genome_dir glob listdir (Some dir) = Done names →
  name ∈ names → name ≠ "" → "/"%char ∉ Py.chars name →
  let opened := Genome_init ext config_genome_dir home exists_ glob Fasta name (Some dir) in
  (∃ g, Fasta name = inr g ∧ opened = Done g) ∨
  (∃ fname, fname ∈ glob ((dir +:+ "/" +:+ name) +:+ "/*.fa") ∧
            opened = external (Fasta fname)) ∨
  ((1 < length (glob ((dir +:+ "/" +:+ name) +:+ "/*.fa")))%nat ∧
   opened = Fail (Exception ("More than one FASTA file found, no " +:+ name +:+ ".fa!"))).
Proof.
  intros Hd Ht He Hex Hl Hin Hn Hns opened. subst opened.
  unfold Genome_init. destruct (Fasta name) as [e0|g]; [|left; by exists g].
  right. unfold list_installed_genomes, chosen_dir in *.
  destruct dir as [|c d]; [done|]. cbn [truthy] in *. cbv zeta in *.
  destruct (listdir (String c d)) as [e|all]; [done|].
  injection Hl as <-. apply list_elem_of_filter in Hin as [Hg _].
  unfold _is_genome_dir in Hg. apply Nat.ltb_lt in Hg.
  unfold expanduser. rewrite Ht, Hex. cbn [negb].
  rewrite (join_pattern (String c d) name) by done.
  destruct (glob ((String c d +:+ "/" +:+ name) +:+ "/*.fa")) as [|f1 [|f2 fs]] eqn:Hglob.
  - cbn in Hg. lia.
  - left. exists f1. split; [apply list_elem_of_here|done].
  - destruct (bool_decide _) eqn:Hb.
    + left. eexists. split; [|reflexivity]. by apply bool_decide_eq_true in Hb.
    + right. split; [cbn; lia|done].
Qed.

Lemma installed_genome_is_found_witness :
  let glob := λ pattern : string,
                if String.eqb pattern "/genomes/hg19/*.fa"
                then ["/genomes/hg19/hg19.fa"] else [] in
  let Fasta := λ path : string,
                 if String.eqb path "/genomes/hg19/hg19.fa"
                 then inr example_genome else inl tt in
  let opened := Genome_init unit None id (λ _, true) glob Fasta "hg19" (Some "/genomes") in
  (∃ g, Fasta "hg19" = inr g ∧ opened = Done g) ∨
  (∃ fname, fname ∈ glob (("/genomes" +:+ "/" +:+ "hg19") +:+ "/*.fa") ∧
            opened = external (Fasta fname)) ∨
  ((1 < length (glob (("/genomes" +:+ "/" +:+ "hg19") +:+ "/*.fa")))%nat ∧
   opened = Fail (Exception ("More than one FASTA file found, no " +:+ "hg19" +:+ ".fa!"))).
Proof.
  intros glob Fasta.
  apply (installed_genome_is_found unit None id (λ _, true) glob
           (λ _, inr ["hg19"; "README"]) Fasta "/genomes" "hg19" ["hg19"]);
    try reflexivity; try discriminate.
  - apply list_elem_of_here.
  - by apply (bool_decide_unpack _).
Defined.
